(** * Redactor: the censor-segment engine and the pipeline controller

    A shallow embedding of [audio_processor.py], [utils.py],
    [video_processor.py], [stt_processor.py], [workflow.py] and
    [classification_processor.py].

    - Python floats are IEEE binary64 values: Rocq's primitive [float].
    - Python ints are [Z].
    - A pydub [AudioSegment] is modelled twice. The engine and the run are
      over its millisecond interface ([len], slicing and [overlay] all count
      in milliseconds): a list with one frame per millisecond, all segments
      being of one format. The second model, the modules [audioop], [pydub]
      and [sampled], has the frame rate and the samples of a segment, and
      the conversion [overlay] makes between segments of different frame
      rates; the statements about samples are over it.
    - The file system is a finite map from path strings to files.
    - Code that can raise returns a [result].
    - The libraries the code calls (pydub, moviepy, Whisper, the word
      classifier, uuid, pathlib's [stem], the clock) and the configuration
      are parameters: the classes [Pydub], [Os] and [Environment].
    - The three callbacks of a run are sinks that do not raise; what they
      receive is the list of events of the run.
    - The stop event is set from another thread: a run sees it through the
      values of its reads, in program order. *)

From Stdlib Require Import ZArith Ascii String Uint63 PrimFloat FloatOps SpecFloat.
From stdpp Require Import gmap strings list fin_maps pretty.
From Stdlib Require FloatAxioms.

Set Warnings "-inexact-float".
Local Open Scope Z_scope.

(** ** Exceptions *)

(** The exceptions the code tells apart, and [UnexpectedError] for any
    other. [CudaOutOfMemoryError] is the [RuntimeError] of a CUDA device that
    is out of memory. *)
Inductive exn :=
| OverflowError | ValueError | FileNotFoundError | CouldntDecodeError
| SameFileError | PermissionError | IsADirectoryError | RuntimeError
| CudaOutOfMemoryError
| UnexpectedError.

(** A value, or the exception raised instead. *)
Inductive result (A : Type) :=
| Ok (a : A)
| Raise (e : exn).
Arguments Ok {A} a.
Arguments Raise {A} e.

#[global] Instance result_ret : MRet result := fun _ a => Ok a.
#[global] Instance result_bind : MBind result := fun _ _ f m =>
  match m with Ok a => f a | Raise e => Raise e end.

(** ** utils.py: seconds_to_milliseconds *)

(** The value of a finite float [m * 2^e], rounded towards zero: [int(x)]. *)
Definition SFtrunc (s : bool) (m : positive) (e : Z) : Z :=
  let v := if 0 <=? e then Z.pos m * 2 ^ e else Z.pos m / 2 ^ (- e) in
  if s then - v else v.

(** The same value rounded down: [math.floor(x)]. *)
Definition SFfloor (s : bool) (m : positive) (e : Z) : Z :=
  let n := if s then Z.neg m else Z.pos m in
  if 0 <=? e then n * 2 ^ e else n / 2 ^ (- e).

(** [int(x)] for a float [x]: truncation; infinities raise OverflowError and
    NaN raises ValueError. *)
Definition py_int (x : float) : result Z :=
  match Prim2SF x with
  | S754_zero _ => Ok 0
  | S754_infinity _ => Raise OverflowError
  | S754_nan => Raise ValueError
  | S754_finite s m e => Ok (SFtrunc s m e)
  end.

(** [math.floor(x)], where it is defined. *)
Definition py_floor (x : float) : option Z :=
  match Prim2SF x with
  | S754_zero _ => Some 0
  | S754_finite s m e => Some (SFfloor s m e)
  | _ => None
  end.

(** [max(0, int(float(seconds) * 1000))]; the handler catches ValueError and
    TypeError only and returns 0 for them. *)
Definition seconds_to_milliseconds (seconds : float) : result Z :=
  match py_int (seconds * 1000)%float with
  | Ok n => Ok (Z.max 0 n)
  | Raise ValueError => Ok 0
  | Raise e => Raise e
  end.

(** ** pydub: AudioSegment at millisecond granularity *)

(** The part of pydub the engine calls, on segments of one format. *)
Class Pydub := {
  (** what one millisecond of audio holds *)
  frame : Type;
  (** one millisecond of silence *)
  quiet : frame;
  (** how [overlay] combines a millisecond of the receiver with a
      millisecond of the overlaid segment *)
  mix : frame -> frame -> frame;
  (** [Sine(freq).to_audio_segment(duration, volume)]; [None] when it
      raises *)
  sine : Z -> Z -> Z -> option (list frame);
  (** [seg.fade_in(d)] and [seg.fade_out(d)]; [None] when they raise *)
  fade_in : Z -> list frame -> option (list frame);
  fade_out : Z -> list frame -> option (list frame)
}.

Abbreviation AudioSegment := (list frame).

(** [len(seg)], in milliseconds. *)
Definition len `{Pydub} (seg : AudioSegment) : Z := Z.of_nat (length seg).

(** What pydub promises about the lengths of what it returns: a generated
    tone lasts the duration asked for, a fade keeps the length. *)
Class PydubSpec (P : Pydub) : Prop := {
  sine_len : forall f d v s, 0 <= d -> sine f d v = Some s -> len s = d;
  fade_in_len : forall d s s', fade_in d s = Some s' -> len s' = len s;
  fade_out_len : forall d s s', fade_out d s = Some s' -> len s' = len s
}.

Section Engine.
Context `{Pydub}.

(** [AudioSegment.silent(duration)]. *)
Definition silent (duration : Z) : AudioSegment :=
  replicate (Z.to_nat duration) quiet.

(** [seg1.overlay(seg2, position)] with the default [times=1]: the part
    before [position] is kept, the overlaid segment is cut to what remains of
    the receiver and combined with it, the rest is kept. The positions the
    code passes are not negative. The two segments are of one format: what
    [overlay] does before that to segments of different frame rates is in
    the second model, [pydub.overlay]. *)
Definition overlay (seg1 seg2 : AudioSegment) (position : Z) : AudioSegment :=
  let p := Z.to_nat position in
  let rest := drop p seg1 in
  let seg2 := take (length rest) seg2 in
  take p seg1 ++ zip_with mix (take (length seg2) rest) seg2
    ++ drop (length seg2) rest.

(** ** audio_processor.py: generate_beep *)

Definition generate_beep (duration_ms frequency_hz : Z) : AudioSegment :=
  let duration_ms := Z.max 0 duration_ms in
  if duration_ms <=? 0 then silent 0
  else
    let attempt :=
      beep ← sine frequency_hz duration_ms (-12);
      let fade_duration := Z.min 5 (duration_ms / 2) in
      if 0 <? fade_duration
      then beep ← fade_in fade_duration beep; fade_out fade_duration beep
      else Some beep in
    match attempt with
    | Some beep => beep
    | None => silent duration_ms
    end.

End Engine.

(** ** audio_processor.py: the loop of censor_audio *)

(** A flagged interval, [(start_sec, end_sec)]. *)
Abbreviation segment := (float * float)%type.

(** [list.sort(key=lambda x: x[0])]: stable, comparing keys with [<] only.
    An element is put in front of the first element of the sorted rest whose
    key is not smaller than its own. Where [<] orders the keys (no NaN among
    them) this is the list every stable sort returns. *)
Fixpoint insert_by_start (x : segment) (l : list segment) : list segment :=
  match l with
  | [] => [x]
  | y :: l' =>
      if (fst y <? fst x)%float then y :: insert_by_start x l'
      else x :: y :: l'
  end.

(** The segments in the order in which the loop takes them. *)
Definition sort_by_start (l : list segment) : list segment :=
  foldr insert_by_start [] l.

(** The sanity checks and clamping of one converted interval. *)
Definition clamp_ms (original_duration_ms start_ms end_ms : Z) : Z * Z :=
  let start_ms := Z.max 0 start_ms in
  let end_ms := Z.max start_ms end_ms in
  let end_ms := Z.min original_duration_ms end_ms in
  let start_ms := Z.min original_duration_ms start_ms in
  (start_ms, end_ms).

(** The [for] loop over the sorted segments, threading [final_audio] and
    [applied_count]. [generate_beep] never returns [None], so the check for
    it is not a branch here. *)
Fixpoint censor_loop `{Pydub} (original_duration_ms beep_frequency : Z)
    (segments : list segment) (final_audio : AudioSegment)
    (applied_count : Z) : result (AudioSegment * Z) :=
  match segments with
  | [] => Ok (final_audio, applied_count)
  | (start_sec, end_sec) :: segments =>
      start_ms ← seconds_to_milliseconds start_sec;
      end_ms ← seconds_to_milliseconds end_sec;
      let '(start_ms, end_ms) := clamp_ms original_duration_ms start_ms end_ms in
      let duration_ms := end_ms - start_ms in
      if duration_ms <=? 0
      then censor_loop original_duration_ms beep_frequency segments
             final_audio applied_count
      else
        let beep_sound := generate_beep duration_ms beep_frequency in
        censor_loop original_duration_ms beep_frequency segments
          (overlay final_audio beep_sound start_ms) (applied_count + 1)
  end.

(** The censoring plan: the millisecond intervals at which the loop overlays
    a tone, in the order it does. *)
Fixpoint plan_loop (original_duration_ms : Z) (segments : list segment)
    : result (list (Z * Z)) :=
  match segments with
  | [] => Ok []
  | (start_sec, end_sec) :: segments =>
      start_ms ← seconds_to_milliseconds start_sec;
      end_ms ← seconds_to_milliseconds end_sec;
      let '(start_ms, end_ms) := clamp_ms original_duration_ms start_ms end_ms in
      if end_ms - start_ms <=? 0
      then plan_loop original_duration_ms segments
      else
        plan ← plan_loop original_duration_ms segments;
        Ok ((start_ms, end_ms) :: plan)
  end.

(** The plan for the segments as [censor_audio] receives them: it sorts
    them before the loop. *)
Definition censor_plan (segments : list segment) (original_duration_ms : Z)
    : result (list (Z * Z)) :=
  plan_loop original_duration_ms (sort_by_start segments).

(** ** The file system *)

(** What a path holds: a directory, a WAV file with its audio, or any other
    regular file (a video, a file that does not decode) with its content. *)
Inductive file (frame : Type) :=
| Directory
| WavFile (audio : list frame)
| OtherFile (content : N).
Arguments Directory {frame}.
Arguments WavFile {frame} audio.
Arguments OtherFile {frame} content.

(** What the code needs from the operating system: which paths it refuses to
    write, and which it refuses to remove (a file in use, a missing
    permission). *)
Class Os := {
  write_refused : string -> bool;
  remove_refused : string -> bool
}.

Abbreviation filesystem := (gmap string (file frame)).

Section FileSystem.
Context `{Pydub} `{Os}.

(** [os.path.exists], [os.path.isfile], [os.path.isdir]. *)
Definition exists_ (fs : filesystem) (p : string) : bool :=
  bool_decide (is_Some (fs !! p)).

Definition isfile (fs : filesystem) (p : string) : bool :=
  match fs !! p with
  | Some (WavFile _) | Some (OtherFile _) => true
  | _ => false
  end.

Definition isdir (fs : filesystem) (p : string) : bool :=
  match fs !! p with Some Directory => true | _ => false end.

(** Creating or replacing the regular file at [p]. *)
Definition write_file (fs : filesystem) (p : string) (f : file frame)
    : result filesystem :=
  if write_refused p then Raise PermissionError
  else if isdir fs p then Raise IsADirectoryError
  else Ok (<[p := f]> fs).

(** [os.remove(p)] and [Path(p).unlink()]. *)
Definition remove (fs : filesystem) (p : string) : result filesystem :=
  match fs !! p with
  | None => Raise FileNotFoundError
  | Some Directory => Raise IsADirectoryError
  | Some _ => if remove_refused p then Raise PermissionError else Ok (delete p fs)
  end.

(** [shutil.copyfile(src, dst)]. *)
Definition copyfile (fs : filesystem) (src dst : string) : result filesystem :=
  if bool_decide (src = dst) then Raise SameFileError
  else
    match fs !! src with
    | None => Raise FileNotFoundError
    | Some Directory => Raise IsADirectoryError
    | Some f => write_file fs dst f
    end.

(** [AudioSegment.from_wav(path)]. *)
Definition from_wav (fs : filesystem) (p : string) : result AudioSegment :=
  match fs !! p with
  | None => Raise FileNotFoundError
  | Some Directory => Raise IsADirectoryError
  | Some (OtherFile _) => Raise CouldntDecodeError
  | Some (WavFile audio) => Ok audio
  end.

(** [seg.export(path, format="wav")]. *)
Definition export (fs : filesystem) (seg : AudioSegment) (p : string)
    : result filesystem :=
  write_file fs p (WavFile seg).

(** ** audio_processor.py: censor_audio *)

(** [beep_frequency] is [CONFIG.get("beep_frequency_hz", 440)]. Every
    exception of the second part is caught and turned into [None]. *)
Definition censor_audio (beep_frequency : Z) (fs : filesystem)
    (original_audio_path : string) (segments_to_censor : list segment)
    (output_path : string) : filesystem * option string :=
  match segments_to_censor with
  | [] =>
      match copyfile fs original_audio_path output_path with
      | Ok fs' => (fs', Some output_path)
      | Raise _ => (fs, None)
      end
  | _ =>
      let attempt :=
        audio ← from_wav fs original_audio_path;
        let original_duration_ms := len audio in
        let segments_to_censor := sort_by_start segments_to_censor in
        '(final_audio, applied_count) ←
          censor_loop original_duration_ms beep_frequency segments_to_censor
            audio 0;
        if 0 <? applied_count
        then export fs final_audio output_path
        else copyfile fs original_audio_path output_path in
      match attempt with
      | Ok fs' => (fs', Some output_path)
      | Raise _ => (fs, None)
      end
  end.

(** ** utils.py: cleanup_temp_files *)

(** One argument of [cleanup_temp_files]: a regular file is unlinked, and a
    refusal of the system is logged and skipped; anything else is skipped. *)
Definition cleanup_one (fs : filesystem) (file_path : option string)
    : filesystem :=
  match file_path with
  | None => fs
  | Some p =>
      if bool_decide (p = "") then fs
      else if isfile fs p then
        match remove fs p with Ok fs' => fs' | Raise _ => fs end
      else fs
  end.

Definition cleanup_temp_files (fs : filesystem) (args : list (option string))
    : filesystem :=
  foldl cleanup_one fs args.

End FileSystem.

(** ** Strings and paths *)

Local Open Scope string_scope.

(** The white space [str.strip()] removes, among the code points below 256
    (a character of a string is one such code point). *)
Definition is_space (c : ascii) : bool :=
  let n := nat_of_ascii c in
  bool_decide (9 <= n <= 13 ∨ 28 <= n <= 32 ∨ n = 133 ∨ n = 160)%nat.

(** [c.isalnum()] on ASCII. *)
Definition is_alnum (c : ascii) : bool :=
  let n := nat_of_ascii c in
  bool_decide (48 <= n <= 57 ∨ 65 <= n <= 90 ∨ 97 <= n <= 122)%nat.

(** [s.strip()], from the left and from the right. *)
Fixpoint lstrip (s : string) : string :=
  match s with
  | String c s' => if is_space c then lstrip s' else s
  | EmptyString => EmptyString
  end.

Fixpoint rstrip (s : string) : string :=
  match s with
  | String c s' =>
      let r := rstrip s' in
      if bool_decide (r = "") && is_space c then "" else String c r
  | EmptyString => EmptyString
  end.

Definition strip (s : string) : string := rstrip (lstrip s).

(** ["".join(c for c in s if f(c))]. *)
Fixpoint string_filter (f : ascii -> bool) (s : string) : string :=
  match s with
  | String c s' => if f c then String c (string_filter f s') else string_filter f s'
  | EmptyString => EmptyString
  end.

(** [s.endswith("/")]. *)
Fixpoint endswith_sep (s : string) : bool :=
  match s with
  | String c EmptyString => bool_decide (c = "/"%char)
  | String _ s' => endswith_sep s'
  | EmptyString => false
  end.

(** [os.path.join(a, b)] on POSIX. *)
Definition path_join (a b : string) : string :=
  if String.prefix "/" b then b
  else if bool_decide (a = "") || endswith_sep a then a +:+ b
  else a +:+ "/" +:+ b.

(** ** The collaborators' libraries *)

(** What moviepy does when asked for the audio track of a video. *)
Inductive audio_extraction `{Pydub} :=
| ClipRaises                              (* VideoFileClip raises *)
| ClipNoAudio                             (* clip.audio is None *)
| AudioWriteRaises (partial : option N)   (* write_audiofile raises, maybe
                                             leaving a partial file *)
| AudioWritten (audio : AudioSegment)     (* the track is written *)
| AudioNotWritten.                        (* it returns, no file appears *)

(** What moviepy does when asked to combine a video with an audio track. *)
Inductive muxing :=
| MuxRaises                               (* loading a clip raises *)
| MuxNoDuration                           (* video_clip.duration is None *)
| MuxWriteRaises (partial : option N)     (* write_videofile raises, maybe
                                             leaving a partial file *)
| MuxWritten (content : N)                (* the output is written *)
| MuxNotWritten.                          (* it returns, no file appears *)

(** An entry of a Whisper segment's word list that is a dict with the keys
    [word], [start] and [end]: the word, a str, and what [float()] makes of
    each time, [None] when it raises ValueError or TypeError. *)
Record word_info := {
  wi_word : string;
  wi_start : option float;
  wi_end : option float
}.

(** The result of [model.transcribe]: its text, and its segments. A segment
    that is a dict with a list under [words] is that list, any other segment
    is [None]; an entry of the list that is a dict with the three keys is a
    [word_info], any other entry is [None]. A result without a list of
    segments is one with an empty list. *)
Record transcription := {
  text : string;
  segments : list (option (list (option word_info)))
}.

(** The places of [run] where a callee can raise what it does not catch. *)
Inductive site :=
| AtExtract | AtTranscribe | AtClassify (i : nat) | AtTempPath | AtCensor
| AtReassemble.

(** Everything the run depends on and does not compute. *)
Class Environment `{Pydub} := {
  (** whether the caller gave a status and a progress callback *)
  has_status_callback : bool;
  has_progress_callback : bool;
  (** [CONFIG['temp_dir_path']], [None] when it is not available *)
  temp_dir_path : option string;
  (** [CONFIG.get("beep_frequency_hz", 440)] *)
  beep_frequency_hz : Z;
  (** the text of the n-th [uuid.uuid4()] *)
  uuid4 : nat -> string;
  (** [Path(p).stem] *)
  stem : string -> string;
  (** the text of the elapsed time, formatted with two decimals *)
  elapsed : string;
  (** what moviepy does for the audio of the video at a path *)
  video_clip_audio : string -> audio_extraction;
  (** what moviepy does for a video path and the contents of the video and
      audio files *)
  video_mux : string -> option (file frame) -> option (file frame) -> muxing;
  (** whether [load_whisper_model()] returns a model *)
  whisper_loaded : bool;
  (** [model.transcribe(audio_path, ...)] *)
  whisper_transcribe : string -> result transcription;
  (** [classify_word(word)] of classification_processor.py, which returns
      a boolean for every word *)
  classify_word : string -> bool;
  (** [stop()] only ever sets the event: its reads, in program order, are
      false up to some read and true from then on. [Some n]: the first [n]
      reads are false; [None]: it is never set. *)
  stop_after : option nat;
  (** an exception escapes the callee called at this place *)
  fault : site -> bool
}.

Section Collaborators.
Context `{Pydub} `{Os} `{!Environment}.

(** ** utils.py: get_temp_filepath *)

(** Returns a path in the temporary directory, or [None]; [uuids] counts the
    uuids drawn. [Path(dir) / name] is taken as [os.path.join]. *)
Definition get_temp_filepath (uuids : nat) (filename_suffix : string)
    : option string * nat :=
  match temp_dir_path with
  | None => (None, uuids)
  | Some temp_dir_path =>
      let unique_id := uuid4 uuids in
      let safe_suffix :=
        strip (string_filter
                 (fun c => is_alnum c || bool_decide (c ∈ ["."; "_"; "-"]%char))
                 filename_suffix) in
      let safe_suffix := if bool_decide (safe_suffix = "") then "file" else safe_suffix in
      let temp_filename := "tmp_" +:+ unique_id +:+ "_" +:+ safe_suffix in
      (Some (path_join temp_dir_path temp_filename), S uuids)
  end.

(** The [except] clauses of [extract_audio] and [reassemble_video]: a partial
    file is removed if it exists, and a refusal to remove it is logged. *)
Definition remove_partial (fs : filesystem) (p : string) : filesystem :=
  if exists_ fs p then
    match remove fs p with Ok fs' => fs' | Raise _ => fs end
  else fs.

(** ** audio_processor.py: extract_audio *)

(** The [try] block: what it returns, or the exception that escapes it, and
    the file system it leaves. *)
Definition extract_audio_try (fs : filesystem)
    (video_path temp_audio_path : string)
    : result (option string) * filesystem :=
  match video_clip_audio video_path with
  | ClipRaises => (Raise UnexpectedError, fs)
  | ClipNoAudio => (Ok None, fs)
  | AudioWriteRaises None => (Raise UnexpectedError, fs)
  | AudioWriteRaises (Some junk) =>
      match write_file fs temp_audio_path (OtherFile junk) with
      | Ok fs' => (Raise UnexpectedError, fs')
      | Raise e => (Raise e, fs)
      end
  | AudioWritten audio =>
      match write_file fs temp_audio_path (WavFile audio) with
      | Ok fs' =>
          if exists_ fs' temp_audio_path then (Ok (Some temp_audio_path), fs')
          else (Ok None, fs')
      | Raise e => (Raise e, fs)
      end
  | AudioNotWritten =>
      if exists_ fs temp_audio_path then (Ok (Some temp_audio_path), fs)
      else (Ok None, fs)
  end.

(** Returns the path of the extracted audio, or [None]; [uuids] counts the
    uuids drawn. *)
Definition extract_audio (fs : filesystem) (uuids : nat) (video_path : string)
    : option string * filesystem * nat :=
  match get_temp_filepath uuids "audio_extracted.wav" with
  | (None, uuids) => (None, fs, uuids)
  | (Some temp_audio_path, uuids) =>
      if bool_decide (temp_audio_path = "") then (None, fs, uuids)
      else
        match extract_audio_try fs video_path temp_audio_path with
        | (Ok r, fs') => (r, fs', uuids)
        | (Raise _, fs') => (None, remove_partial fs' temp_audio_path, uuids)
        end
  end.

(** ** stt_processor.py: transcribe_audio *)

(** A word and its interval, as the workflow reads it. *)
Record word_timestamp := {
  word : string;
  start : float;
  end_ : float
}.

(** The loop over the word list of a segment: an entry that is no
    [word_info], a word that is empty after stripping, a time that does not
    convert and an end before its start are skipped. *)
Definition parse_words (words : list (option word_info))
    : list word_timestamp :=
  omap (fun entry =>
          w ← entry;
          let word := strip (wi_word w) in
          if bool_decide (word = "") then None
          else
            start_f ← wi_start w;
            end_f ← wi_end w;
            if (start_f <=? end_f)%float
            then Some {| word := word; start := start_f; end_ := end_f |}
            else None) words.

(** The loop over the segments. [bound] tells whether the variable
    [word_info] is bound, which it is once a word list has had an entry.
    The warning for a segment without a word list formats [word_info], and
    raises NameError while it is not bound. *)
Fixpoint parse_segments (segments : list (option (list (option word_info))))
    (bound : bool) : result (list word_timestamp) :=
  match segments with
  | [] => Ok []
  | Some words :: segments =>
      let bound := match words with [] => bound | _ => true end in
      word_timestamps ← parse_segments segments bound;
      Ok (parse_words words ++ word_timestamps)%list
  | None :: segments =>
      if bound then parse_segments segments bound
      else Raise UnexpectedError
  end.

(** Returns the word timestamps, or [None] on failure, and the texts it
    passes to its progress callback. *)
Definition transcribe_audio (audio_path : string)
    : option (list word_timestamp) * list string :=
  if negb whisper_loaded then (None, ["Error: Whisper model not loaded."])
  else
    match whisper_transcribe audio_path with
    | Ok result =>
        let messages :=
          ["Transcription started..."; "Parsing transcription results..."] in
        let text_result := strip (text result) in
        if bool_decide (text_result = "") then (Some [], messages)
        else
          match parse_segments (segments result) false with
          | Ok word_timestamps => (Some word_timestamps, messages)
          | Raise _ =>
              (None,
               (messages ++ ["Error: Unexpected transcription error."])%list)
          end
    | Raise FileNotFoundError =>
        (None, ["Transcription started..."; "Error: Audio file not found."])
    | Raise CudaOutOfMemoryError =>
        (None, ["Transcription started..."; "Error: Out of memory during transcription."])
    | Raise RuntimeError =>
        (None, ["Transcription started..."; "Error: Transcription runtime error."])
    | Raise _ =>
        (None, ["Transcription started..."; "Error: Unexpected transcription error."])
    end.

(** ** video_processor.py: reassemble_video *)

(** The [try] block: what it returns, or the exception that escapes it, and
    the file system it leaves. The comparison of the two durations only logs
    and trims the clip; it is part of what moviepy writes.

    Line 48 of video_processor.py, the assignment of the video's duration to
    [audio_duration], stands one level left of the [if] block it ends, so
    that the [else] of line 49 has no [if] and Python refuses the file as it
    is. The function is read with that line inside the [if] block, which is
    what the [else] requires. The line belongs to the loading of the clips,
    whose outcomes are the parameter [video_mux]. *)
Definition reassemble_video_try (fs : filesystem)
    (original_video_path censored_audio_path output_video_path : string)
    : result bool * filesystem :=
  match video_mux original_video_path (fs !! original_video_path)
          (fs !! censored_audio_path) with
  | MuxRaises => (Raise UnexpectedError, fs)
  | MuxNoDuration => (Ok false, fs)
  | MuxWriteRaises None => (Raise UnexpectedError, fs)
  | MuxWriteRaises (Some junk) =>
      match write_file fs output_video_path (OtherFile junk) with
      | Ok fs' => (Raise UnexpectedError, fs')
      | Raise e => (Raise e, fs)
      end
  | MuxWritten content =>
      match write_file fs output_video_path (OtherFile content) with
      | Ok fs' => (Ok (exists_ fs' output_video_path), fs')
      | Raise e => (Raise e, fs)
      end
  | MuxNotWritten => (Ok (exists_ fs output_video_path), fs)
  end.

(** Returns whether the output was written. *)
Definition reassemble_video (fs : filesystem)
    (original_video_path censored_audio_path output_video_path : string)
    : bool * filesystem :=
  if negb (isfile fs original_video_path) then (false, fs)
  else if negb (isfile fs censored_audio_path) then (false, fs)
  else
    match reassemble_video_try fs original_video_path censored_audio_path
            output_video_path with
    | (Ok ok, fs') => (ok, fs')
    | (Raise _, fs') => (false, remove_partial fs' output_video_path)
    end.

End Collaborators.

(** ** workflow.py: ProcessingWorkflow *)

(** What the run sends to its three callbacks, in order. *)
Inductive event :=
| Status (message : string)
| Progress (value : float)
| Completion (success : bool) (final_path : option string).

(** The file system, the callbacks' history, how often the stop event was
    read and how many uuids were drawn, the attributes
    [temp_audio_original] and [temp_audio_censored], and the locals
    [success] and [final_output_path] of [run]. *)
Record state `{Pydub} := {
  fs : filesystem;
  events : list event;
  reads : nat;
  uuids : nat;
  temp_audio_original : option string;
  temp_audio_censored : option string;
  success : bool;
  final_output_path : option string
}.

(** How a piece of the [try] block ends: it goes on, it executes [return],
    or an exception escapes. *)
Inductive outcome (A : Type) :=
| Normal (a : A)
| Returned
| Raised (e : exn).
Arguments Normal {A} a.
Arguments Returned {A}.
Arguments Raised {A} e.

Definition M `{Pydub} (A : Type) : Type := state -> outcome A * state.

#[global] Instance M_ret `{Pydub} : MRet M := fun _ a st => (Normal a, st).
#[global] Instance M_bind `{Pydub} : MBind M := fun _ _ f m st =>
  match m st with
  | (Normal a, st') => f a st'
  | (Returned, st') => (Returned, st')
  | (Raised e, st') => (Raised e, st')
  end.

Section Workflow.
Context `{Pydub} `{Os} `{!Environment}.

Definition early_return {A} : M A := fun st => (Returned, st).
Definition raise {A} (e : exn) : M A := fun st => (Raised e, st).
Definition get : M state := fun st => (Normal st, st).
Definition modify (f : state -> state) : M unit := fun st => (Normal (), f st).

Definition set_fs (fs' : filesystem) (st : state) : state :=
  {| fs := fs'; events := events st; reads := reads st; uuids := uuids st;
     temp_audio_original := temp_audio_original st;
     temp_audio_censored := temp_audio_censored st;
     success := success st; final_output_path := final_output_path st |}.

Definition emit (e : event) (st : state) : state :=
  {| fs := fs st; events := (events st ++ [e])%list; reads := reads st;
     uuids := uuids st;
     temp_audio_original := temp_audio_original st;
     temp_audio_censored := temp_audio_censored st;
     success := success st; final_output_path := final_output_path st |}.

Definition tick_read (st : state) : state :=
  {| fs := fs st; events := events st; reads := S (reads st);
     uuids := uuids st;
     temp_audio_original := temp_audio_original st;
     temp_audio_censored := temp_audio_censored st;
     success := success st; final_output_path := final_output_path st |}.

Definition set_uuids (n : nat) (st : state) : state :=
  {| fs := fs st; events := events st; reads := reads st; uuids := n;
     temp_audio_original := temp_audio_original st;
     temp_audio_censored := temp_audio_censored st;
     success := success st; final_output_path := final_output_path st |}.

Definition set_temp_audio_original (p : option string) (st : state) : state :=
  {| fs := fs st; events := events st; reads := reads st; uuids := uuids st;
     temp_audio_original := p;
     temp_audio_censored := temp_audio_censored st;
     success := success st; final_output_path := final_output_path st |}.

Definition set_temp_audio_censored (p : option string) (st : state) : state :=
  {| fs := fs st; events := events st; reads := reads st; uuids := uuids st;
     temp_audio_original := temp_audio_original st;
     temp_audio_censored := p;
     success := success st; final_output_path := final_output_path st |}.

Definition set_success (b : bool) (st : state) : state :=
  {| fs := fs st; events := events st; reads := reads st; uuids := uuids st;
     temp_audio_original := temp_audio_original st;
     temp_audio_censored := temp_audio_censored st;
     success := b; final_output_path := final_output_path st |}.

Definition set_final_output_path (p : option string) (st : state) : state :=
  {| fs := fs st; events := events st; reads := reads st; uuids := uuids st;
     temp_audio_original := temp_audio_original st;
     temp_audio_censored := temp_audio_censored st;
     success := success st; final_output_path := p |}.

(** Whether the stop event is set at its [k]-th read. *)
Definition stop_requested_at (k : nat) : bool :=
  match stop_after with
  | Some n => bool_decide (n <= k)%nat
  | None => false
  end.

(** [self._stop_requested.is_set()]. *)
Definition is_set : M bool :=
  fun st => (Normal (stop_requested_at (reads st)), tick_read st).

(** [update_status]: the message goes to the status callback, if any. *)
Definition update_status (message : string) : M unit :=
  modify (fun st => if has_status_callback then emit (Status message) st else st).

(** [max] and [min] of two floats, as Python picks them. *)
Definition py_max (a b : float) : float := if (a <? b)%float then b else a.
Definition py_min (a b : float) : float := if (b <? a)%float then b else a.

(** [max(0.0, min(1.0, value / 100.0))]. The values passed are between 0 and
    100. *)
Definition progress_float (value : Z) : float :=
  py_max 0 (py_min 1 (of_uint63 (Uint63.of_Z value) / 100))%float.

(** [update_progress]: the value, brought into [0.0, 1.0], goes to the
    progress callback, if any. *)
Definition update_progress (value : Z) : M unit :=
  modify (fun st =>
    if has_progress_callback then emit (Progress (progress_float value)) st
    else st).

(** [_check_stop_or_error]. [truthy] tells whether a result other than
    [None] counts as true. *)
Definition check_stop_or_error {A} (truthy : A -> bool) (result : option A)
    (error_message : string) (check_none : bool) : M bool :=
  stop ← is_set;
  if stop : bool then
    update_status "Processing stopped by user.";; mret true
  else
    let error_condition :=
      match result with
      | None => true
      | Some a => if check_none then false else negb (truthy a)
      end in
    if error_condition then update_status error_message;; mret true
    else mret false.

(** [if self._check_stop_or_error(result, ...): return], going on with the
    result. When the check lets the run go on the result is not [None]. *)
Definition checked {A} (truthy : A -> bool) (result : option A)
    (error_message : string) (check_none : bool) : M A :=
  stop ← check_stop_or_error truthy result error_message check_none;
  if stop : bool then early_return
  else match result with Some a => mret a | None => early_return end.

Definition nonempty (s : string) : bool := negb (bool_decide (s = "")).

(** A call at a place where an exception can escape. *)
Definition at_site {A} (s : site) (call : M A) : M A :=
  if fault s then raise UnexpectedError else call.

(** The calls to the collaborators, on the run's state. *)
Definition call_extract_audio (video_path : string) : M (option string) :=
  fun st =>
    let '(r, fs', n) := extract_audio (fs st) (uuids st) video_path in
    (Normal r, set_uuids n (set_fs fs' st)).

Definition call_transcribe_audio (audio_path : string)
    : M (option (list word_timestamp)) :=
  let '(r, said) := transcribe_audio audio_path in
  foldr (fun message k => update_status message;; k) (mret r) said.

Definition call_get_temp_filepath (filename_suffix : string)
    : M (option string) :=
  fun st =>
    let '(r, n) := get_temp_filepath (uuids st) filename_suffix in
    (Normal r, set_uuids n st).

Definition call_censor_audio (original_audio_path : string)
    (segments_to_censor : list segment) (output_path : string)
    : M (option string) :=
  fun st =>
    let '(fs', r) := censor_audio beep_frequency_hz (fs st) original_audio_path
                       segments_to_censor output_path in
    (Normal r, set_fs fs' st).

Definition call_reassemble_video
    (original_video_path censored_audio_path output_video_path : string)
    : M bool :=
  fun st =>
    let '(ok, fs') := reassemble_video (fs st) original_video_path
                        censored_audio_path output_video_path in
    (Normal ok, set_fs fs' st).

(** Step 3: the loop over the word timestamps, [i] counting from 0. The
    progress value is [50 + int(20 * (i + 1) / num_words)]; below 2^49 words
    the truncated float quotient is the integer quotient. *)
Fixpoint classify_loop (num_words : nat) (i : nat)
    (word_timestamps : list word_timestamp) (segments_to_censor : list segment)
    : M (list segment) :=
  match word_timestamps with
  | [] => mret segments_to_censor
  | item :: word_timestamps =>
      stop ← is_set;
      if stop : bool then early_return
      else
        segments_to_censor ←
          (if nonempty (word item) then
             abusive ← at_site (AtClassify i) (mret (classify_word (word item)));
             mret (if abusive : bool
                   then (segments_to_censor ++ [(start item, end_ item)])%list
                   else segments_to_censor)
           else mret segments_to_censor);
        (if bool_decide (i `mod` 50 = 0)%nat || bool_decide (i = num_words - 1)%nat
         then update_progress
                (50 + (20 * (Z.of_nat i + 1)) / Z.of_nat num_words)
         else mret ());;
        classify_loop num_words (S i) word_timestamps segments_to_censor
  end.

(** Step 5: the first name of the output that no existing file has. The
    [while] loop tries the name without a counter and then counters from 1;
    [fuel] bounds the number of names tried. *)
Definition output_name (output_dir base_name : string) (counter : nat)
    : string :=
  path_join output_dir (base_name +:+ "_censored_" +:+ pretty counter +:+ ".mp4").

Fixpoint next_free_path (fs : filesystem) (output_dir base_name : string)
    (fuel counter : nat) (final_output_path : string) : string :=
  match fuel with
  | O => final_output_path
  | S fuel =>
      if exists_ fs final_output_path
      then next_free_path fs output_dir base_name fuel (S counter)
             (output_name output_dir base_name counter)
      else final_output_path
  end.

(** More names than there are files: one of them is free. *)
Definition unique_output_path (fs : filesystem) (output_dir base_name : string)
    : string :=
  next_free_path fs output_dir base_name (S (size fs)) 1
    (path_join output_dir (base_name +:+ "_censored.mp4")).

(** The [try] block of [run]. *)
Definition run_try (video_path output_dir : string) : M unit :=
  st ← get;
  if bool_decide (video_path = "") || negb (isfile (fs st) video_path) then
    update_status "Error: Input video file not found or invalid.";;
    early_return
  else if bool_decide (output_dir = "") || negb (isdir (fs st) output_dir) then
    update_status "Error: Output directory is invalid.";;
    early_return
  else
    (* Step 1: extract audio *)
    update_status "Step 1/5: Extracting audio...";;
    update_progress 5;;
    extracted ← at_site AtExtract (call_extract_audio video_path);
    modify (set_temp_audio_original extracted);;
    temp_audio_original ←
      checked nonempty extracted "Error: Failed to extract audio." false;
    (* Step 2: transcribe audio *)
    update_status "Step 2/5: Transcribing audio (this may take time)...";;
    update_progress 20;;
    transcribed ← at_site AtTranscribe (call_transcribe_audio temp_audio_original);
    word_timestamps ←
      checked (fun _ : list word_timestamp => true) transcribed
        "Error: Failed to transcribe audio." true;
    (* Step 3: classify words *)
    let num_words := length word_timestamps in
    update_status ("Step 3/5: Classifying " +:+ pretty num_words +:+ " words...");;
    update_progress 50;;
    segments_to_censor ←
      (if bool_decide (num_words = 0)%nat then mret []
       else classify_loop num_words 0 word_timestamps []);
    update_status ("Identified " +:+ pretty (length segments_to_censor)
                   +:+ " segments to censor.");;
    update_progress 70;;
    stop ← is_set;
    if stop : bool then early_return
    else
      (* Step 4: censor audio *)
      update_status "Step 4/5: Generating censored audio...";;
      allocated ← at_site AtTempPath (call_get_temp_filepath "audio_censored.wav");
      modify (set_temp_audio_censored allocated);;
      temp_audio_censored ←
        checked nonempty allocated
          "Error: Could not create path for censored audio." false;
      censored_path ←
        at_site AtCensor
          (call_censor_audio temp_audio_original segments_to_censor
             temp_audio_censored);
      checked nonempty censored_path "Error: Failed to censor audio." false;;
      update_progress 85;;
      (* Step 5: reassemble video *)
      update_status "Step 5/5: Reassembling video (this may also take time)...";;
      let base_name := stem video_path in
      st ← get;
      let final_output_path := unique_output_path (fs st) output_dir base_name in
      modify (set_final_output_path (Some final_output_path));;
      reassembly_ok ←
        at_site AtReassemble
          (call_reassemble_video video_path temp_audio_censored final_output_path);
      if negb reassembly_ok then
        update_status "Error: Failed to reassemble video."
      else
        stop ← is_set;
        if stop : bool then
          update_status "Stop requested during video reassembly.";;
          early_return
        else
          update_status ("Processing complete in " +:+ elapsed +:+ " seconds!");;
          update_progress 100;;
          modify (set_success true).

(** The [except] clause: an escaped exception becomes a status message. *)
Definition run_except (st : state) : state :=
  snd ((update_status "Error: An unexpected error occurred. Check logs.";;
        modify (set_success false)) st).

(** The [finally] clause: the two temporary files are cleaned up, a stop
    request overrides the result, and the completion callback is called. *)
Definition run_finally (st : state) : state :=
  let st :=
    set_fs (cleanup_temp_files (fs st)
              [temp_audio_original st; temp_audio_censored st]) st in
  let '(stop, st) :=
    match is_set st with
    | (Normal stop, st) => (stop, st)
    | (_, st) => (false, st)
    end in
  let st :=
    if stop : bool then
      let st := snd (update_status "Processing stopped." st) in
      set_final_output_path None (set_success false st)
    else st in
  emit (Completion (success st) (final_output_path st)) st.

(** The state at the entry of the [finally] clause. *)
Definition run_before_finally (video_path output_dir : string) (st : state)
    : state :=
  match run_try video_path output_dir st with
  | (Raised _, st) => run_except st
  | (_, st) => st
  end.

(** [run]. *)
Definition run (video_path output_dir : string) (st : state) : state :=
  run_finally (run_before_finally video_path output_dir st).

(** The state in which a run starts. *)
Definition initial_state (fs : filesystem) : state :=
  {| fs := fs; events := []; reads := 0; uuids := 0;
     temp_audio_original := None; temp_audio_censored := None;
     success := false; final_output_path := None |}.

End Workflow.

(** ** Python strings *)

(** The strings of the classifier are taken with code points below 256, one
    per character. [c.isspace()] for such a code point: the white space
    [str.strip()] removes. *)
Definition isspace (c : ascii) : bool :=
  let n := nat_of_ascii c in
  bool_decide (9 <= n <= 13 ∨ 28 <= n <= 32 ∨ n = 133 ∨ n = 160)%nat.

(** [c.lower()] for such a code point: the letters A to Z, and the capital
    letters of Latin-1 (all of 192 to 222 but the multiplication sign). *)
Definition lower_char (c : ascii) : ascii :=
  let n := nat_of_ascii c in
  if bool_decide (65 <= n <= 90 ∨ 192 <= n <= 214 ∨ 216 <= n <= 222)%nat
  then ascii_of_nat (n + 32) else c.

(** [s.lower()]. *)
Fixpoint str_lower (s : string) : string :=
  match s with
  | String c s' => String (lower_char c) (str_lower s')
  | EmptyString => EmptyString
  end.

(** Removing from the left, and from the right, the characters that [f]
    holds of. *)
Fixpoint lstrip_by (f : ascii -> bool) (s : string) : string :=
  match s with
  | String c s' => if f c then lstrip_by f s' else s
  | EmptyString => EmptyString
  end.

Fixpoint rstrip_by (f : ascii -> bool) (s : string) : string :=
  match s with
  | String c s' =>
      let r := rstrip_by f s' in
      if bool_decide (r = "") && f c then "" else String c r
  | EmptyString => EmptyString
  end.

(** [s.strip()] and [s.strip(chars)]. *)
Definition str_strip (s : string) : string :=
  rstrip_by isspace (lstrip_by isspace s).

Definition str_strip_chars (chars : list ascii) (s : string) : string :=
  rstrip_by (fun c => bool_decide (c ∈ chars))
    (lstrip_by (fun c => bool_decide (c ∈ chars)) s).

(** The lines a text file yields when it is iterated over: [open] translates
    every line ending to a line feed, and a line keeps its line feed. *)
Fixpoint universal_newlines (s : string) : string :=
  match s with
  | String c s' =>
      if bool_decide (c = "013"%char) then
        match s' with
        | String c' s'' =>
            if bool_decide (c' = "010"%char)
            then String "010" (universal_newlines s'')
            else String "010" (universal_newlines s')
        | EmptyString => String "010" EmptyString
        end
      else String c (universal_newlines s')
  | EmptyString => EmptyString
  end.

Fixpoint keepends (s : string) : list string :=
  match s with
  | String c s' =>
      if bool_decide (c = "010"%char) then String c "" :: keepends s'
      else match keepends s' with
           | [] => [String c ""]
           | line :: lines => String c line :: lines
           end
  | EmptyString => []
  end.

Definition readlines (content : string) : list string :=
  keepends (universal_newlines content).

(** ** classification_processor.py *)

(** The configuration is a dict of JSON values; the module keeps the loaded
    pipeline, the keyword set and the device in globals. What torch and
    transformers do, what [float] makes of a string and what is at the path
    of the keyword file are parameters: the class [Transformers]. *)
Module classification_processor.

(** A value of config.json, as [json.load] returns it. *)
#[warnings="-register-all"] Inductive json :=
| JNull
| JBool (b : bool)
| JInt (n : Z)
| JFloat (x : float)
| JString (s : string)
| JArray (items : list json)
| JObject (members : list (string * json)).

(** [bool(v)]: what [not v] negates. *)
Definition truthy (v : json) : bool :=
  match v with
  | JNull => false
  | JBool b => b
  | JInt n => negb (n =? 0)%Z
  | JFloat x => negb (x =? 0)%float
  | JString s => nonempty s
  | JArray items => match items with [] => false | _ => true end
  | JObject members => match members with [] => false | _ => true end
  end.

(** [v == s] for a string [s]. *)
Definition is_string (v : json) (s : string) : bool :=
  match v with
  | JString s' => bool_decide (s' = s)
  | _ => false
  end.

(** [float(n)] for an int: the nearest float, ties to even; OverflowError
    when it is out of range. *)
Definition float_of_int (n : Z) : result float :=
  match binary_normalize prec emax n 0 false with
  | S754_infinity _ => Raise OverflowError
  | x => Ok (SF2Prim x)
  end.

(** What a pipeline returns for a text: it raises, or what it returns has
    not the expected format (a non-empty list whose first element is a dict
    with a label and a score), or it has. *)
Inductive inference :=
| InferenceRaises
| Malformed
| Predicted (label : string) (score : float).

Abbreviation pipeline := (string -> inference).

(** What is at the path of the keyword file: no regular file, a file that
    cannot be opened or read as UTF-8 text, or a text. *)
Inductive text_file :=
| NoFile
| Unreadable
| Text (content : string).

(** The device a model is put on. *)
Inductive device := Cuda0 | Cpu.

(** What the classifier depends on and does not compute. *)
Class Transformers := {
  (** the dict [load_config] returned *)
  CONFIG : gmap string json;
  (** [torch.cuda.is_available()] *)
  cuda_is_available : bool;
  (** the pipeline made of the tokenizer and the model loaded for a model
      name on a device index, at the n-th attempt; [None] when one of the
      three calls raises *)
  load_pipeline : nat -> json -> Z -> option pipeline;
  (** [float(s)] for a string; [None] when it raises ValueError *)
  float_of_string : string -> option float;
  (** what [os.path.isfile] and [open] find for the configured path *)
  read_text : json -> text_file
}.

(** The module's globals, and how often the loading of a model was
    attempted. *)
Record globals := {
  _classifier_pipeline : option pipeline;
  _keyword_list : option (gset string);
  _classifier_device : option device;
  loads : nat
}.

(** The globals when the module has been imported. *)
Definition imported : globals :=
  {| _classifier_pipeline := None; _keyword_list := None;
     _classifier_device := None; loads := 0 |}.

Section Classifier.
Context `{Transformers}.

(** [CONFIG.get(key, default)]. *)
Definition get (key : string) (default : json) : json :=
  match CONFIG !! key with Some v => v | None => default end.

(** [float(v)]; a TypeError is an [UnexpectedError]. *)
Definition py_float (v : json) : result float :=
  match v with
  | JFloat x => Ok x
  | JInt n => float_of_int n
  | JBool b => Ok (if b then 1 else 0)%float
  | JString s =>
      match float_of_string s with
      | Some x => Ok x
      | None => Raise ValueError
      end
  | _ => Raise UnexpectedError
  end.

Definition _get_classifier_device (g : globals) : device * globals :=
  match _classifier_device g with
  | Some d => (d, g)
  | None =>
      let d := if cuda_is_available then Cuda0 else Cpu in
      (d, {| _classifier_pipeline := _classifier_pipeline g;
             _keyword_list := _keyword_list g;
             _classifier_device := Some d; loads := loads g |})
  end.

(** Returns the pipeline, or [None]. Every exception of the loading is
    caught, and leaves the global at [None]. *)
Definition load_classification_model (g : globals) : option pipeline * globals :=
  let mode := get "classification_mode" (JString "keyword") in
  if is_string mode "model" && bool_decide (_classifier_pipeline g = None) then
    let model_name := get "classification_model_name" JNull in
    if negb (truthy model_name) then (None, g)
    else
      let '(target_device, g) := _get_classifier_device g in
      let target_device_index :=
        match target_device with Cuda0 => 0%Z | Cpu => (-1)%Z end in
      let loaded := load_pipeline (loads g) model_name target_device_index in
      (loaded, {| _classifier_pipeline := loaded;
                  _keyword_list := _keyword_list g;
                  _classifier_device := _classifier_device g;
                  loads := S (loads g) |})
  else (_classifier_pipeline g, g).

(** The set comprehension over the lines of the keyword file. *)
Definition keywords_from_file (content : string) : gset string :=
  list_to_set
    (omap (fun line =>
             if nonempty (str_strip line)
                && negb (String.prefix "#" (str_strip line))
             then Some (str_lower (str_strip line)) else None)
          (readlines content)).

(** Returns the set of keywords, which it reads from the file at its first
    call in keyword mode. A missing file and every exception give the empty
    set. *)
Definition load_keyword_list (g : globals) : option (gset string) * globals :=
  let mode := get "classification_mode" (JString "keyword") in
  if is_string mode "keyword" && bool_decide (_keyword_list g = None) then
    let filepath := get "keyword_file" (JString "keywords.txt") in
    let keyword_set :=
      match read_text filepath with
      | Text content => keywords_from_file content
      | NoFile | Unreadable => ∅
      end in
    (Some keyword_set,
     {| _classifier_pipeline := _classifier_pipeline g;
        _keyword_list := Some keyword_set;
        _classifier_device := _classifier_device g; loads := loads g |})
  else (_keyword_list g, g).

(** The punctuation [classify_word] strips. *)
Definition punctuation : list ascii :=
  ["."; ","; "!"; "?"; ";"; ":"; "'"; ascii_of_nat 34; "("; ")"; "["; "]";
   "{"; "}"; "<"; ">"; "-"]%char.

(** The preprocessing of a word. *)
Definition processed (word_text : string) : string :=
  str_lower (str_strip (str_strip_chars punctuation word_text)).

(** Returns whether the word is abusive, or the exception that escapes. *)
Definition classify_word (word_text : string) (g : globals)
    : result bool * globals :=
  if negb (nonempty word_text) then (Ok false, g)
  else
    let processed_word := processed word_text in
    if negb (nonempty processed_word) then (Ok false, g)
    else
      let mode := get "classification_mode" (JString "keyword") in
      if is_string mode "model" then
        let '(pipeline, g) := load_classification_model g in
        match pipeline with
        | None => (Ok false, g)
        | Some pipeline =>
            let abuse_label := get "abuse_label" JNull in
            let threshold :=
              match py_float (get "abuse_confidence_threshold" (JFloat 0.75)) with
              | Raise ValueError => Ok 0.75%float
              | r => r
              end in
            match threshold with
            | Raise e => (Raise e, g)
            | Ok threshold =>
                if negb (truthy abuse_label) then (Ok false, g)
                else
                  match pipeline processed_word with
                  | Predicted predicted_label score =>
                      (Ok (is_string abuse_label predicted_label
                           && (threshold <=? score)%float), g)
                  | InferenceRaises | Malformed => (Ok false, g)
                  end
            end
        end
      else if is_string mode "keyword" then
        let '(keywords, g) := load_keyword_list g in
        match keywords with
        | None => (Ok false, g)
        | Some keywords =>
            if bool_decide (keywords = ∅) then (Ok false, g)
            else (Ok (bool_decide (processed_word ∈ keywords)), g)
        end
      else (Ok false, g).

End Classifier.

End classification_processor.

Local Close Scope string_scope.

(** ** pydub: AudioSegment at the level of samples *)

(** The second model of pydub keeps what the first leaves out: a segment is
    a frame rate and the samples of its frames, and [overlay] brings its two
    segments to one frame rate before it combines them. The model is for
    segments with one channel and 16-bit samples, which is how
    [extract_audio] writes the audio and how pydub generates tones and
    silence; the conversions of channels and of sample width that [overlay]
    makes as well are the identity on them. The ints that become floats are
    between 0 and 2^53, where the conversion is exact. *)

(** [float(n)] for such an int. *)
Definition int_to_float (n : Z) : float := of_uint63 (Uint63.of_Z n).

(** The value of a finite float, rounded to the nearest integer and to the
    even one of two nearest: [round(x)]. *)
Definition SFround (s : bool) (m : positive) (e : Z) : Z :=
  let v :=
    if 0 <=? e then Z.pos m * 2 ^ e
    else
      let q := Z.pos m / 2 ^ (- e) in
      let r := Z.pos m mod 2 ^ (- e) in
      let half := 2 ^ (- e - 1) in
      if (half <? r) || ((r =? half) && Z.odd q) then q + 1 else q in
  if s then - v else v.

(** [round(x)] for a float [x]. *)
Definition py_round (x : float) : result Z :=
  match Prim2SF x with
  | S754_zero _ => Ok 0
  | S754_infinity _ => Raise OverflowError
  | S754_nan => Raise ValueError
  | S754_finite s m e => Ok (SFround s m e)
  end.

(** The two functions of the C module audioop that pydub calls here, on
    fragments of 16-bit samples with one channel. *)
Module audioop.

(** The sum of two samples, cut to 16 bits. *)
Definition add_sample (val1 val2 : Z) : Z :=
  Z.max (-32768) (Z.min 32767 (val1 + val2)).

(** [audioop.add(fragment1, fragment2, 2)] on fragments of one length. *)
Definition add (fragment1 fragment2 : list Z) : list Z :=
  zip_with add_sample fragment1 fragment2.

(** The inner loop of [ratecv] that writes output samples while [d] is not
    negative. The samples are taken with 32 bits; the doubles of the C code
    hold the integers of the interpolation exactly, and the conversion to
    int cuts the quotient towards zero. *)
Fixpoint ratecv_write (fuel : nat) (prev_i cur_i d inrate outrate : Z)
    : list Z * Z :=
  match fuel with
  | O => ([], d)
  | S fuel =>
      if d <? 0 then ([], d)
      else
        let cur_o := Z.quot (prev_i * d + cur_i * (outrate - d)) outrate in
        let '(written, d') :=
          ratecv_write fuel prev_i cur_i (d - inrate) inrate outrate in
        (Z.shiftr cur_o 16 :: written, d')
  end.

(** The outer loop: one input sample is read, then the output samples up to
    the next input sample are written. *)
Fixpoint ratecv_read (fragment : list Z) (cur_i d inrate outrate : Z)
    : list Z :=
  match fragment with
  | [] => []
  | sample :: fragment =>
      let prev_i := cur_i in
      let cur_i := Z.shiftl sample 16 in
      let d := d + outrate in
      let '(written, d) :=
        ratecv_write (Z.to_nat (d / inrate + 1)) prev_i cur_i d inrate outrate in
      written ++ ratecv_read fragment cur_i d inrate outrate
  end.

(** [audioop.ratecv(fragment, 2, 1, inrate, outrate, None)[0]], for positive
    rates. *)
Definition ratecv (fragment : list Z) (inrate outrate : Z) : list Z :=
  let d := Z.gcd inrate outrate in
  let inrate := inrate / d in
  let outrate := outrate / d in
  ratecv_read fragment 0 (- outrate) inrate outrate.

End audioop.

Module pydub.

(** A segment: its frame rate, positive, and the samples of its frames. *)
Record AudioSegment := {
  frame_rate : Z;
  _data : list Z
}.

(** [seg._spawn(data)] and [seg._spawn(data, overrides={'frame_rate': r})]. *)
Definition _spawn (seg : AudioSegment) (data : list Z) : AudioSegment :=
  {| frame_rate := frame_rate seg; _data := data |}.

(** [seg.frame_count()] and [seg.frame_count(ms=ms)]. *)
Definition frame_count (seg : AudioSegment) : float :=
  int_to_float (Z.of_nat (length (_data seg))).

Definition frame_count_ms (seg : AudioSegment) (ms : Z) : float :=
  (int_to_float ms * (int_to_float (frame_rate seg) / 1000))%float.

(** [len(seg)], in milliseconds. *)
Definition len (seg : AudioSegment) : result Z :=
  py_round (1000 * (frame_count seg / int_to_float (frame_rate seg)))%float.

(** [seg._parse_position(val)], for a position that is not negative. *)
Definition _parse_position (seg : AudioSegment) (val : Z) : result Z :=
  py_int (frame_count_ms seg val).

(** [seg[start:end]]; [None] is a bound that is left out. Frames that are
    missing at the end are filled with silence, unless they are more than
    those of two milliseconds. *)
Definition getitem (seg : AudioSegment) (start end_ : option Z)
    : result AudioSegment :=
  length_ms ← len seg;
  let start := Z.min (default 0 start) length_ms in
  let end_ := Z.min (default length_ms end_) length_ms in
  start ← _parse_position seg start;
  end_ ← _parse_position seg end_;
  let data := take (Z.to_nat (end_ - start)) (drop (Z.to_nat start) (_data seg)) in
  let expected_length := end_ - start in
  let missing_frames := expected_length - Z.of_nat (length data) in
  if missing_frames =? 0 then Ok (_spawn seg data)
  else if (0 <? missing_frames)
          && (frame_count_ms seg 2 <? int_to_float missing_frames)%float
  then Raise UnexpectedError
  else
    let silence := match data with [] => [] | _ => [0] end in
    Ok (_spawn seg
          (data ++ mjoin (replicate (Z.to_nat missing_frames) silence))).

(** [seg.set_frame_rate(frame_rate)]. *)
Definition set_frame_rate (seg : AudioSegment) (rate : Z) : AudioSegment :=
  if rate =? frame_rate seg then seg
  else
    {| frame_rate := rate;
       _data := match _data seg with
                | [] => []
                | data => audioop.ratecv data (frame_rate seg) rate
                end |}.

(** [AudioSegment._sync(seg1, seg2)]: both segments at the larger of their
    frame rates. *)
Definition _sync (seg1 seg2 : AudioSegment) : AudioSegment * AudioSegment :=
  let rate := Z.max (frame_rate seg1) (frame_rate seg2) in
  (set_frame_rate seg1 rate, set_frame_rate seg2 rate).

(** [seg1.overlay(seg2, position)] with the default [times=1]. *)
Definition overlay (seg1 seg2 : AudioSegment) (position : Z)
    : result AudioSegment :=
  let '(seg1, seg2) := _sync seg1 seg2 in
  before ← getitem seg1 None (Some position);
  rest ← getitem seg1 (Some position) None;
  let seg1_data := _data rest in
  let seg2_data := _data seg2 in
  let remaining := length seg1_data in
  let seg2_data :=
    if (remaining <=? length seg2_data)%nat then take remaining seg2_data
    else seg2_data in
  let seg2_len := length seg2_data in
  Ok (_spawn seg1
        (_data before ++ audioop.add (take seg2_len seg1_data) seg2_data
         ++ drop seg2_len seg1_data)).

(** [AudioSegment.silent(duration)], at the default frame rate of 11025. *)
Definition silent (duration : Z) : result AudioSegment :=
  frames ← py_int (11025 * (int_to_float duration / 1000))%float;
  Ok {| frame_rate := 11025; _data := replicate (Z.to_nat frames) 0 |}.

(** What pydub computes with [math.sin] and with gains in decibels. *)
Class Generators := {
  (** the first [n] samples of [Sine(freq)] at the default sample rate of
      44100, with the gain of [volume] dB, as 16-bit integers; [None] when
      generating them raises *)
  sine_samples : Z -> Z -> Z -> option (list Z);
  (** the samples of [seg.fade_in(d)] and of [seg.fade_out(d)]; [None] when
      they raise *)
  fade_in : Z -> AudioSegment -> option (list Z);
  fade_out : Z -> AudioSegment -> option (list Z)
}.

(** [Sine(freq).to_audio_segment(duration, volume)]. *)
Definition to_audio_segment `{Generators} (freq duration volume : Z)
    : option AudioSegment :=
  match py_int (44100 * (int_to_float duration / 1000))%float with
  | Ok sample_count =>
      samples ← sine_samples freq volume sample_count;
      Some {| frame_rate := 44100; _data := samples |}
  | Raise _ => None
  end.

End pydub.

(** ** audio_processor.py on sampled segments *)

Module sampled.
Import pydub.

Section Engine.
Context `{Generators}.

(** [generate_beep], as above. *)
Definition generate_beep (duration_ms frequency_hz : Z) : result AudioSegment :=
  let duration_ms := Z.max 0 duration_ms in
  if duration_ms <=? 0 then silent 0
  else
    let attempt :=
      beep ← to_audio_segment frequency_hz duration_ms (-12);
      let fade_duration := Z.min 5 (duration_ms / 2) in
      if 0 <? fade_duration
      then
        faded ← fade_in fade_duration beep;
        let beep := _spawn beep faded in
        faded ← fade_out fade_duration beep;
        Some (_spawn beep faded)
      else Some beep in
    match attempt with
    | Some beep => Ok beep
    | None => silent duration_ms
    end.

(** The [for] loop of [censor_audio], as above; here [overlay] can raise. *)
Fixpoint censor_loop (original_duration_ms beep_frequency : Z)
    (segments : list segment) (final_audio : AudioSegment)
    (applied_count : Z) : result (AudioSegment * Z) :=
  match segments with
  | [] => Ok (final_audio, applied_count)
  | (start_sec, end_sec) :: segments =>
      start_ms ← seconds_to_milliseconds start_sec;
      end_ms ← seconds_to_milliseconds end_sec;
      let '(start_ms, end_ms) := clamp_ms original_duration_ms start_ms end_ms in
      let duration_ms := end_ms - start_ms in
      if duration_ms <=? 0
      then censor_loop original_duration_ms beep_frequency segments
             final_audio applied_count
      else
        beep_sound ← generate_beep duration_ms beep_frequency;
        final_audio ← overlay final_audio beep_sound start_ms;
        censor_loop original_duration_ms beep_frequency segments
          final_audio (applied_count + 1)
  end.

(** [censor_audio] between the loading and the export (lines 113 to 160):
    from the buffer that is loaded to the buffer that is exported, and the
    number of intervals applied. *)
Definition censor_audio (beep_frequency : Z) (audio : AudioSegment)
    (segments_to_censor : list segment) : result (AudioSegment * Z) :=
  original_duration_ms ← len audio;
  censor_loop original_duration_ms beep_frequency
    (sort_by_start segments_to_censor) audio 0.

End Engine.

End sampled.

(** * The vocabulary of the statements *)

(** ** Conversion, plans and replanning *)

(** What [seconds_to_milliseconds] returns when it returns: the floor of the
    float product [seconds * 1000], brought up to 0; and 0 when the product
    is not a number. *)
Definition floor_ms (seconds : float) : Z :=
  match py_floor (seconds * 1000)%float with
  | Some n => Z.max 0 n
  | None => 0
  end.

(** The product [seconds * 1000] is not infinite: the one case in which
    [seconds_to_milliseconds] raises. *)
Definition converts (seconds : float) : Prop :=
  forall s, Prim2SF (seconds * 1000)%float <> S754_infinity s.

(** No element has a smaller start than the one before it. *)
Fixpoint in_start_order (l : list segment) : Prop :=
  match l with
  | x :: (y :: _) as l' => (fst y <? fst x)%float = false /\ in_start_order l'
  | _ => True
  end.

(** [(a, b)] is what the loop makes of the input interval [seg]: its
    endpoints converted, then clamped. *)
Definition clamped_from (D : Z) (seg : segment) (a b : Z) : Prop :=
  exists start_ms end_ms,
    seconds_to_milliseconds (fst seg) = Ok start_ms /\
    seconds_to_milliseconds (snd seg) = Ok end_ms /\
    clamp_ms D start_ms end_ms = (a, b).

(** Every endpoint converts. *)
Definition all_convert (segments : list segment) : Prop :=
  Forall (fun seg => converts (fst seg) /\ converts (snd seg)) segments.

(** No two neighbours of the plan overlap or touch. *)
Definition non_overlapping (plan : list (Z * Z)) : Prop :=
  forall i a b c d,
    plan !! i = Some (a, b) -> plan !! S i = Some (c, d) -> b < c.

(** The millisecond [t] lies in an interval of the plan. *)
Definition covered (plan : list (Z * Z)) (t : Z) : Prop :=
  exists a b, (a, b) ∈ plan /\ a <= t < b.

(** A duration in milliseconds, in seconds: [ms / 1000.0], as [censor_audio]
    writes its duration. The values converted are between 0 and 2^53. *)
Definition milliseconds_to_seconds (ms : Z) : float :=
  (of_uint63 (Uint63.of_Z ms) / 1000)%float.

(** A plan, written as the list of intervals in seconds the planner takes. *)
Definition plan_in_seconds (plan : list (Z * Z)) : list segment :=
  (fun ab => (milliseconds_to_seconds (fst ab), milliseconds_to_seconds (snd ab)))
    <$> plan.

(** The planner run on its own output. *)
Definition replan (segments : list segment) (D : Z) : result (list (Z * Z)) :=
  plan ← censor_plan segments D;
  censor_plan (plan_in_seconds plan) D.

(** [rendering] holds the intervals of [plan], in seconds, endpoint by
    endpoint converting to the plan's milliseconds. *)
Definition renders (rendering : list segment) (plan : list (Z * Z)) : Prop :=
  Forall2 (fun seg ab =>
             seconds_to_milliseconds (fst seg) = Ok (fst ab) /\
             seconds_to_milliseconds (snd seg) = Ok (snd ab))
          rendering plan.

Section EngineVocabulary.
Context `{Pydub} `{Os}.

(** Overlaying the tones of a plan, one interval after the other. *)
Definition apply_plan (beep_frequency : Z) (plan : list (Z * Z))
    (audio : AudioSegment) : AudioSegment :=
  foldl (fun final_audio '(start_ms, end_ms) =>
           overlay final_audio
             (generate_beep (end_ms - start_ms) beep_frequency) start_ms)
        audio plan.

(** The path [p] can be written: the system does not refuse it and it is
    not a directory. *)
Definition writable (fs : filesystem) (p : string) : Prop :=
  write_refused p = false /\ isdir fs p = false.

End EngineVocabulary.

(** ** Sampled segments *)

Section SampledVocabulary.
Import pydub.
Context `{Generators}.




End SampledVocabulary.

(** ** Events and states of a run *)

(** An event other than the completion notification. *)
Definition not_completion (e : event) : Prop :=
  match e with Completion _ _ => False | _ => True end.

Section RunVocabulary.
Context `{Pydub} `{Os} `{!Environment}.

(** The state [st'] continues [st] with events none of which is the
    completion notification. *)
Definition extends_quietly (st st' : state) : Prop :=
  exists evs, events st' = events st ++ evs /\ Forall not_completion evs.

(** A computation that never calls the completion callback. *)
Definition never_completes {A} (m : M A) : Prop :=
  forall st, extends_quietly st (snd (m st)).

(** What the status callback receives for a message, if it is there. *)
Definition said (message : string) : list event :=
  if has_status_callback then [Status message] else [].

(** What the progress callback receives for a value, if it is there. *)
Definition shown (value : Z) : list event :=
  if has_progress_callback then [Progress (progress_float value)] else [].

(** A state with more events. *)
Definition logged (evs : list event) (st : state) : state :=
  {| fs := fs st; events := events st ++ evs; reads := reads st;
     uuids := uuids st;
     temp_audio_original := temp_audio_original st;
     temp_audio_censored := temp_audio_censored st;
     success := success st; final_output_path := final_output_path st |}.

(** A state with another history of events and reads. *)
Definition relog (st : state) (evs : list event) (k : nat) : state :=
  {| fs := fs st; events := evs; reads := k; uuids := uuids st;
     temp_audio_original := temp_audio_original st;
     temp_audio_censored := temp_audio_censored st;
     success := success st; final_output_path := final_output_path st |}.

(** The two states differ in their events and reads at most. *)
Definition same_data (st st' : state) : Prop :=
  fs st' = fs st /\ uuids st' = uuids st /\
  temp_audio_original st' = temp_audio_original st /\
  temp_audio_censored st' = temp_audio_censored st /\
  success st' = success st /\
  final_output_path st' = final_output_path st.

(** A computation that only reports and reads the stop event. *)
Definition reports {A} (m : M A) : Prop :=
  forall st, same_data st (snd (m st)).

(** [Q] holds of the value and state with which [m] goes on, [R] of the
    state in which it returns or raises. *)
Definition wp {A} (m : M A) (Q : A -> state -> Prop) (R : state -> Prop)
    (st : state) : Prop :=
  match m st with
  | (Normal a, st') => Q a st'
  | (_, st') => R st'
  end.

(** The output path is neither of the two temporary paths, and these are
    not empty. *)
Definition temps_apart (st : state) : Prop :=
  (forall p, final_output_path st = Some p ->
     temp_audio_original st <> Some p /\ temp_audio_censored st <> Some p) /\
  (forall p, temp_audio_original st = Some p -> p <> ""%string) /\
  (forall p, temp_audio_censored st = Some p -> p <> ""%string).

End RunVocabulary.

(** ** Strings *)

(** Every character of [s] is one of [chars]. *)
Definition made_of (chars : list ascii) (s : string) : Prop :=
  Forall (.∈ chars) (list_ascii_of_string s).

(** A string of ASCII characters. *)
Definition is_ascii (s : string) : Prop :=
  Forall (fun c => (nat_of_ascii c < 128)%nat) (list_ascii_of_string s).

(** The characters [get_temp_filepath] keeps of a suffix. *)
Definition kept_in_suffix (c : ascii) : bool :=
  is_alnum c || bool_decide (c ∈ ["."; "_"; "-"]%char).

(** ** The transcription *)

(** A segment without a word list comes before every entry of a word list:
    the segments before it, if any, are empty word lists. *)
Definition meets_unbound_word_info
    (segments : list (option (list (option word_info)))) : Prop :=
  exists before after,
    segments = (before ++ None :: after)%list /\
    Forall (fun s => s = Some []) before.

(** ** The classifier *)

Section ClassifierVocabulary.
Import classification_processor.
Context `{Transformers}.

Local Open Scope string_scope.

(** The keywords of the configured file. *)
Definition file_keywords : gset string :=
  match read_text (get "keyword_file" (JString "keywords.txt")) with
  | Text content => keywords_from_file content
  | NoFile | Unreadable => ∅
  end.

(** Whether the preprocessed word is one of the keywords. *)
Definition keyword_verdict (keywords : gset string) (word_text : string) : bool :=
  nonempty word_text && nonempty (processed word_text)
  && bool_decide (processed word_text ∈ keywords).

(** The calls of [classify_word] for a list of words, one after the other,
    as the loop of the workflow makes them; the first exception ends
    them. *)
Fixpoint classify_words (words : list string) (g : globals)
    : result (list bool) * globals :=
  match words with
  | [] => (Ok [], g)
  | w :: words =>
      match classify_word w g with
      | (Ok b, g) =>
          match classify_words words g with
          | (Ok bs, g) => (Ok (b :: bs), g)
          | (Raise e, g) => (Raise e, g)
          end
      | (Raise e, g) => (Raise e, g)
      end
  end.

End ClassifierVocabulary.

(** ** Progress and success of a run *)

(** The values the progress callback has received. *)
Definition progress_values (evs : list event) : list float :=
  omap (fun e => match e with Progress value => Some value | _ => None end) evs.

(** No value is smaller than one before it. *)
Definition never_decreases (values : list float) : Prop :=
  forall i j x y,
    (i <= j)%nat -> values !! i = Some x -> values !! j = Some y ->
    (x <=? y)%float = true.

Section RunStatements.
Context `{Pydub} `{Os} `{!Environment}.

(** The intervals of the words of a transcription that are flagged. *)
Definition flagged (word_timestamps : list word_timestamp) : list segment :=
  (fun item => (start item, end_ item)) <$>
    filter (fun item => nonempty (word item) && classify_word (word item) = true)
      word_timestamps.

(** The progress values of [st] are those of percentages between 0 and
    [b], none smaller than one before it. *)
Definition staged (b : Z) (st : state) : Prop :=
  0 <= b <= 100 /\
  exists percentages : list Z,
    progress_values (events st) = progress_float <$> percentages /\
    Forall (fun v => 0 <= v <= b) percentages /\
    forall i j x y,
      (i <= j)%nat -> percentages !! i = Some x -> percentages !! j = Some y ->
      x <= y.

(** From percentages up to [b], [m] goes on to percentages up to [b']. *)
Definition advances {A} (b b' : Z) (m : M A) : Prop :=
  forall st, staged b st -> staged b' (snd (m st)).

(** A computation that sends nothing to the progress callback. *)
Definition no_progress {A} (m : M A) : Prop :=
  forall st, progress_values (events (snd (m st))) = progress_values (events st).

(** A state that tells of success names an output path at which there is a
    file. *)
Definition success_has_output (st : state) : Prop :=
  success st = true ->
  exists p, final_output_path st = Some p /\ p <> ""%string /\
            exists_ (fs st) p = true.

(** A computation that leaves [success] as it is. *)
Definition keeps_success {A} (m : M A) : Prop :=
  forall st, success (snd (m st)) = success st.

End RunStatements.

(** ** Examples to run the code on *)

(** Scenario 1 of the specification, on 20 seconds of audio. *)
Definition scenario1 : list segment :=
  [(2.0, 2.5); (2.4, 3.0); (10, 9)]%float.

(** A pydub whose frames are numbers: a tone repeats its frequency, fades
    change nothing, and an overlaid frame is added to the one below it, as
    [audioop.add] adds samples. *)
Definition demo_pydub : Pydub := {|
  frame := Z;
  quiet := 0;
  mix := audioop.add_sample;
  sine := fun f d _ => Some (replicate (Z.to_nat d) f);
  fade_in := fun _ seg => Some seg;
  fade_out := fun _ seg => Some seg
|}.

(** The same with a tone generator that always raises. *)
Definition mute_pydub : Pydub := {|
  frame := Z;
  quiet := 0;
  mix := audioop.add_sample;
  sine := fun _ _ _ => None;
  fade_in := fun _ seg => Some seg;
  fade_out := fun _ seg => Some seg
|}.

(** A system that refuses nothing. *)
Definition demo_os : Os := {|
  write_refused := fun _ => false;
  remove_refused := fun _ => false
|}.

(** A system that refuses to remove the extracted audio of the example run,
    as when the file is still in use. *)
Definition busy_os : Os := {|
  write_refused := fun _ => false;
  remove_refused := fun p =>
    bool_decide (p = "/tmp/redactor_temp/tmp_id0_audio_extracted.wav"%string)
|}.

(** Ten milliseconds of audio. *)
Definition demo_audio : list Z :=
  [1; 2; 3; 4; 5; 6; 7; 8; 9; 10].

(** A disk that holds them as a WAV file. *)
Definition demo_fs : gmap string (file Z) :=
  {[ "in.wav"%string := WavFile demo_audio ]}.

(** Two flagged intervals within them. *)
Definition demo_segments : list segment :=
  [(0.006, 0.008); (0.002, 0.004)]%float.


(** A tone generator that always raises. *)
Definition no_sine : pydub.Generators := {|
  pydub.sine_samples := fun _ _ _ => None;
  pydub.fade_in := fun _ seg => Some (pydub._data seg);
  pydub.fade_out := fun _ seg => Some (pydub._data seg)
|}.

(** A segment whose samples rise by 100 from frame to frame. *)
Definition ramp (rate frames : Z) : pydub.AudioSegment :=
  {| pydub.frame_rate := rate;
     pydub._data := (fun i => 100 * (i + 1)) <$> seqZ 0 frames |}.

Local Open Scope string_scope.

(** An environment over [demo_pydub]: both callbacks are given, the video
    has ten milliseconds of audio, no word is flagged, nothing raises
    unexpectedly; what muxing does, what Whisper returns and when the stop
    event is set are left open. *)
Definition demo_env (mux : muxing) (heard : result transcription)
    (stop : option nat) : @Environment demo_pydub := {|
  has_status_callback := true;
  has_progress_callback := true;
  temp_dir_path := Some "/tmp/redactor_temp";
  beep_frequency_hz := 440;
  uuid4 := fun n => "id" +:+ pretty n;
  stem := fun _ => "clip";
  elapsed := "1.00";
  video_clip_audio := fun _ => @AudioWritten demo_pydub demo_audio;
  video_mux := fun _ _ _ => mux;
  whisper_loaded := true;
  whisper_transcribe := fun _ => heard;
  classify_word := fun _ => false;
  stop_after := stop;
  fault := fun _ => false
|}.

(** A video and an output directory. *)
Definition demo_disk : gmap string (file Z) :=
  {[ "/in/clip.mp4" := OtherFile 1; "/out" := Directory ]}.

(** The same when the run on that video reaches its last step: the
    extracted and the censored audio are in place. *)
Definition demo_work_disk : gmap string (file Z) :=
  <["/tmp/redactor_temp/tmp_id1_audio_censored.wav" := WavFile demo_audio]>
    (<["/tmp/redactor_temp/tmp_id0_audio_extracted.wav" := WavFile demo_audio]>
       demo_disk).

(** A transcription without text. *)
Definition heard_nothing : result transcription :=
  Ok {| text := "  "; segments := [] |}.

(** The run on that video up to the [finally] clause. *)
Definition demo_run_before_finally (env : @Environment demo_pydub)
    : @state demo_pydub :=
  @run_before_finally demo_pydub demo_os env "/in/clip.mp4" "/out"
    (@initial_state demo_pydub demo_disk).

(** The whole run on that video. *)
Definition demo_run (env : @Environment demo_pydub) : @state demo_pydub :=
  @run demo_pydub demo_os env "/in/clip.mp4" "/out"
    (@initial_state demo_pydub demo_disk).

(** An environment without a temporary directory. *)
Definition no_temp_env : @Environment demo_pydub := {|
  has_status_callback := true;
  has_progress_callback := true;
  temp_dir_path := None;
  beep_frequency_hz := 440;
  uuid4 := fun n => "id" +:+ pretty n;
  stem := fun _ => "clip";
  elapsed := "1.00";
  video_clip_audio := fun _ => @AudioWritten demo_pydub demo_audio;
  video_mux := fun _ _ _ => MuxWritten 7;
  whisper_loaded := true;
  whisper_transcribe := fun _ => heard_nothing;
  classify_word := fun _ => false;
  stop_after := None;
  fault := fun _ => false
|}.

Section ClassifierExamples.
Import classification_processor.

(** A keyword file with a comment, a keyword on a line that ends in CR LF,
    a blank line and a keyword between spaces. *)
Definition demo_keyword_file : string :=
  "# words" +:+ String "010" "Bad" +:+ String "013" (String "010" "")
  +:+ String "010" "  worse " +:+ String "010" "".

Definition demo_config (mode : string) (threshold : json) : gmap string json :=
  {[ "classification_mode" := JString mode;
     "keyword_file" := JString "kw.txt";
     "classification_model_name" := JString "m";
     "abuse_label" := JString "ABUSE";
     "abuse_confidence_threshold" := threshold ]}.

(** A pipeline that finds one word abusive. *)
Definition demo_pipeline : pipeline := fun w =>
  if bool_decide (w = "bad") then Predicted "ABUSE" 0.9
  else Predicted "OK" 0.99.

(** A machine without CUDA on which no string is a number. *)
Definition demo_transformers (config : gmap string json)
    (loaded : option pipeline) (file : text_file) : Transformers := {|
  CONFIG := config;
  cuda_is_available := false;
  load_pipeline := fun _ _ _ => loaded;
  float_of_string := fun _ => None;
  read_text := fun _ => file
|}.

Definition demo_keyword_mode : Transformers :=
  demo_transformers (demo_config "keyword" JNull) None (Text demo_keyword_file).

End ClassifierExamples.

Local Close Scope string_scope.

(** * Facts *)

(** ** The code on examples *)

Example seconds_to_milliseconds_examples :
  seconds_to_milliseconds 2.4 = Ok 2400 /\
  seconds_to_milliseconds 1.001 = Ok 1000 /\
  seconds_to_milliseconds (-0.5) = Ok 0 /\
  seconds_to_milliseconds nan = Ok 0 /\
  seconds_to_milliseconds infinity = Raise OverflowError.
Proof. repeat split; by vm_compute. Qed.

Example sort_by_start_example :
  sort_by_start [(3, 4); (1, 9); (3, 1); (1, 2)]%float =
    [(1, 9); (1, 2); (3, 4); (3, 1)]%float.
Proof. by vm_compute. Qed.

Example generate_beep_examples :
  @generate_beep demo_pydub 3 440 = [440; 440; 440] /\
  @generate_beep mute_pydub 3 440 = [0; 0; 0] /\
  @generate_beep demo_pydub (-2) 440 = [].
Proof. repeat split; by vm_compute. Qed.

Example overlay_examples :
  @overlay demo_pydub demo_audio [100; 100; 100] 4 =
    [1; 2; 3; 4; 105; 106; 107; 8; 9; 10] /\
  @overlay demo_pydub demo_audio [100; 100; 100] 8 =
    [1; 2; 3; 4; 5; 6; 7; 8; 109; 110] /\
  @overlay demo_pydub demo_audio [100; 100; 100] 12 = demo_audio.
Proof. repeat split; by vm_compute. Qed.

Example censor_audio_example :
  @censor_audio demo_pydub demo_os 440 demo_fs "in.wav" demo_segments "out.wav" =
    (<["out.wav"%string := WavFile [1; 2; 443; 444; 5; 6; 447; 448; 9; 10]]> demo_fs,
     Some "out.wav"%string).
Proof. by vm_compute. Qed.

Example transcribe_audio_examples :
  let entry :=
    Some {| wi_word := " hi "; wi_start := Some 1%float;
            wi_end := Some 2%float |} in
  let heard segments := Ok {| text := "hi"; segments := segments |} in
  @transcribe_audio demo_pydub
    (demo_env MuxRaises (heard [Some [entry; None]; None]) None) "a.wav" =
    (Some [{| word := "hi"; start := 1; end_ := 2 |}],
     ["Transcription started..."; "Parsing transcription results..."]%string) /\
  @transcribe_audio demo_pydub
    (demo_env MuxRaises (heard [Some []; None; Some [entry]]) None) "a.wav" =
    (None,
     ["Transcription started..."; "Parsing transcription results...";
      "Error: Unexpected transcription error."]%string).
Proof. split; by vm_compute. Qed.

Example audioop_examples :
  audioop.add [30000; -30000; 5] [10000; -10000; 7] = [32767; -32768; 12] /\
  audioop.ratecv [100; 200; 300] 1000 3000 =
    [100; 133; 166; 200; 233; 266; 300] /\
  audioop.ratecv [100; 200; 300; -400; 500; -32768] 3000 2000 =
    [100; 250; -400; -16134].
Proof. repeat split; by vm_compute. Qed.

Example pydub_examples :
  (py_round 0.5 = Ok 0 /\ py_round 1.5 = Ok 2 /\ py_round 2.5 = Ok 2) /\
  (pydub.len (ramp 44100 132) = Ok 3 /\ pydub.len (ramp 44100 140) = Ok 3 /\
   pydub._parse_position (ramp 44100 132) 2 = Ok 88) /\
  pydub.getitem (ramp 1000 3) (Some 1) None =
    Ok {| pydub.frame_rate := 1000; pydub._data := [200; 300] |} /\
  pydub.set_frame_rate (ramp 1000 3) 3000 =
    {| pydub.frame_rate := 3000;
       pydub._data := [100; 133; 166; 200; 233; 266; 300] |} /\
  @sampled.generate_beep no_sine 2 440 =
    Ok {| pydub.frame_rate := 11025; pydub._data := replicate 22 0 |}.
Proof. repeat split; by vm_compute. Qed.

Example censor_audio_infinite_endpoint :
  @censor_audio demo_pydub demo_os 440 demo_fs "in.wav"
    [(0.002, infinity)]%float "out.wav" = (demo_fs, None).
Proof. by vm_compute. Qed.

Example unique_output_path_example :
  @unique_output_path demo_pydub
    (<["/out/clip_censored.mp4"%string := OtherFile 3%N]> demo_disk)
    "/out" "clip" = "/out/clip_censored_1.mp4"%string.
Proof. by vm_compute. Qed.

Example demo_run_events :
  events (demo_run (demo_env (MuxWritten 7%N) heard_nothing None)) =
    [Status "Step 1/5: Extracting audio...";
     Progress 0.05;
     Status "Step 2/5: Transcribing audio (this may take time)...";
     Progress 0.2;
     Status "Transcription started...";
     Status "Parsing transcription results...";
     Status "Step 3/5: Classifying 0 words...";
     Progress 0.5;
     Status "Identified 0 segments to censor.";
     Progress 0.7;
     Status "Step 4/5: Generating censored audio...";
     Progress 0.85;
     Status "Step 5/5: Reassembling video (this may also take time)...";
     Status "Processing complete in 1.00 seconds!";
     Progress 1;
     Completion true (Some "/out/clip_censored.mp4"%string)].
Proof. by vm_compute. Qed.

(** ** The conversion from seconds to milliseconds *)

Lemma max0_trunc_floor s m e :
  Z.max 0 (SFtrunc s m e) = Z.max 0 (SFfloor s m e).
Proof.
  unfold SFtrunc, SFfloor. destruct s; [|done].
  destruct (0 <=? e) eqn:He.
  - apply Z.leb_le in He.
    assert (0 < 2 ^ e) by (apply Z.pow_pos_nonneg; lia).
    rewrite !Z.max_l; nia.
  - apply Z.leb_gt in He.
    assert (0 < 2 ^ (- e)) by (apply Z.pow_pos_nonneg; lia).
    assert (0 <= Z.pos m / 2 ^ (- e)) by (apply Z.div_pos; lia).
    assert (Z.neg m / 2 ^ (- e) < 0) by (apply Z.div_lt_upper_bound; lia).
    rewrite !Z.max_l; lia.
Qed.

Lemma seconds_to_milliseconds_floor x v :
  seconds_to_milliseconds x = Ok v -> v = floor_ms x.
Proof.
  unfold seconds_to_milliseconds, floor_ms, py_int, py_floor.
  destruct (Prim2SF (x * 1000)) as [s| s | |s m e]; try congruence.
  intros [= <-]. apply max0_trunc_floor.
Qed.

Lemma seconds_to_milliseconds_nonneg x v :
  seconds_to_milliseconds x = Ok v -> 0 <= v.
Proof.
  intros ->%seconds_to_milliseconds_floor. unfold floor_ms.
  destruct (py_floor _); lia.
Qed.

Lemma seconds_to_milliseconds_converts x :
  converts x -> seconds_to_milliseconds x = Ok (floor_ms x).
Proof.
  intros Hx. destruct (seconds_to_milliseconds x) as [v|e] eqn:E.
  - by rewrite (seconds_to_milliseconds_floor _ _ E).
  - exfalso. revert E. unfold seconds_to_milliseconds, py_int.
    destruct (Prim2SF (x * 1000)) eqn:E'; try done.
    by destruct (Hx s).
Qed.

(** ** Clamping *)

Arguments clamp_ms : simpl never.

Lemma clamp_ms_range D s e a b :
  clamp_ms D s e = (a, b) -> a < b -> 0 <= a /\ b <= D.
Proof. unfold clamp_ms. intros [= <- <-]. lia. Qed.

Lemma clamp_ms_fixed D a b :
  0 <= a -> a < b -> b <= D -> clamp_ms D a b = (a, b).
Proof. unfold clamp_ms. intros. f_equal; lia. Qed.

(** ** Sorting *)

Lemma insert_by_start_perm x l : insert_by_start x l ≡ₚ x :: l.
Proof.
  induction l as [|y l IH]; simpl; [done|].
  destruct (fst y <? fst x)%float; [|done].
  rewrite IH. apply perm_swap.
Qed.

Lemma sort_by_start_perm l : sort_by_start l ≡ₚ l.
Proof.
  induction l as [|x l IH]; simpl; [done|].
  rewrite insert_by_start_perm. by rewrite IH.
Qed.

Lemma sort_by_start_in_order l : in_start_order l -> sort_by_start l = l.
Proof.
  induction l as [|x [|y l] IH]; simpl; [done..|].
  intros [Hxy Hl]. simpl in IH. rewrite (IH Hl). simpl. by rewrite Hxy.
Qed.

(** ** The plan *)

Lemma plan_loop_cons D s e segs :
  plan_loop D ((s, e) :: segs) =
  match seconds_to_milliseconds s, seconds_to_milliseconds e with
  | Ok start_ms, Ok end_ms =>
      let ab := clamp_ms D start_ms end_ms in
      if snd ab - fst ab <=? 0 then plan_loop D segs
      else match plan_loop D segs with
           | Ok plan => Ok (ab :: plan)
           | Raise e => Raise e
           end
  | Raise e, _ | _, Raise e => Raise e
  end.
Proof.
  cbn [plan_loop].
  destruct (seconds_to_milliseconds s); [|done].
  destruct (seconds_to_milliseconds e); [|done].
  cbn [mbind result_bind]. by destruct (clamp_ms D _ _).
Qed.

Lemma plan_loop_elem D segs plan :
  plan_loop D segs = Ok plan ->
  forall a b, (a, b) ∈ plan <->
    exists seg, seg ∈ segs /\ clamped_from D seg a b /\ a < b.
Proof.
  revert plan. induction segs as [|[s e] segs IH]; intros plan.
  - intros [= <-] a b. split; [by intros ?%elem_of_nil|].
    by intros (? & ?%elem_of_nil & _).
  - rewrite plan_loop_cons.
    destruct (seconds_to_milliseconds s) as [sm|] eqn:Es; [|done].
    destruct (seconds_to_milliseconds e) as [em|] eqn:Ee; [|done].
    destruct (clamp_ms D sm em) as [a0 b0] eqn:Ec. cbn [fst snd].
    destruct (b0 - a0 <=? 0) eqn:Hd.
    + intros Hp a b. rewrite (IH _ Hp). apply Z.leb_le in Hd. split.
      * intros (seg & ? & ?). exists seg. by rewrite elem_of_cons; auto.
      * intros (seg & [->|?]%elem_of_cons & Hc & ?); [|by eauto].
        destruct Hc as (sm' & em' & Hs' & He' & Hc). simpl in *.
        assert (a0 = a /\ b0 = b) as [-> ->] by (split; congruence). lia.
    + destruct (plan_loop D segs) as [plan'|] eqn:Ep; [|done].
      intros [= <-] a b. apply Z.leb_gt in Hd.
      rewrite elem_of_cons, (IH _ eq_refl). split.
      * intros [[= -> ->]|(seg & ? & ?)].
        -- exists (s, e). split; [left|]. split; [|lia].
           by exists sm, em.
        -- exists seg. by rewrite elem_of_cons; auto.
      * intros (seg & [->|?]%elem_of_cons & Hc & ?); [|by eauto].
        left. destruct Hc as (sm' & em' & Hs' & He' & Hc). simpl in *.
        congruence.
Qed.

Lemma censor_plan_elem segs D plan :
  censor_plan segs D = Ok plan ->
  forall a b, (a, b) ∈ plan <->
    exists seg, seg ∈ segs /\ clamped_from D seg a b /\ a < b.
Proof.
  intros Hp a b. rewrite (plan_loop_elem _ _ _ Hp).
  by setoid_rewrite (sort_by_start_perm segs).
Qed.

(** The plan exists as soon as every endpoint converts. *)
Lemma plan_loop_total D segs :
  Forall (fun seg => converts (fst seg) /\ converts (snd seg)) segs ->
  exists plan, plan_loop D segs = Ok plan.
Proof.
  induction 1 as [|[s e] segs [Hs He] _ [plan IH]]; [by exists []|].
  simpl in Hs, He. rewrite plan_loop_cons.
  rewrite (seconds_to_milliseconds_converts _ Hs),
    (seconds_to_milliseconds_converts _ He), IH.
  cbv zeta. destruct (_ <=? _); eauto.
Qed.

Lemma censor_plan_total segs D :
  Forall (fun seg => converts (fst seg) /\ converts (snd seg)) segs ->
  exists plan, censor_plan segs D = Ok plan.
Proof.
  intros Hc. apply plan_loop_total.
  by rewrite (sort_by_start_perm segs).
Qed.

(** ** Overlaying *)

Section EngineFacts.
Context `{Pydub}.

Lemma overlay_length seg1 seg2 position :
  length (overlay seg1 seg2 position) = length seg1.
Proof.
  unfold overlay.
  rewrite !length_app, length_zip_with, !length_take, !length_drop.
  lia.
Qed.

Lemma overlay_len seg1 seg2 position :
  len (overlay seg1 seg2 position) = len seg1.
Proof. unfold len. by rewrite overlay_length. Qed.

(** A millisecond before the position, or after the end of the overlaid
    segment, is as it was. *)
Lemma overlay_outside seg1 seg2 position (i : nat) :
  0 <= position ->
  ~ (position <= Z.of_nat i < position + len seg2) ->
  overlay seg1 seg2 position !! i = seg1 !! i.
Proof.
  intros Hpos Hi. unfold overlay, len in *.
  set (p := Z.to_nat position) in *.
  set (rest := drop p seg1).
  set (cut := take (length rest) seg2).
  assert (length cut <= length seg2)%nat
    by (unfold cut; rewrite length_take; lia).
  assert (length cut <= length rest)%nat
    by (unfold cut; rewrite length_take; lia).
  rewrite <-(take_drop p seg1) at 2. fold rest.
  rewrite <-(take_drop (length cut) rest) at 3.
  destruct (decide (i < length (take p seg1))%nat) as [Hlt|Hge].
  { by rewrite !lookup_app_l. }
  rewrite !(lookup_app_r (take p seg1)) by lia.
  assert (length (zip_with mix (take (length cut) rest) cut) = length cut) as Hz
    by (rewrite length_zip_with, length_take; lia).
  assert (length (take (length cut) rest) = length cut) as Ht
    by (rewrite length_take; lia).
  rewrite length_take in Hge.
  destruct (decide (i - length (take p seg1) < length cut)%nat) as [Hmid|Hend].
  - (* inside the overlaid part: past the end of the receiver or excluded *)
    rewrite length_take in Hmid.
    destruct (decide (p <= length seg1)%nat).
    + exfalso. apply Hi. unfold cut in Hmid. rewrite length_take in Hmid. lia.
    + exfalso. unfold cut, rest in Hmid.
      rewrite length_take, length_drop in Hmid. lia.
  - rewrite !lookup_app_r by lia. by rewrite Hz, Ht.
Qed.

(** ** The tone *)

Lemma silent_len d : 0 <= d -> len (silent d) = d.
Proof. intros. unfold len, silent. rewrite length_replicate. lia. Qed.

Lemma generate_beep_len `{!PydubSpec _} duration_ms frequency_hz :
  0 < duration_ms -> len (generate_beep duration_ms frequency_hz) = duration_ms.
Proof.
  intros Hd. unfold generate_beep.
  rewrite Z.max_r by lia.
  destruct (duration_ms <=? 0) eqn:E; [apply Z.leb_le in E; lia|].
  destruct (sine frequency_hz duration_ms (-12)) as [beep|] eqn:Es; simpl;
    [|apply silent_len; lia].
  apply sine_len in Es; [|lia].
  destruct (0 <? _).
  - destruct (fade_in _ beep) as [beep1|] eqn:E1; simpl; [|apply silent_len; lia].
    apply fade_in_len in E1.
    destruct (fade_out _ beep1) as [beep2|] eqn:E2; simpl; [|apply silent_len; lia].
    apply fade_out_len in E2. congruence.
  - done.
Qed.

(** When the tone cannot be generated the segment is silence. *)
Lemma generate_beep_fallback duration_ms frequency_hz :
  0 < duration_ms ->
  sine frequency_hz duration_ms (-12) = None ->
  generate_beep duration_ms frequency_hz = silent duration_ms.
Proof.
  intros Hd Es. unfold generate_beep.
  rewrite Z.max_r by lia.
  destruct (duration_ms <=? 0) eqn:E; [apply Z.leb_le in E; lia|].
  by rewrite Es.
Qed.

(** ** The loop applies the plan *)

Lemma censor_loop_cons D f s e segs audio count :
  censor_loop D f ((s, e) :: segs) audio count =
  match seconds_to_milliseconds s, seconds_to_milliseconds e with
  | Ok start_ms, Ok end_ms =>
      let ab := clamp_ms D start_ms end_ms in
      if snd ab - fst ab <=? 0 then censor_loop D f segs audio count
      else censor_loop D f segs
             (overlay audio (generate_beep (snd ab - fst ab) f) (fst ab))
             (count + 1)
  | Raise e, _ | _, Raise e => Raise e
  end.
Proof.
  cbn [censor_loop].
  destruct (seconds_to_milliseconds s); [|done].
  destruct (seconds_to_milliseconds e); [|done].
  cbn [mbind result_bind]. by destruct (clamp_ms D _ _).
Qed.

Lemma censor_loop_plan D f segs audio count :
  censor_loop D f segs audio count =
  match plan_loop D segs with
  | Ok plan => Ok (apply_plan f plan audio, count + Z.of_nat (length plan))
  | Raise e => Raise e
  end.
Proof.
  revert audio count. induction segs as [|[s e] segs IH]; intros audio count.
  - simpl. do 2 f_equal. lia.
  - rewrite censor_loop_cons, plan_loop_cons.
    destruct (seconds_to_milliseconds s) as [sm|]; [|done].
    destruct (seconds_to_milliseconds e) as [em|]; [|done].
    cbv zeta. destruct (clamp_ms D sm em) as [a b]. cbn [fst snd].
    destruct (b - a <=? 0); rewrite IH; [done|].
    destruct (plan_loop D segs); [|done].
    cbn [length apply_plan foldl]. do 2 f_equal. lia.
Qed.

Lemma apply_plan_length f plan audio :
  length (apply_plan f plan audio) = length audio.
Proof.
  revert audio. induction plan as [|[a b] plan IH]; intros audio; [done|].
  cbn [apply_plan foldl]. etrans; [apply IH|]. apply overlay_length.
Qed.

Lemma apply_plan_outside `{!PydubSpec _} f plan audio (i : nat) :
  Forall (fun ab => 0 <= fst ab < snd ab) plan ->
  (forall a b, (a, b) ∈ plan -> ~ (a <= Z.of_nat i < b)) ->
  apply_plan f plan audio !! i = audio !! i.
Proof.
  revert audio. induction plan as [|[a b] plan IH]; intros audio Hr Hi; [done|].
  apply Forall_cons in Hr as [Hab Hr]. simpl in Hab.
  cbn [apply_plan foldl]. etrans.
  { apply IH; [done|]. intros ???. apply Hi. by right. }
  apply overlay_outside; [lia|].
  rewrite generate_beep_len by lia.
  intros ?. apply (Hi a b); [left|lia].
Qed.

End EngineFacts.

(** ** censor_audio *)

Section CensorFacts.
Context `{Pydub} `{Os}.

Lemma write_file_writable fs p f :
  writable fs p -> write_file fs p f = Ok (<[p := f]> fs).
Proof. intros [Hl Hd]. unfold write_file. by rewrite Hl, Hd. Qed.

Lemma copyfile_writable (fs : filesystem) src out f :
  fs !! src = Some f -> f <> Directory -> src <> out -> writable fs out ->
  copyfile fs src out = Ok (<[out := f]> fs).
Proof.
  intros Hsrc Hf Hne Hw. unfold copyfile.
  rewrite bool_decide_eq_false_2 by done. rewrite Hsrc.
  rewrite (write_file_writable _ _ _ Hw). by destruct f.
Qed.

(** With a readable source, a writable output and endpoints that convert,
    censoring succeeds and writes the source with the plan applied. *)
Lemma censor_audio_succeeds freq fs src segs out audio :
  fs !! src = Some (WavFile audio) ->
  src <> out ->
  writable fs out ->
  all_convert segs ->
  exists plan,
    censor_plan segs (len audio) = Ok plan /\
    censor_audio freq fs src segs out =
      (<[out := WavFile (apply_plan freq plan audio)]> fs, Some out).
Proof.
  intros Hsrc Hne Hw Hc.
  destruct (censor_plan_total segs (len audio) Hc) as [plan Hp].
  exists plan. split; [done|].
  unfold censor_audio. destruct segs as [|seg segs].
  - unfold copyfile. rewrite bool_decide_eq_false_2 by done.
    rewrite Hsrc, (write_file_writable _ _ _ Hw).
    injection Hp as <-. done.
  - unfold from_wav. rewrite Hsrc. cbn [mbind result_bind].
    rewrite censor_loop_plan. unfold censor_plan in Hp. rewrite Hp.
    cbn [mbind result_bind].
    destruct plan as [|ab plan].
    + cbn [length Z.of_nat Z.add Z.ltb Z.compare].
      unfold copyfile. rewrite bool_decide_eq_false_2 by done.
      by rewrite Hsrc, (write_file_writable _ _ _ Hw).
    + replace (0 <? 0 + Z.of_nat (length (ab :: plan))) with true
        by (symmetry; apply Z.ltb_lt; simpl; lia).
      unfold export. by rewrite (write_file_writable _ _ _ Hw).
Qed.

End CensorFacts.

(** ** The example pydubs keep the contract *)

Lemma demo_pydub_spec : PydubSpec demo_pydub.
Proof.
  split; simpl.
  - intros f d v s Hd [= <-]. unfold len. rewrite length_replicate. lia.
  - by intros d s s' [= <-].
  - by intros d s s' [= <-].
Qed.

Lemma mute_pydub_spec : PydubSpec mute_pydub.
Proof.
  split; simpl; [done| |].
  - by intros d s s' [= <-].
  - by intros d s s' [= <-].
Qed.

(** ** The plan and its intervals *)

(** C1, as stated, fails: on Scenario 1 the plan keeps the two overlapping
    intervals apart, the second starting before the first ends; it is not
    the single merged span. *)
Lemma plan_keeps_overlapping_intervals :
  censor_plan scenario1 20000 = Ok [(2000, 2500); (2400, 3000)] /\
  ~ non_overlapping [(2000, 2500); (2400, 3000)] /\
  censor_plan scenario1 20000 <> Ok [(2000, 3000)].
Proof.
  split; [by vm_compute|]. split.
  - intros Hn. specialize (Hn 0%nat 2000 2500 2400 3000 eq_refl eq_refl). lia.
  - by vm_compute.
Qed.

Lemma plan_loop_perm D segs segs' plan :
  segs ≡ₚ segs' -> plan_loop D segs = Ok plan ->
  exists plan', plan_loop D segs' = Ok plan' /\ plan ≡ₚ plan'.
Proof.
  intros Hperm. revert plan.
  induction Hperm as [|[s e] l l' _ IH|[s1 e1] [s2 e2] l|l1 l2 l3 _ IH1 _ IH2];
    intros plan.
  - intros [= <-]. by exists [].
  - rewrite !plan_loop_cons.
    destruct (seconds_to_milliseconds s); [|done].
    destruct (seconds_to_milliseconds e); [|done].
    cbv zeta. destruct (_ <=? _); [apply IH|].
    destruct (plan_loop D l) as [p|]; [|done].
    destruct (IH p eq_refl) as (p' & -> & Hp).
    intros [= <-]. eexists; split; [done|]. by f_equiv.
  - rewrite !plan_loop_cons.
    destruct (seconds_to_milliseconds s1), (seconds_to_milliseconds e1),
      (seconds_to_milliseconds s2), (seconds_to_milliseconds e2); try done.
    all: cbv zeta.
    all: repeat match goal with
           | |- context [if ?b then _ else _] => destruct b
           end; try done; try (by eauto).
    all: destruct (plan_loop D l); try done; intros [= <-]; eauto using perm_swap.
  - intros Hp. destruct (IH1 _ Hp) as (p2 & Hp2 & ?).
    destruct (IH2 _ Hp2) as (p3 & Hp3 & ?).
    exists p3. split; [done|]. by etrans.
Qed.

(** C1, amended: the plan is not merged. It holds one interval for each
    flagged interval that has a positive length after clamping, so what it
    covers is what the clamped flagged intervals cover; on Scenario 1 it is
    the two overlapping intervals, which together cover 2.0 s to 3.0 s, the
    reversed interval being dropped. *)
Theorem plan_covers_clamped_intervals :
  (forall segs D plan,
     censor_plan segs D = Ok plan ->
     (exists plan0, plan_loop D segs = Ok plan0 /\ plan ≡ₚ plan0) /\
     (forall t, covered plan t <->
        exists seg a b, seg ∈ segs /\ clamped_from D seg a b /\ a <= t < b)) /\
  censor_plan scenario1 20000 = Ok [(2000, 2500); (2400, 3000)] /\
  (forall t, covered [(2000, 2500); (2400, 3000)] t <-> 2000 <= t < 3000).
Proof.
  split; [|split].
  - intros segs D plan Hp. split.
    + apply (plan_loop_perm _ _ segs) in Hp as (p & ? & ?); [by eauto|].
      apply sort_by_start_perm.
    + intros t. unfold covered. split.
      * intros (a & b & Hab & ?).
        apply (censor_plan_elem _ _ _ Hp) in Hab as (seg & ? & ? & ?).
        by exists seg, a, b.
      * intros (seg & a & b & ? & ? & ?). exists a, b. split; [|done].
        apply (censor_plan_elem _ _ _ Hp). exists seg. repeat split; [done..|lia].
  - by vm_compute.
  - intros t. unfold covered. split.
    + intros (a & b & Hab & ?).
      repeat (apply elem_of_cons in Hab as [[= -> ->]|Hab]; [lia|]).
      by apply elem_of_nil in Hab.
    + intros ?. destruct (decide (t < 2500)).
      * exists 2000, 2500. split; [left|lia].
      * exists 2400, 3000. split; [right; left|lia].
Qed.

Lemma plan_covers_clamped_intervals_witness :
  censor_plan scenario1 20000 = Ok [(2000, 2500); (2400, 3000)] /\
  forall t, covered [(2000, 2500); (2400, 3000)] t <->
    exists seg a b,
      seg ∈ scenario1 /\ clamped_from 20000 seg a b /\ a <= t < b.
Proof.
  split; [by vm_compute|].
  apply (proj1 plan_covers_clamped_intervals scenario1 20000). by vm_compute.
Defined.

(** C7: every interval the loop applies comes from an input interval by the
    floor conversion of its endpoints and the clamping, lies in [0, D], and
    is not empty: an interval of clamped duration zero is never part of the
    plan. *)
Theorem applied_intervals_clamped `{Pydub} segs D plan :
  censor_plan segs D = Ok plan ->
  (forall f audio,
     censor_loop D f (sort_by_start segs) audio 0 =
       Ok (apply_plan f plan audio, Z.of_nat (length plan))) /\
  (forall a b, (a, b) ∈ plan ->
     0 <= a /\ a <= b /\ b <= D /\ a <> b /\
     exists seg, seg ∈ segs /\
       clamp_ms D (floor_ms (fst seg)) (floor_ms (snd seg)) = (a, b)).
Proof.
  intros Hp. split.
  - intros f audio. rewrite censor_loop_plan. unfold censor_plan in Hp.
    by rewrite Hp.
  - intros a b Hab.
    apply (censor_plan_elem _ _ _ Hp) in Hab
      as (seg & Hseg & (sm & em & Hs & He & Hc) & Hlt).
    destruct (clamp_ms_range _ _ _ _ _ Hc Hlt).
    repeat split; [lia..|].
    exists seg. split; [done|].
    by rewrite <-(seconds_to_milliseconds_floor _ _ Hs),
      <-(seconds_to_milliseconds_floor _ _ He).
Qed.

Lemma applied_intervals_clamped_witness :
  censor_plan scenario1 20000 = Ok [(2000, 2500); (2400, 3000)] /\
  forall a b, (a, b) ∈ [(2000, 2500); (2400, 3000)] ->
    0 <= a /\ a <= b /\ b <= 20000 /\ a <> b /\
    exists seg, seg ∈ scenario1 /\
      clamp_ms 20000 (floor_ms (fst seg)) (floor_ms (snd seg)) = (a, b).
Proof.
  split; [by vm_compute|].
  apply (@applied_intervals_clamped demo_pydub scenario1 20000). by vm_compute.
Defined.

(** ** Replanning *)

(** C6, as stated, fails: the interval from 1.0015 s to 2.0 s on five seconds
    of audio is planned as 1001 ms to 2000 ms, and the plan of that plan
    starts at 1000 ms, because 1001 / 1000.0 * 1000 is below 1001. (Entered
    as they are, as if they were seconds, the two numbers of the plan lie
    beyond the audio and the interval is dropped.) *)
Lemma replanning_loses_a_millisecond :
  censor_plan [(1.0015, 2.0)%float] 5000 = Ok [(1001, 2000)] /\
  plan_in_seconds [(1001, 2000)] = [(1.001, 2.0)%float] /\
  replan [(1.0015, 2.0)%float] 5000 = Ok [(1000, 2000)] /\
  replan [(1.0015, 2.0)%float] 5000 <> censor_plan [(1.0015, 2.0)%float] 5000 /\
  censor_plan [(1001, 2000)%float] 5000 = Ok [].
Proof. repeat split; by vm_compute. Qed.

Lemma plan_loop_renders D rendering plan :
  renders rendering plan ->
  Forall (fun ab => 0 <= fst ab /\ fst ab < snd ab /\ snd ab <= D) plan ->
  plan_loop D rendering = Ok plan.
Proof.
  induction 1 as [|[s e] [a b] rendering plan [Hs He] _ IH]; [done|].
  intros [(? & ? & ?) Hr]%Forall_cons.
  rewrite plan_loop_cons. cbn [fst snd] in *. rewrite Hs, He, (IH Hr). cbv zeta.
  rewrite clamp_ms_fixed by lia. cbn [fst snd].
  destruct (b - a <=? 0) eqn:E; [apply Z.leb_le in E; lia|done].
Qed.

Lemma censor_plan_in_range segs D plan :
  censor_plan segs D = Ok plan ->
  Forall (fun ab => 0 <= fst ab /\ fst ab < snd ab /\ snd ab <= D) plan.
Proof.
  intros Hp. apply Forall_forall. intros [a b] Hab. simpl.
  apply (censor_plan_elem _ _ _ Hp) in Hab as (seg & _ & (sm & em & _ & _ & Hc) & Hlt).
  destruct (clamp_ms_range _ _ _ _ _ Hc Hlt). lia.
Qed.

(** C6, amended: planning a plan again gives the same plan whenever the plan
    is entered in seconds that convert back to its milliseconds, in start
    order. *)
Theorem replanning_exact_rendering segs D plan rendering :
  censor_plan segs D = Ok plan ->
  renders rendering plan ->
  in_start_order rendering ->
  censor_plan rendering D = Ok plan.
Proof.
  intros Hp Hr Ho. unfold censor_plan.
  rewrite (sort_by_start_in_order _ Ho).
  apply plan_loop_renders; [done|]. by eapply censor_plan_in_range.
Qed.

Lemma replanning_exact_rendering_witness :
  censor_plan [(2.0, 2.5); (2.4, 3.0)]%float 20000 =
    Ok [(2000, 2500); (2400, 3000)].
Proof.
  apply (replanning_exact_rendering scenario1 20000).
  - by vm_compute.
  - repeat constructor; by vm_compute.
  - repeat split; by vm_compute.
Defined.

(** ** The engine on a buffer *)

(** At the millisecond interface, where all segments are of one format:
    with a readable source, a writable output and endpoints that convert,
    [censor_audio] writes a buffer as long as the source, equal to it at
    every millisecond outside the intervals of the plan. *)
Lemma censor_keeps_duration_and_rest `{P : Pydub} `{!PydubSpec P} `{Os}
    freq (fs : filesystem) src segs out audio :
  fs !! src = Some (WavFile audio) ->
  src <> out ->
  writable fs out ->
  all_convert segs ->
  exists plan censored,
    censor_plan segs (len audio) = Ok plan /\
    censor_audio freq fs src segs out = (<[out := WavFile censored]> fs, Some out) /\
    len censored = len audio /\
    forall i : nat,
      (forall a b, (a, b) ∈ plan -> ~ (a <= Z.of_nat i < b)) ->
      censored !! i = audio !! i.
Proof.
  intros Hsrc Hne Hw Hc.
  destruct (censor_audio_succeeds freq fs src segs out audio) as (plan & Hp & Hr);
    [done..|].
  exists plan, (apply_plan freq plan audio). repeat split; [done..| |].
  - unfold len. by rewrite apply_plan_length.
  - intros i Hi. apply apply_plan_outside; [|done].
    eapply Forall_impl; [by eapply censor_plan_in_range|].
    intros [a b] ?; simpl in *; lia.
Qed.

Lemma demo_segments_convert : all_convert demo_segments.
Proof. repeat constructor; intros s; by vm_compute. Qed.

Lemma censor_keeps_duration_and_rest_witness :
  exists plan (censored : list Z),
    censor_plan demo_segments 10 = Ok plan /\
    @censor_audio demo_pydub demo_os 440 demo_fs "in.wav" demo_segments "out.wav" =
      (<["out.wav"%string := WavFile censored]> demo_fs, Some "out.wav"%string) /\
    @len demo_pydub censored = 10 /\
    forall i : nat,
      (forall a b, (a, b) ∈ plan -> ~ (a <= Z.of_nat i < b)) ->
      censored !! i = demo_audio !! i.
Proof.
  apply (@censor_keeps_duration_and_rest demo_pydub demo_pydub_spec demo_os
           440 demo_fs "in.wav" demo_segments "out.wav" demo_audio).
  - by vm_compute.
  - done.
  - split; by vm_compute.
  - exact demo_segments_convert.
Defined.

(** C5: with no interval to censor, [censor_audio] copies the source file to
    the output path and returns that path. *)
Theorem censor_nothing_copies `{Pydub} `{Os} freq (fs : filesystem) src out f :
  fs !! src = Some f ->
  f <> Directory ->
  src <> out ->
  writable fs out ->
  censor_audio freq fs src [] out = (<[out := f]> fs, Some out).
Proof.
  intros Hsrc Hf Hne Hw. unfold censor_audio, copyfile.
  rewrite bool_decide_eq_false_2 by done. rewrite Hsrc.
  rewrite (write_file_writable _ _ _ Hw). by destruct f.
Qed.

Lemma censor_nothing_copies_witness :
  @censor_audio demo_pydub demo_os 440 demo_fs "in.wav" [] "out.wav" =
    (<["out.wav"%string := WavFile demo_audio]> demo_fs, Some "out.wav"%string).
Proof.
  apply (@censor_nothing_copies demo_pydub demo_os); [by vm_compute|done|done|].
  split; by vm_compute.
Defined.

(** C8: the segment generated for an interval of positive duration lasts
    that duration, and is silence when the tone cannot be generated; with a
    tone generator that always fails, censoring still succeeds and writes a
    buffer as long as the source. *)
Theorem tone_failure_gives_silence `{P : Pydub} `{!PydubSpec P} `{Os} :
  (forall d f, 0 < d -> len (generate_beep d f) = d) /\
  (forall d f, 0 < d -> sine f d (-12) = None ->
     generate_beep d f = silent d) /\
  (forall freq (fs : filesystem) src segs out audio,
     (forall f d v, sine f d v = None) ->
     fs !! src = Some (WavFile audio) ->
     src <> out ->
     writable fs out ->
     all_convert segs ->
     exists censored,
       censor_audio freq fs src segs out =
         (<[out := WavFile censored]> fs, Some out) /\
       len censored = len audio).
Proof.
  split; [|split].
  - intros d f Hd. by apply generate_beep_len.
  - intros d f Hd Hs. by apply generate_beep_fallback.
  - intros freq fs src segs out audio _ Hsrc Hne Hw Hc.
    destruct (censor_audio_succeeds freq fs src segs out audio) as (plan & Hp & Hr);
      [done..|].
    exists (apply_plan freq plan audio). split; [done|].
    unfold len. by rewrite apply_plan_length.
Qed.

Lemma tone_failure_gives_silence_witness :
  @generate_beep mute_pydub 3 440 = [0; 0; 0] /\
  exists censored : list Z,
    @censor_audio mute_pydub demo_os 440 demo_fs "in.wav" demo_segments "out.wav" =
      (<["out.wav"%string := WavFile censored]> demo_fs,
       Some "out.wav"%string) /\
    @len mute_pydub censored = 10.
Proof.
  pose proof (@tone_failure_gives_silence mute_pydub mute_pydub_spec demo_os)
    as (_ & Hsilent & Hcensor).
  split.
  - by rewrite (Hsilent 3 440).
  - apply (Hcensor 440 demo_fs "in.wav"%string demo_segments "out.wav"%string
             demo_audio).
    + done.
    + by vm_compute.
    + done.
    + split; by vm_compute.
    + exact demo_segments_convert.
Defined.

(** ** The engine on sampled segments *)

Section SampledFacts.
Import pydub.
Context `{Generators}.











End SampledFacts.

Section SampledClaims.
Import pydub.
Context `{Generators}.





End SampledClaims.




(** ** The events of a run *)

Section WorkflowFacts.
Context `{Pydub} `{Os} `{!Environment}.

Lemma extends_quietly_refl st : extends_quietly st st.
Proof. exists []. by rewrite app_nil_r. Qed.

Lemma extends_quietly_same st st' :
  events st' = events st -> extends_quietly st st'.
Proof. intros E. exists []. by rewrite app_nil_r. Qed.

Lemma extends_quietly_trans st1 st2 st3 :
  extends_quietly st1 st2 -> extends_quietly st2 st3 -> extends_quietly st1 st3.
Proof.
  intros (evs1 & E1 & F1) (evs2 & E2 & F2). exists (evs1 ++ evs2).
  split; [by rewrite E2, E1, app_assoc|by apply Forall_app].
Qed.

Lemma extends_quietly_emit st e :
  not_completion e -> extends_quietly st (emit e st).
Proof. intros He. exists [e]. split; [done|by constructor]. Qed.

Lemma nc_ret {A} (a : A) : never_completes (mret a).
Proof. intros st. apply extends_quietly_refl. Qed.

Lemma nc_bind {A B} (m : M A) (f : A -> M B) :
  never_completes m -> (forall a, never_completes (f a)) -> never_completes (m ≫= f).
Proof.
  intros Hm Hf st. specialize (Hm st). unfold mbind, M_bind.
  destruct (m st) as [[a| |e] st']; simpl in *; [|done..].
  eapply extends_quietly_trans; [done|apply Hf].
Qed.

Lemma nc_modify (f : state -> state) :
  (forall st, extends_quietly st (f st)) -> never_completes (modify f).
Proof. intros Hf st. apply Hf. Qed.

Lemma nc_early_return {A} : never_completes (@early_return _ A).
Proof. intros st. apply extends_quietly_refl. Qed.

Lemma nc_raise {A} e : never_completes (@raise _ A e).
Proof. intros st. apply extends_quietly_refl. Qed.

Lemma nc_get : never_completes get.
Proof. intros st. apply extends_quietly_refl. Qed.

Lemma nc_is_set : never_completes is_set.
Proof. intros st. by apply extends_quietly_same. Qed.

Lemma nc_update_status message : never_completes (update_status message).
Proof.
  apply nc_modify. intros st. destruct has_status_callback;
    [by apply extends_quietly_emit|apply extends_quietly_refl].
Qed.

Lemma nc_update_progress value : never_completes (update_progress value).
Proof.
  apply nc_modify. intros st. destruct has_progress_callback;
    [by apply extends_quietly_emit|apply extends_quietly_refl].
Qed.

Lemma nc_at_site {A} s (m : M A) : never_completes m -> never_completes (at_site s m).
Proof. intros Hm. unfold at_site. destruct (fault s); [apply nc_raise|done]. Qed.

Lemma nc_if {A} (b : bool) (m1 m2 : M A) :
  never_completes m1 -> never_completes m2 -> never_completes (if b then m1 else m2).
Proof. by destruct b. Qed.

(** One step of a proof that a computation never completes. *)
Ltac nc_step :=
  first
    [ apply nc_bind; [|intros ?]
    | apply nc_ret
    | apply nc_update_status
    | apply nc_update_progress
    | apply nc_is_set
    | apply nc_get
    | apply nc_early_return
    | apply nc_raise
    | apply nc_at_site
    | apply nc_if
    | (apply nc_modify; intros ?; by apply extends_quietly_same) ].

Lemma nc_check_stop_or_error {A} (truthy : A -> bool) result message check_none :
  never_completes (check_stop_or_error truthy result message check_none).
Proof. unfold check_stop_or_error. repeat nc_step. Qed.

Lemma nc_checked {A} (truthy : A -> bool) result message check_none :
  never_completes (checked truthy result message check_none).
Proof.
  unfold checked. apply nc_bind; [apply nc_check_stop_or_error|].
  intros stop. destruct stop, result; repeat nc_step.
Qed.

Lemma nc_call_extract_audio video_path : never_completes (call_extract_audio video_path).
Proof.
  intros st. unfold call_extract_audio.
  destruct (extract_audio _ _ _) as [[r fs'] n]. by apply extends_quietly_same.
Qed.

Lemma nc_call_transcribe_audio audio_path :
  never_completes (call_transcribe_audio audio_path).
Proof.
  unfold call_transcribe_audio. destruct (transcribe_audio _) as [r said].
  induction said as [|message said IH]; simpl; repeat nc_step. done.
Qed.

Lemma nc_call_get_temp_filepath suffix : never_completes (call_get_temp_filepath suffix).
Proof.
  intros st. unfold call_get_temp_filepath.
  destruct (get_temp_filepath _ _) as [r n]. by apply extends_quietly_same.
Qed.

Lemma nc_call_censor_audio src segs out : never_completes (call_censor_audio src segs out).
Proof.
  intros st. unfold call_censor_audio.
  destruct (censor_audio _ _ _ _ _) as [fs' r]. by apply extends_quietly_same.
Qed.

Lemma nc_call_reassemble_video video audio out :
  never_completes (call_reassemble_video video audio out).
Proof.
  intros st. unfold call_reassemble_video.
  destruct (reassemble_video _ _ _ _) as [ok fs']. by apply extends_quietly_same.
Qed.

Lemma nc_classify_loop num_words i word_timestamps segments_to_censor :
  never_completes (classify_loop num_words i word_timestamps segments_to_censor).
Proof.
  revert i segments_to_censor.
  induction word_timestamps as [|item items IH]; intros i segs; simpl.
  - apply nc_ret.
  - apply nc_bind; [apply nc_is_set|]. intros stop.
    destruct stop; [apply nc_early_return|].
    apply nc_bind; [repeat nc_step|]. intros segs'.
    apply nc_bind; [repeat nc_step|]. intros _. apply IH.
Qed.

Lemma nc_run_try video_path output_dir : never_completes (run_try video_path output_dir).
Proof.
  unfold run_try.
  repeat first
    [ apply nc_checked
    | apply nc_call_extract_audio
    | apply nc_call_transcribe_audio
    | apply nc_call_get_temp_filepath
    | apply nc_call_censor_audio
    | apply nc_call_reassemble_video
    | apply nc_classify_loop
    | nc_step ].
Qed.

Lemma run_before_finally_quiet video_path output_dir st :
  extends_quietly st (run_before_finally video_path output_dir st).
Proof.
  unfold run_before_finally. pose proof (nc_run_try video_path output_dir st) as Hq.
  destruct (run_try _ _ st) as [[[]| |e] st']; simpl in Hq; [done..|].
  eapply extends_quietly_trans; [done|].
  unfold run_except. apply (nc_bind _ (fun _ => modify (set_success false))).
  - apply nc_update_status.
  - intros _. apply nc_modify. intros ?. by apply extends_quietly_same.
Qed.

(** The [finally] clause ends with the completion notification, after at
    most one status message. *)
Lemma run_finally_events st :
  exists evs s p,
    events (run_finally st) = events st ++ evs ++ [Completion s p] /\
    Forall not_completion evs.
Proof.
  unfold run_finally, is_set. cbn [fst snd tick_read set_fs reads fs events].
  destruct (stop_requested_at (reads st)).
  - unfold update_status, modify. cbn.
    destruct has_status_callback; cbn.
    + exists [Status "Processing stopped."], false, None.
      split; [by rewrite <-app_assoc|]. by repeat constructor.
    + by exists [], false, None.
  - cbn. by exists [], (success st), (final_output_path st).
Qed.

(** C3: whatever happens in the [try] block, the events of a run are events
    other than the completion notification followed by exactly one
    completion notification. *)
Theorem completion_once_and_last video_path output_dir st :
  exists evs s p,
    events (run video_path output_dir st) = events st ++ evs ++ [Completion s p] /\
    Forall not_completion evs.
Proof.
  unfold run.
  destruct (run_before_finally_quiet video_path output_dir st) as (evs1 & E1 & F1).
  destruct (run_finally_events (run_before_finally video_path output_dir st))
    as (evs2 & s & p & E2 & F2).
  exists (evs1 ++ evs2), s, p. split; [|by apply Forall_app].
  by rewrite E2, E1, <-!app_assoc.
Qed.

End WorkflowFacts.

(** ** Files across the collaborators *)

Section FileFacts.
Context `{Pydub} `{Os} `{!Environment}.

Lemma exists_insert (fs : filesystem) p q f :
  exists_ (<[p := f]> fs) q = true <-> p = q \/ exists_ fs q = true.
Proof.
  unfold exists_. rewrite !bool_decide_eq_true.
  destruct (decide (p = q)) as [->|Hne].
  - rewrite lookup_insert_eq. split; [by left|by eauto].
  - rewrite lookup_insert_ne by done. split; [by right|by intros [?|?]].
Qed.

Lemma write_file_ok (fs fs' : filesystem) p f :
  write_file fs p f = Ok fs' -> fs' = <[p := f]> fs.
Proof. unfold write_file. destruct (write_refused p), (isdir fs p); congruence. Qed.

Lemma remove_partial_other (fs : filesystem) p q :
  p <> q -> remove_partial fs p !! q = fs !! q.
Proof.
  intros Hne. unfold remove_partial, remove.
  destruct (exists_ fs p); [|done].
  destruct (fs !! p) as [[]|]; try done; destruct (remove_refused p); try done;
    by rewrite lookup_delete_ne.
Qed.

Lemma path_join_nonempty a b : b <> ""%string -> path_join a b <> ""%string.
Proof.
  intros Hb. unfold path_join. destruct (String.prefix _ b); [done|].
  destruct (_ || _); destruct a; done.
Qed.

Lemma get_temp_filepath_some n suffix p n' :
  get_temp_filepath n suffix = (Some p, n') -> p <> ""%string.
Proof.
  unfold get_temp_filepath. destruct temp_dir_path; [|done].
  intros [= <- _]. by apply path_join_nonempty.
Qed.

(** The path [extract_audio] returns is the path of an existing file. *)
Lemma extract_audio_some (fs fs' : filesystem) n video_path p n' :
  extract_audio fs n video_path = (Some p, fs', n') ->
  p <> ""%string /\ exists_ fs' p = true.
Proof.
  unfold extract_audio.
  destruct (get_temp_filepath _ _) as [[q|] m]; [|done].
  case_bool_decide as Hq; [done|].
  unfold extract_audio_try.
  destruct (video_clip_audio video_path) as [| |[junk|]|audio|]; try done.
  - destruct (write_file _ _ _); done.
  - destruct (write_file _ _ _) as [fs1|] eqn:E; [|done].
    destruct (exists_ fs1 q) eqn:Ex; [|done]. by intros [= <- <- _].
  - destruct (exists_ fs q) eqn:Ex; [|done]. by intros [= <- <- _].
Qed.

(** [censor_audio] returns the output path, which then exists, or leaves
    the files as they are; it removes nothing. *)
Lemma censor_audio_some freq (fs fs' : filesystem) src segs out p :
  censor_audio freq fs src segs out = (fs', Some p) ->
  p = out /\ exists_ fs' out = true /\
  forall q, exists_ fs q = true -> exists_ fs' q = true.
Proof.
  assert (forall f, copyfile fs src out = Ok f ->
            exists g, f = <[out := g]> fs) as Hcopy.
  { intros f. unfold copyfile. case_bool_decide; [done|].
    destruct (fs !! src) as [[]|]; try done;
      intros ->%write_file_ok; eauto. }
  assert (forall g, exists_ (<[out := g]> fs) out = true /\
            forall q, exists_ fs q = true -> exists_ (<[out := g]> fs) q = true)
    as Hins.
  { intros g. split; [apply exists_insert; by left|].
    intros q ?. apply exists_insert. by right. }
  unfold censor_audio. destruct segs as [|seg segs].
  - destruct (copyfile fs src out) as [f|] eqn:E; [|done].
    intros [= <- <-]. destruct (Hcopy _ eq_refl) as [g ->]. split; [done|apply Hins].
  - destruct (from_wav fs src) as [audio|]; [|done]. cbn [mbind result_bind].
    destruct (censor_loop _ _ _ _ _) as [[final count]|]; [|done].
    cbn [mbind result_bind]. destruct (0 <? count).
    + unfold export. destruct (write_file _ _ _) as [f|] eqn:E; [|done].
      intros [= <- <-]. apply write_file_ok in E as ->. split; [done|apply Hins].
    + destruct (copyfile fs src out) as [f|] eqn:E; [|done].
      intros [= <- <-]. destruct (Hcopy _ eq_refl) as [g ->]. split; [done|apply Hins].
Qed.

(** [reassemble_video] touches the output path only, and when it returns
    [True] the output exists. *)
Lemma reassemble_video_other (fs : filesystem) video audio out q :
  out <> q -> snd (reassemble_video fs video audio out) !! q = fs !! q.
Proof.
  intros Hne. unfold reassemble_video.
  destruct (negb (isfile fs video)); [done|].
  destruct (negb (isfile fs audio)); [done|].
  unfold reassemble_video_try.
  destruct (video_mux _ _ _) as [| |[junk|]|content|]; cbn [snd]; try done;
    try (by apply remove_partial_other).
  - destruct (write_file _ _ _) as [fs1|] eqn:E; cbn [snd];
      rewrite remove_partial_other by done; [|done].
    apply write_file_ok in E as ->. by rewrite lookup_insert_ne.
  - destruct (write_file _ _ _) as [fs1|] eqn:E; cbn [snd].
    + apply write_file_ok in E as ->. by rewrite lookup_insert_ne.
    + by apply remove_partial_other.
Qed.

Lemma reassemble_video_true (fs : filesystem) video audio out :
  fst (reassemble_video fs video audio out) = true ->
  exists_ (snd (reassemble_video fs video audio out)) out = true.
Proof.
  unfold reassemble_video.
  destruct (negb (isfile fs video)); [done|].
  destruct (negb (isfile fs audio)); [done|].
  unfold reassemble_video_try.
  destruct (video_mux _ _ _) as [| |[junk|]|content|]; cbn [fst snd]; try done.
  - by destruct (write_file _ _ _).
  - by destruct (write_file _ _ _).
Qed.

(** ** cleanup_temp_files *)

Lemma cleanup_one_other (fs : filesystem) arg q :
  arg <> Some q -> cleanup_one fs arg !! q = fs !! q.
Proof.
  intros Hne. unfold cleanup_one. destruct arg as [p|]; [|done].
  case_bool_decide; [done|]. destruct (isfile fs p); [|done].
  unfold remove. destruct (fs !! p) as [[]|]; try done;
    destruct (remove_refused p); try done; rewrite lookup_delete_ne; congruence.
Qed.

Lemma cleanup_one_absent (fs : filesystem) arg q :
  fs !! q = None -> cleanup_one fs arg !! q = None.
Proof.
  intros Hq. unfold cleanup_one. destruct arg as [p|]; [|done].
  case_bool_decide; [done|]. destruct (isfile fs p); [|done].
  unfold remove. destruct (fs !! p) as [[]|]; try done;
    destruct (remove_refused p); try done.
  all: destruct (decide (p = q)) as [->|];
    [apply lookup_delete_eq|by rewrite lookup_delete_ne].
Qed.

Lemma cleanup_one_removes (fs : filesystem) p :
  p <> ""%string -> isfile fs p = true -> remove_refused p = false ->
  cleanup_one fs (Some p) !! p = None.
Proof.
  intros Hp Hf Hl. unfold cleanup_one. rewrite bool_decide_eq_false_2 by done.
  rewrite Hf. unfold remove, isfile in *.
  destruct (fs !! p) as [[]|]; try done; rewrite Hl; apply lookup_delete_eq.
Qed.

Lemma cleanup_one_isfile (fs : filesystem) arg q :
  arg <> Some q -> isfile (cleanup_one fs arg) q = isfile fs q.
Proof. intros Hne. unfold isfile. by rewrite cleanup_one_other. Qed.

(** A file the system lets go is gone after the cleanup of its path. *)
Lemma cleanup_temp_files_removes (fs : filesystem) original censored p :
  original = Some p \/ censored = Some p ->
  p <> ""%string -> isfile fs p = true -> remove_refused p = false ->
  cleanup_temp_files fs [original; censored] !! p = None.
Proof.
  intros Hp Hne Hf Hl. cbn [cleanup_temp_files foldl].
  destruct (decide (original = Some p)) as [->|Ho].
  - apply cleanup_one_absent. by apply cleanup_one_removes.
  - destruct Hp as [?| ->]; [done|]. apply cleanup_one_removes; [done| |done].
    by rewrite cleanup_one_isfile.
Qed.

(** Paths other than the two given are left alone. *)
Lemma cleanup_temp_files_other (fs : filesystem) original censored q :
  original <> Some q -> censored <> Some q ->
  cleanup_temp_files fs [original; censored] !! q = fs !! q.
Proof.
  intros Ho Hc. cbn [cleanup_temp_files foldl].
  by rewrite !cleanup_one_other.
Qed.

End FileFacts.

(** ** The output name *)

Lemma string_length_app (s t : string) :
  String.length (s +:+ t) = (String.length s + String.length t)%nat.
Proof. induction s as [|c s IH]; simpl; [done|]. by rewrite IH. Qed.

Lemma string_app_inj_r (s1 s2 t : string) : s1 +:+ t = s2 +:+ t -> s1 = s2.
Proof.
  revert s2. induction s1 as [|c s1 IH]; intros [|c' s2] E.
  - done.
  - apply (f_equal String.length) in E.
    rewrite !string_length_app in E. simpl in E. lia.
  - apply (f_equal String.length) in E.
    rewrite !string_length_app in E. simpl in E. lia.
  - simpl in E. injection E as -> E. f_equal. by apply IH.
Qed.

Lemma prefix_sep_app (b s1 s2 : string) c :
  String.prefix "/" (b +:+ String c s1) = String.prefix "/" (b +:+ String c s2).
Proof.
  destruct b as [|c' b].
  - change (String.prefix "/" (String c s1) = String.prefix "/" (String c s2)).
    cbn [String.prefix]. by destruct (ascii_dec _ c), s1, s2.
  - change (String.prefix "/" (String c' (b +:+ String c s1)) =
            String.prefix "/" (String c' (b +:+ String c s2))).
    cbn [String.prefix]. by destruct (ascii_dec _ c'), b.
Qed.

Lemma prefix_sep_app_lit (b t s1 s2 : string) c :
  String.prefix "/" (b +:+ String c t +:+ s1) =
  String.prefix "/" (b +:+ String c t +:+ s2).
Proof. apply (prefix_sep_app b (t +:+ s1) (t +:+ s2) c). Qed.

Section OutputName.
Context `{Pydub} `{Os} `{!Environment}.

Lemma output_name_inj output_dir base_name :
  Inj (=) (=) (output_name output_dir base_name).
Proof.
  intros j k. unfold output_name, path_join.
  rewrite (prefix_sep_app_lit base_name _ _ (pretty k +:+ ".mp4")).
  intros E.
  assert (base_name +:+ "_censored_" +:+ pretty j +:+ ".mp4" =
          base_name +:+ "_censored_" +:+ pretty k +:+ ".mp4") as E'.
  { destruct (String.prefix _ _); [done|].
    destruct (_ || _); [by apply String.app_inj in E|].
    by do 2 apply String.app_inj in E. }
  do 2 apply String.app_inj in E'.
  apply string_app_inj_r in E'. by apply (inj pretty).
Qed.

Lemma next_free_path_taken (fs : filesystem) output_dir base_name fuel counter path :
  exists_ fs (next_free_path fs output_dir base_name fuel counter path) = true ->
  forall k, (counter <= k < counter + fuel)%nat ->
    exists_ fs (output_name output_dir base_name k) = true.
Proof.
  revert counter path. induction fuel as [|fuel IH]; intros counter path;
    cbn [next_free_path].
  - intros _ k ?. lia.
  - destruct (exists_ fs path) eqn:Ep; [|congruence].
    intros Hr k Hk. destruct (decide (k = counter)) as [->|].
    + clear Hk. revert Hr. clear.
      destruct fuel as [|fuel]; cbn [next_free_path]; [done|].
      destruct (exists_ fs (output_name _ _ counter)) eqn:E; [done|congruence].
    + apply (IH _ _ Hr). lia.
Qed.

(** The loop that looks for a free output name finds one: there are more
    names than files. *)
Lemma unique_output_path_free (fs : filesystem) output_dir base_name :
  fs !! unique_output_path fs output_dir base_name = None.
Proof.
  destruct (exists_ fs (unique_output_path fs output_dir base_name)) eqn:E.
  - exfalso. unfold unique_output_path in E.
    pose proof (next_free_path_taken _ _ _ _ _ _ E) as Hall.
    set (names := output_name output_dir base_name <$> seq 1 (S (size fs))).
    assert (NoDup names) as Hnd.
    { apply NoDup_fmap_2; [apply output_name_inj|apply NoDup_seq]. }
    assert (list_to_set names ⊆ dom fs) as Hsub.
    { intros p [k [-> Hk%elem_of_seq]]%elem_of_list_to_set%list_elem_of_fmap.
      apply elem_of_dom. specialize (Hall k Hk).
      unfold exists_ in Hall. by apply bool_decide_eq_true in Hall. }
    apply subseteq_size in Hsub.
    rewrite size_list_to_set, size_dom in Hsub by done.
    unfold names in Hsub. rewrite length_fmap, length_seq in Hsub. lia.
  - unfold exists_ in E. apply bool_decide_eq_false in E.
    by apply eq_None_not_Some.
Qed.

End OutputName.

(** ** Reasoning along the [try] block *)

Section Wp.
Context `{Pydub} `{Os} `{!Environment}.

Lemma wp_bind {A B} (m : M A) (f : A -> M B) Q R st :
  wp m (fun a st' => wp (f a) Q R st') R st -> wp (m ≫= f) Q R st.
Proof.
  unfold wp, mbind, M_bind. by destruct (m st) as [[a| |e] st'].
Qed.

Lemma wp_ret {A} (a : A) Q R st : Q a st -> wp (mret a) Q R st.
Proof. done. Qed.

Lemma wp_modify f (Q : unit -> state -> Prop) R st :
  Q () (f st) -> wp (modify f) Q R st.
Proof. done. Qed.

Lemma wp_get (Q : state -> state -> Prop) R st : Q st st -> wp get Q R st.
Proof. done. Qed.

Lemma wp_early_return {A} (Q : A -> state -> Prop) R st :
  R st -> wp early_return Q R st.
Proof. done. Qed.

Lemma wp_is_set (Q : bool -> state -> Prop) R st :
  Q (stop_requested_at (reads st)) (tick_read st) -> wp is_set Q R st.
Proof. done. Qed.

Lemma wp_at_site {A} s (m : M A) Q R st :
  (fault s = true -> R st) -> (fault s = false -> wp m Q R st) ->
  wp (at_site s m) Q R st.
Proof.
  unfold at_site. destruct (fault s); [intros HR _|intros _ Hm].
  - by apply HR.
  - by apply Hm.
Qed.

Lemma wp_if {A} (b : bool) (m1 m2 : M A) Q R st :
  (b = true -> wp m1 Q R st) -> (b = false -> wp m2 Q R st) ->
  wp (if b then m1 else m2) Q R st.
Proof. destruct b; auto. Qed.

Lemma same_data_refl st : same_data st st.
Proof. done. Qed.

Lemma same_data_trans st1 st2 st3 :
  same_data st1 st2 -> same_data st2 st3 -> same_data st1 st3.
Proof. unfold same_data. intros (?&?&?&?&?&?) (?&?&?&?&?&?). repeat split; congruence. Qed.

Lemma reports_wp {A} (m : M A) Q R st :
  reports m ->
  (forall a st', same_data st st' -> fst (m st) = Normal a -> Q a st') ->
  (forall st', same_data st st' -> R st') ->
  wp m Q R st.
Proof.
  intros Hm HQ HR. specialize (Hm st). unfold wp.
  destruct (m st) as [[a| |e] st']; simpl in *; auto.
Qed.

Lemma reports_ret {A} (a : A) : reports (mret a).
Proof. intros st. apply same_data_refl. Qed.

Lemma reports_bind {A B} (m : M A) (f : A -> M B) :
  reports m -> (forall a, reports (f a)) -> reports (m ≫= f).
Proof.
  intros Hm Hf st. specialize (Hm st). unfold mbind, M_bind.
  destruct (m st) as [[a| |e] st']; simpl in *; [|done..].
  eapply same_data_trans; [done|apply Hf].
Qed.

Lemma reports_update_status message : reports (update_status message).
Proof. intros st. unfold update_status, modify. simpl. by destruct has_status_callback. Qed.

Lemma reports_update_progress value : reports (update_progress value).
Proof. intros st. unfold update_progress, modify. simpl. by destruct has_progress_callback. Qed.

Lemma reports_is_set : reports is_set.
Proof. done. Qed.

Lemma reports_early_return {A} : reports (@early_return _ A).
Proof. done. Qed.

Lemma reports_raise {A} e : reports (@raise _ A e).
Proof. done. Qed.

Lemma reports_at_site {A} s (m : M A) : reports m -> reports (at_site s m).
Proof. intros Hm. unfold at_site. by destruct (fault s). Qed.

Lemma reports_if {A} (b : bool) (m1 m2 : M A) :
  reports m1 -> reports m2 -> reports (if b then m1 else m2).
Proof. by destruct b. Qed.

Ltac reports_step :=
  first
    [ apply reports_bind; [|intros ?]
    | apply reports_ret
    | apply reports_update_status
    | apply reports_update_progress
    | apply reports_is_set
    | apply reports_early_return
    | apply reports_raise
    | apply reports_at_site
    | apply reports_if ].

Lemma reports_check_stop_or_error {A} (truthy : A -> bool) r message check_none :
  reports (check_stop_or_error truthy r message check_none).
Proof. unfold check_stop_or_error. repeat reports_step. Qed.

Lemma reports_checked {A} (truthy : A -> bool) r message check_none :
  reports (checked truthy r message check_none).
Proof.
  unfold checked. apply reports_bind; [apply reports_check_stop_or_error|].
  intros stop. destruct stop, r; repeat reports_step.
Qed.

Lemma reports_call_transcribe_audio audio_path :
  reports (call_transcribe_audio audio_path).
Proof.
  unfold call_transcribe_audio. destruct (transcribe_audio _) as [r said].
  induction said as [|message said IH]; simpl; repeat reports_step. done.
Qed.

Lemma reports_classify_loop num_words i word_timestamps segments_to_censor :
  reports (classify_loop num_words i word_timestamps segments_to_censor).
Proof.
  revert i segments_to_censor.
  induction word_timestamps as [|item items IH]; intros i segs; simpl.
  - apply reports_ret.
  - apply reports_bind; [apply reports_is_set|]. intros stop.
    destruct stop; [apply reports_early_return|].
    apply reports_bind; [repeat reports_step|]. intros segs'.
    apply reports_bind; [repeat reports_step|]. intros _. apply IH.
Qed.

(** When [checked] lets the run go on, the result is there and counts as
    true. *)
Lemma checked_normal {A} (truthy : A -> bool) r message check_none st a :
  fst (checked truthy r message check_none st) = Normal a ->
  r = Some a /\ (check_none = false -> truthy a = true) /\
  stop_requested_at (reads st) = false.
Proof.
  unfold checked, check_stop_or_error, is_set, update_status, modify,
    early_return, mbind, M_bind, mret, M_ret. cbn.
  destruct (stop_requested_at (reads st)); cbn; [done|].
  destruct r as [a'|]; cbn; [|done].
  destruct check_none; cbn; [by intros [= ->]|].
  destruct (truthy a') eqn:E; cbn; [|done]. by intros [= ->].
Qed.

End Wp.

(** ** The paths the run records *)

Section RunFacts.
Context `{Pydub} `{Os} `{!Environment}.

Lemma same_data_relog st st' :
  same_data st st' -> st' = relog st (events st') (reads st').
Proof.
  destruct st'. unfold same_data, relog. simpl.
  by intros (-> & -> & -> & -> & -> & ->).
Qed.

Ltac solve_reports :=
  solve [repeat first
    [ apply reports_checked | apply reports_call_transcribe_audio
    | apply reports_classify_loop
    | apply reports_bind; [|intros ?]
    | apply reports_ret
    | apply reports_update_status
    | apply reports_update_progress
    | apply reports_is_set
    | apply reports_early_return
    | apply reports_raise
    | apply reports_at_site
    | apply reports_if ]].

Ltac relog_in Hsd st' :=
  apply same_data_relog in Hsd; rewrite Hsd; clear Hsd;
  generalize (events st') (reads st'); clear st'; intros ?evs ?k.

(** A step that only reports: the run goes on with the value [v], or
    leaves; in both cases only the history has changed. *)
Tactic Notation "wp_report" "as" ident(v) ident(Hres) :=
  apply wp_bind; apply reports_wp;
  [ solve_reports
  | let st' := fresh "st" in let Hsd := fresh "Hsd" in
    intros v st' Hsd Hres; relog_in Hsd st'
  | let st' := fresh "st" in let Hsd := fresh "Hsd" in
    intros st' Hsd; relog_in Hsd st' ].

Tactic Notation "wp_report" :=
  let v := fresh "v" in let Hres := fresh "Hres" in
  wp_report as v Hres; [clear Hres|].

Lemma temps_apart_no_final st :
  final_output_path st = None ->
  (forall p, temp_audio_original st = Some p -> p <> ""%string) ->
  (forall p, temp_audio_censored st = Some p -> p <> ""%string) ->
  temps_apart st.
Proof. intros Hf Ho Hc. repeat split; try done; rewrite Hf in *; done. Qed.

(** However the [try] block ends, the output path it has chosen, if any, is
    neither of the temporary paths it has recorded: these exist when the
    free output name is looked for. *)
Lemma run_try_temps_apart video_path output_dir fs0 :
  wp (run_try video_path output_dir) (fun _ st => temps_apart st) temps_apart
    (initial_state fs0).
Proof.
  assert (forall evs k, temps_apart (relog (initial_state fs0) evs k)) as Hinit.
  { intros evs k. by repeat split. }
  unfold run_try. apply wp_bind, wp_get.
  apply wp_if; intros _.
  { wp_report; [apply wp_early_return|]; apply Hinit. }
  apply wp_if; intros _.
  { wp_report; [apply wp_early_return|]; apply Hinit. }
  (* Step 1 *)
  do 2 (wp_report; [|apply Hinit]).
  apply wp_bind, wp_at_site; intros _; [apply Hinit|].
  unfold wp at 1, call_extract_audio. cbn [fs uuids relog initial_state].
  destruct (extract_audio fs0 0 video_path) as [[extracted fs1] n1] eqn:Ex.
  apply wp_bind, wp_modify.
  assert (forall p, extracted = Some p -> p <> ""%string /\ exists_ fs1 p = true)
    as Hex by (intros p ->; by eapply extract_audio_some).
  clear Ex.
  assert (forall st, final_output_path st = None ->
            temp_audio_original st = extracted ->
            temp_audio_censored st = None -> temps_apart st) as Hexit1.
  { intros st Hf Ho Hc. apply temps_apart_no_final; [done| |by rewrite Hc].
    rewrite Ho. intros p Hp. by apply Hex. }
  wp_report as original Horiginal; [|by apply Hexit1].
  apply checked_normal in Horiginal as (-> & _ & _).
  destruct (Hex _ eq_refl) as [Hpo Hpo_ex]. clear Hex.
  (* Steps 2 and 3 *)
  do 3 (wp_report; [|by apply Hexit1]).
  wp_report as word_timestamps Hwords; [clear Hwords|by apply Hexit1].
  do 2 (wp_report; [|by apply Hexit1]).
  wp_report as segments_to_censor Hsegs; [clear Hsegs|by apply Hexit1].
  do 2 (wp_report; [|by apply Hexit1]).
  wp_report as stop Hstop; [clear Hstop|by apply Hexit1].
  apply wp_if; intros _; [apply wp_early_return; by apply Hexit1|].
  (* Step 4 *)
  wp_report; [|by apply Hexit1].
  apply wp_bind, wp_at_site; intros _; [by apply Hexit1|].
  unfold wp at 1, call_get_temp_filepath.
  cbn [fs uuids relog set_uuids set_fs set_temp_audio_original initial_state].
  destruct (get_temp_filepath n1 "audio_censored.wav") as [allocated n2] eqn:Et.
  apply wp_bind, wp_modify.
  assert (forall p, allocated = Some p -> p <> ""%string)
    as Hal by (intros p ->; by eapply get_temp_filepath_some).
  clear Et.
  assert (forall st, final_output_path st = None ->
            temp_audio_original st = Some original ->
            temp_audio_censored st = allocated -> temps_apart st) as Hexit2.
  { intros st Hf Ho Hc. apply temps_apart_no_final; [done|..].
    - rewrite Ho. by intros p [= <-].
    - rewrite Hc. apply Hal. }
  clear Hexit1.
  wp_report as censored Hcensored; [|by apply Hexit2].
  apply checked_normal in Hcensored as (-> & _ & _).
  specialize (Hal _ eq_refl).
  apply wp_bind, wp_at_site; intros _; [by apply Hexit2|].
  unfold wp at 1, call_censor_audio.
  cbn [fs uuids relog set_uuids set_fs set_temp_audio_original
       set_temp_audio_censored initial_state].
  destruct (censor_audio beep_frequency_hz fs1 original segments_to_censor censored)
    as [fs2 censored_path] eqn:Ec.
  wp_report as returned Hreturned; [|by apply Hexit2].
  apply checked_normal in Hreturned as (-> & _ & _).
  apply censor_audio_some in Ec as (_ & Hpc_ex & Hkeep).
  apply Hkeep in Hpo_ex. clear Hkeep.
  (* Step 5 *)
  do 2 (wp_report; [|by apply Hexit2]).
  apply wp_bind, wp_get. cbn [fs relog set_fs].
  apply wp_bind, wp_modify.
  set (final := unique_output_path fs2 output_dir (stem video_path)).
  assert (forall st, final_output_path st = Some final ->
            temp_audio_original st = Some original ->
            temp_audio_censored st = Some censored -> temps_apart st) as Hexit3.
  { pose proof (unique_output_path_free fs2 output_dir (stem video_path)) as Hfree.
    fold final in Hfree.
    assert (forall q, exists_ fs2 q = true -> q <> final) as Hne.
    { intros q Hq ->. unfold exists_ in Hq. rewrite Hfree in Hq.
      apply bool_decide_eq_true in Hq. by destruct Hq. }
    intros st Hf Ho Hc. split; [|split].
    - intros p Hp. rewrite Hf in Hp. injection Hp as <-. rewrite Ho, Hc.
      split; intros [= E]; [by apply (Hne _ Hpo_ex)|by apply (Hne _ Hpc_ex)].
    - rewrite Ho. by intros p [= <-].
    - rewrite Hc. by intros p [= <-]. }
  clear Hexit2.
  apply wp_bind, wp_at_site; intros _; [by apply Hexit3|].
  unfold wp at 1, call_reassemble_video.
  cbn [fs uuids relog set_uuids set_fs set_temp_audio_original
       set_temp_audio_censored set_final_output_path initial_state].
  destruct (reassemble_video fs2 video_path censored final) as [ok fs3].
  apply wp_if; intros _.
  { apply reports_wp; [solve_reports| |];
      [intros ? st' Hsd _|intros st' Hsd]; relog_in Hsd st'; by apply Hexit3. }
  wp_report as stop' Hstop'; [clear Hstop'|by apply Hexit3].
  apply wp_if; intros _.
  { wp_report; [apply wp_early_return|]; by apply Hexit3. }
  do 2 (wp_report; [|by apply Hexit3]).
  apply wp_modify. by apply Hexit3.
Qed.

Lemma run_before_finally_temps_apart video_path output_dir fs0 :
  temps_apart (run_before_finally video_path output_dir (initial_state fs0)).
Proof.
  pose proof (run_try_temps_apart video_path output_dir fs0) as Hwp.
  unfold wp in Hwp. unfold run_before_finally.
  destruct (run_try _ _ _) as [[[]| |e] st]; [done..|].
  destruct Hwp as (Hf & Ho & Hc). unfold run_except, update_status, modify.
  cbn. by destruct has_status_callback.
Qed.

(** ** The [finally] clause *)

Lemma run_finally_fs st :
  fs (run_finally st) =
  cleanup_temp_files (fs st) [temp_audio_original st; temp_audio_censored st].
Proof.
  unfold run_finally, is_set, update_status, modify. cbn.
  destruct (stop_requested_at _); cbn; [|done].
  by destruct has_status_callback.
Qed.

Lemma stop_requested_at_mono j k :
  (j <= k)%nat -> stop_requested_at j = true -> stop_requested_at k = true.
Proof.
  unfold stop_requested_at. destruct stop_after as [n|]; [|done].
  rewrite !bool_decide_eq_true. lia.
Qed.

Lemma run_finally_stopped st :
  stop_requested_at (reads st) = true ->
  exists evs,
    events (run_finally st) = events st ++ evs ++ [Completion false None] /\
    Forall not_completion evs.
Proof.
  intros Hstop. unfold run_finally, is_set, update_status, modify. cbn.
  rewrite Hstop. cbn. destruct has_status_callback; cbn.
  - exists [Status "Processing stopped."]. split; [by rewrite <-app_assoc|].
    by repeat constructor.
  - by exists [].
Qed.

End RunFacts.

(** ** Cleanup and the output file *)

(** What lies beside the cleanup. When writing the output raises after a
    part of it is on disk, the handler of the reassembler removes the output
    file before the [finally] clause of the run is reached, and the run ends
    without it. And a run that succeeds on a system refusing to remove the
    extracted audio ends with that file still on disk. *)
Example reassembly_failure_removes_output :
  let env := demo_env (MuxWriteRaises (Some 9%N)) heard_nothing None in
  let out := "/out/clip_censored.mp4"%string in
  let extracted := "/tmp/redactor_temp/tmp_id0_audio_extracted.wav"%string in
  let censored := "/tmp/redactor_temp/tmp_id1_audio_censored.wav"%string in
  let busy :=
    @run demo_pydub busy_os (demo_env (MuxWritten 7%N) heard_nothing None)
      "/in/clip.mp4" "/out" (@initial_state demo_pydub demo_disk) in
  let attempt :=
    @reassemble_video_try demo_pydub demo_os env demo_work_disk
      "/in/clip.mp4" censored out in
  let st1 := demo_run_before_finally env in
  let st2 := demo_run env in
  fst attempt = Raise UnexpectedError /\
  snd attempt !! out = Some (OtherFile 9%N) /\
  snd (@reassemble_video demo_pydub demo_os env demo_work_disk
         "/in/clip.mp4" censored out) !! out = None /\
  fs st1 =
    snd (@reassemble_video demo_pydub demo_os env demo_work_disk
           "/in/clip.mp4" censored out) /\
  final_output_path st1 = Some out /\
  last (events st2) = Some (Completion false (Some out)) /\
  fs st2 !! out = None /\
  last (events busy) = Some (Completion true (Some out)) /\
  fs busy !! extracted = Some (WavFile demo_audio) /\
  fs busy !! censored = None.
Proof. repeat split; by vm_compute. Qed.

Section CleanupFacts.
Context `{Pydub} `{Os} `{!Environment}.

(** The [finally] clause leaves the file at the output path as it is. *)
Lemma run_keeps_output video_path output_dir fs0 p :
  final_output_path
    (run_before_finally video_path output_dir (initial_state fs0)) = Some p ->
  fs (run video_path output_dir (initial_state fs0)) !! p =
  fs (run_before_finally video_path output_dir (initial_state fs0)) !! p.
Proof.
  intros Hp. unfold run. rewrite run_finally_fs.
  destruct (run_before_finally_temps_apart video_path output_dir fs0)
    as (Hfinal & _ & _).
  destruct (Hfinal _ Hp). by apply cleanup_temp_files_other.
Qed.

(** C2: whatever the outcome of the [try] block, the cleanup at the end of a
    run removes the temporary audio files the run has recorded (the
    extracted and the censored audio), where the system lets it, and
    touches no other path: the output file is after the cleanup what it was
    before it, also when the run has failed after writing it. The
    reassembler, for its part, removes nothing when its [try] block
    returns. *)
Theorem cleanup_spares_output video_path output_dir fs0 :
  let st1 := run_before_finally video_path output_dir (initial_state fs0) in
  let st2 := run video_path output_dir (initial_state fs0) in
  (forall p,
     temp_audio_original st1 = Some p \/ temp_audio_censored st1 = Some p ->
     isfile (fs st1) p = true -> remove_refused p = false -> fs st2 !! p = None) /\
  (forall p,
     temp_audio_original st1 <> Some p -> temp_audio_censored st1 <> Some p ->
     fs st2 !! p = fs st1 !! p) /\
  (forall p, final_output_path st1 = Some p -> fs st2 !! p = fs st1 !! p) /\
  (forall (disk disk' : filesystem) video audio out ok,
     isfile disk video = true -> isfile disk audio = true ->
     reassemble_video_try disk video audio out = (Ok ok, disk') ->
     reassemble_video disk video audio out = (ok, disk')).
Proof.
  intros st1 st2.
  pose proof (run_before_finally_temps_apart video_path output_dir fs0)
    as (Hfinal & Ho & Hc). fold st1 in Hfinal, Ho, Hc.
  assert (fs st2 = cleanup_temp_files (fs st1)
            [temp_audio_original st1; temp_audio_censored st1]) as Hfs
    by apply run_finally_fs.
  repeat split.
  - intros p Hp Hf Hl. rewrite Hfs.
    apply cleanup_temp_files_removes; [done| |done..].
    destruct Hp; [by apply Ho|by apply Hc].
  - intros p ??. rewrite Hfs. by apply cleanup_temp_files_other.
  - intros p Hp. by apply run_keeps_output.
  - intros disk disk' video audio out ok Hv Ha Htry.
    unfold reassemble_video. by rewrite Hv, Ha, Htry.
Qed.

(** C10: when the stop event is set by the time the [finally] clause reads
    it, the completion callback gets [False] and [None], after at most the
    status message of the stop, and the file at the output path is what it
    was when the [try] block ended. *)
Theorem late_stop_overrides_result video_path output_dir fs0 :
  let st1 := run_before_finally video_path output_dir (initial_state fs0) in
  let st2 := run video_path output_dir (initial_state fs0) in
  (exists k, (k <= reads st1)%nat /\ stop_requested_at k = true) ->
  (exists evs,
     events st2 = events st1 ++ evs ++ [Completion false None] /\
     Forall not_completion evs) /\
  (forall p, final_output_path st1 = Some p -> fs st2 !! p = fs st1 !! p).
Proof.
  intros st1 st2 (k & Hk & Hstop). split.
  - apply run_finally_stopped. by eapply stop_requested_at_mono.
  - intros p Hp. by apply run_keeps_output.
Qed.

End CleanupFacts.

Lemma late_stop_overrides_result_witness :
  let env := demo_env (MuxWritten 7%N) heard_nothing (Some 6%nat) in
  let out := "/out/clip_censored.mp4"%string in
  let st1 := demo_run_before_finally env in
  let st2 := demo_run env in
  (success st1 = true /\ final_output_path st1 = Some out /\
   reads st1 = 6%nat /\ fs st1 !! out = Some (OtherFile 7%N)) /\
  (exists evs,
     events st2 = events st1 ++ evs ++ [Completion false None] /\
     Forall not_completion evs) /\
  fs st2 !! out = Some (OtherFile 7%N).
Proof.
  intros env out st1 st2.
  assert (success st1 = true /\ final_output_path st1 = Some out /\
          reads st1 = 6%nat /\ fs st1 !! out = Some (OtherFile 7%N))
    as Hrun by (repeat split; by vm_compute).
  split; [exact Hrun|].
  destruct (@late_stop_overrides_result demo_pydub demo_os env
              "/in/clip.mp4" "/out" demo_disk) as [Hevents Hkept].
  - exists 6%nat. split; by vm_compute.
  - split; [exact Hevents|].
    destruct Hrun as (_ & Hout & _ & Hfile).
    etrans; [exact (Hkept out Hout)|exact Hfile].
Defined.

Lemma cleanup_spares_output_witness :
  let env := demo_env (MuxWritten 7%N) heard_nothing None in
  let st1 := demo_run_before_finally env in
  let st2 := demo_run env in
  (temp_audio_original st1 =
     Some "/tmp/redactor_temp/tmp_id0_audio_extracted.wav"%string /\
   final_output_path st1 = Some "/out/clip_censored.mp4"%string) /\
  fs st2 !! "/tmp/redactor_temp/tmp_id0_audio_extracted.wav"%string = None /\
  fs st2 !! "/out/clip_censored.mp4"%string =
    fs st1 !! "/out/clip_censored.mp4"%string.
Proof.
  intros env st1 st2.
  destruct (@cleanup_spares_output demo_pydub demo_os env
              "/in/clip.mp4" "/out" demo_disk) as (Hgone & _ & Hkept & _).
  split; [split; by vm_compute|]. split.
  - apply Hgone; [left|..]; by vm_compute.
  - apply Hkept. by vm_compute.
Defined.

(** ** Running the [try] block step by step *)

Section Evaluation.
Context `{Pydub} `{Os} `{!Environment}.

Lemma logged_nil st : logged [] st = st.
Proof. destruct st. unfold logged. simpl. by rewrite app_nil_r. Qed.

Lemma bind_normal {A B} (m : M A) (f : A -> M B) st a st1 r :
  m st = (Normal a, st1) -> f a st1 = r -> (m ≫= f) st = r.
Proof. intros Hm <-. unfold mbind, M_bind. by rewrite Hm. Qed.

Lemma bind_returned {A B} (m : M A) (f : A -> M B) st st1 :
  m st = (Returned, st1) -> (m ≫= f) st = (Returned, st1).
Proof. intros Hm. unfold mbind, M_bind. by rewrite Hm. Qed.

Lemma update_status_run message st :
  update_status message st = (Normal (), logged (said message) st).
Proof.
  unfold update_status, modify, said. f_equal.
  destruct has_status_callback; [done|by rewrite logged_nil].
Qed.

Lemma update_progress_run value st :
  update_progress value st = (Normal (), logged (shown value) st).
Proof.
  unfold update_progress, modify, shown. f_equal.
  destruct has_progress_callback; [done|by rewrite logged_nil].
Qed.

Lemma stop_never k : stop_after = None -> stop_requested_at k = false.
Proof. unfold stop_requested_at. by intros ->. Qed.

Lemma is_set_run st :
  stop_after = None -> is_set st = (Normal false, tick_read st).
Proof. intros Hs. unfold is_set. by rewrite stop_never. Qed.

Lemma checked_pass {A} (truthy : A -> bool) a message check_none st :
  stop_after = None ->
  (check_none = false -> truthy a = true) ->
  checked truthy (Some a) message check_none st = (Normal a, tick_read st).
Proof.
  intros Hs Ht. unfold checked, check_stop_or_error.
  eapply bind_normal.
  - eapply bind_normal; [by apply is_set_run|]. cbv beta iota.
    destruct check_none; [done|]. by rewrite Ht.
  - done.
Qed.

Lemma checked_none {A} (truthy : A -> bool) message check_none st :
  stop_after = None ->
  checked truthy None message check_none st =
    (Returned, logged (said message) (tick_read st)).
Proof.
  intros Hs. unfold checked, check_stop_or_error.
  eapply bind_normal.
  - eapply bind_normal; [by apply is_set_run|]. cbv beta iota.
    eapply bind_normal; [apply update_status_run|done].
  - done.
Qed.

Lemma call_transcribe_audio_run audio_path st :
  call_transcribe_audio audio_path st =
    (Normal (fst (transcribe_audio audio_path)),
     logged (snd (transcribe_audio audio_path) ≫= said) st).
Proof.
  unfold call_transcribe_audio.
  destruct (transcribe_audio audio_path) as [r messages]. cbn [fst snd].
  revert st. induction messages as [|message messages IH]; intros st.
  - cbn. by rewrite logged_nil.
  - cbn [foldr]. eapply bind_normal; [apply update_status_run|].
    rewrite IH. f_equal. destruct st. unfold logged. cbn.
    by rewrite <-app_assoc.
Qed.

End Evaluation.

(** ** The run after a failed and after an empty transcription *)

Section Scenario.
Context `{Pydub} `{Os} `{!Environment}.

Lemma call_extract_audio_run video_path st r fs' n :
  extract_audio (fs st) (uuids st) video_path = (r, fs', n) ->
  call_extract_audio video_path st = (Normal r, set_uuids n (set_fs fs' st)).
Proof. intros E. unfold call_extract_audio. by rewrite E. Qed.

Lemma at_site_run {A} s (m : M A) : fault s = false -> at_site s m = m.
Proof. intros E. unfold at_site. by rewrite E. Qed.

Local Open Scope string_scope.

Lemma run_transcription_nil video_path output_dir fs0 po fs1 n1 :
  stop_after = None ->
  fault AtExtract = false -> fault AtTranscribe = false ->
  video_path <> "" -> isfile fs0 video_path = true ->
  output_dir <> "" -> isdir fs0 output_dir = true ->
  extract_audio fs0 0 video_path = (Some po, fs1, n1) ->
  fst (transcribe_audio po) = None ->
  exists st1,
    run_try video_path output_dir (initial_state fs0) = (Returned, st1) /\
    events st1 =
      (said "Step 1/5: Extracting audio..." ++ shown 5 ++
       said "Step 2/5: Transcribing audio (this may take time)..." ++ shown 20 ++
       (snd (transcribe_audio po) ≫= said) ++
       said "Error: Failed to transcribe audio.")%list /\
    fs st1 = fs1 /\ temp_audio_original st1 = Some po /\
    temp_audio_censored st1 = None /\ success st1 = false /\
    final_output_path st1 = None.
Proof.
  intros Hstop Hf1 Hf2 Hv Hvf Hd Hdf Hex Htr.
  destruct (extract_audio_some _ _ _ _ _ _ Hex) as [Hpo _].
  eexists. split.
  - unfold run_try. eapply bind_normal; [reflexivity|]. cbv beta.
    cbn [fs initial_state].
    rewrite (bool_decide_eq_false_2 _ Hv), Hvf, (bool_decide_eq_false_2 _ Hd), Hdf.
    cbn [negb orb].
    eapply bind_normal; [apply update_status_run|].
    eapply bind_normal; [apply update_progress_run|].
    rewrite (at_site_run _ _ Hf1).
    eapply bind_normal; [by apply call_extract_audio_run|].
    eapply bind_normal; [reflexivity|].
    eapply bind_normal.
    { apply checked_pass; [done|]. intros _. unfold nonempty.
      by rewrite bool_decide_eq_false_2. }
    eapply bind_normal; [apply update_status_run|].
    eapply bind_normal; [apply update_progress_run|].
    rewrite (at_site_run _ _ Hf2).
    eapply bind_normal; [apply call_transcribe_audio_run|].
    rewrite Htr.
    eapply bind_returned. by apply checked_none.
  - cbn. by rewrite <-!app_assoc.
Qed.

Lemma run_transcription_empty video_path output_dir fs0 po fs1 n1 heard pc n2 f fs3 :
  stop_after = None ->
  (forall s, fault s = false) ->
  video_path <> "" -> isfile fs0 video_path = true ->
  output_dir <> "" -> isdir fs0 output_dir = true ->
  extract_audio fs0 0 video_path = (Some po, fs1, n1) ->
  transcribe_audio po = (Some [], heard) ->
  get_temp_filepath n1 "audio_censored.wav" = (Some pc, n2) ->
  fs1 !! po = Some f -> f <> Directory -> po <> pc -> writable fs1 pc ->
  reassemble_video (<[pc := f]> fs1) video_path pc
    (unique_output_path (<[pc := f]> fs1) output_dir (stem video_path)) =
    (true, fs3) ->
  exists st1,
    run_try video_path output_dir (initial_state fs0) = (Normal (), st1) /\
    events st1 =
      (said "Step 1/5: Extracting audio..." ++ shown 5 ++
       said "Step 2/5: Transcribing audio (this may take time)..." ++ shown 20 ++
       (heard ≫= said) ++
       said "Step 3/5: Classifying 0 words..." ++ shown 50 ++
       said "Identified 0 segments to censor." ++ shown 70 ++
       said "Step 4/5: Generating censored audio..." ++ shown 85 ++
       said "Step 5/5: Reassembling video (this may also take time)..." ++
       said ("Processing complete in " +:+ elapsed +:+ " seconds!") ++
       shown 100)%list /\
    fs st1 = fs3 /\ temp_audio_original st1 = Some po /\
    temp_audio_censored st1 = Some pc /\ success st1 = true /\
    final_output_path st1 =
      Some (unique_output_path (<[pc := f]> fs1) output_dir (stem video_path)).
Proof.
  intros Hstop Hfault Hv Hvf Hd Hdf Hex Htr Htemp Hpo Hf Hne Hw Hre.
  destruct (extract_audio_some _ _ _ _ _ _ Hex) as [Hpo_ne _].
  pose proof (get_temp_filepath_some _ _ _ _ Htemp) as Hpc_ne.
  eexists. split.
  - unfold run_try. eapply bind_normal; [reflexivity|]. cbv beta.
    cbn [fs initial_state].
    rewrite (bool_decide_eq_false_2 _ Hv), Hvf, (bool_decide_eq_false_2 _ Hd), Hdf.
    cbn [negb orb].
    eapply bind_normal; [apply update_status_run|].
    eapply bind_normal; [apply update_progress_run|].
    rewrite (at_site_run AtExtract _ (Hfault _)).
    eapply bind_normal; [by apply call_extract_audio_run|].
    eapply bind_normal; [reflexivity|].
    eapply bind_normal.
    { apply checked_pass; [done|]. intros _. unfold nonempty.
      by rewrite bool_decide_eq_false_2. }
    eapply bind_normal; [apply update_status_run|].
    eapply bind_normal; [apply update_progress_run|].
    rewrite (at_site_run AtTranscribe _ (Hfault _)).
    eapply bind_normal; [apply call_transcribe_audio_run|].
    rewrite Htr. cbn [fst snd].
    eapply bind_normal; [by apply checked_pass|].
    cbn [length]. 
    eapply bind_normal; [apply update_status_run|].
    eapply bind_normal; [apply update_progress_run|].
    rewrite bool_decide_eq_true_2 by done.
    eapply bind_normal; [reflexivity|]. cbn [length].
    eapply bind_normal; [apply update_status_run|].
    eapply bind_normal; [apply update_progress_run|].
    eapply bind_normal; [by apply is_set_run|]. cbv beta iota.
    eapply bind_normal; [apply update_status_run|].
    rewrite (at_site_run AtTempPath _ (Hfault _)).
    eapply bind_normal.
    { unfold call_get_temp_filepath. cbn [uuids logged tick_read set_uuids set_fs set_temp_audio_original initial_state].
      rewrite Htemp. reflexivity. }
    eapply bind_normal; [reflexivity|].
    eapply bind_normal.
    { apply checked_pass; [done|]. intros _. unfold nonempty.
      by rewrite bool_decide_eq_false_2. }
    rewrite (at_site_run AtCensor _ (Hfault _)).
    eapply bind_normal.
    { unfold call_censor_audio, censor_audio.
      cbn [fs uuids logged tick_read set_uuids set_fs set_temp_audio_original
           set_temp_audio_censored initial_state].
      rewrite (copyfile_writable _ _ _ _ Hpo Hf Hne Hw). reflexivity. }
    eapply bind_normal.
    { apply checked_pass; [done|]. intros _. unfold nonempty.
      by rewrite bool_decide_eq_false_2. }
    eapply bind_normal; [apply update_progress_run|].
    eapply bind_normal; [apply update_status_run|].
    eapply bind_normal; [reflexivity|]. cbv beta.
    cbn [fs uuids logged tick_read set_uuids set_fs set_temp_audio_original
         set_temp_audio_censored initial_state].
    eapply bind_normal; [reflexivity|].
    rewrite (at_site_run AtReassemble _ (Hfault _)).
    eapply bind_normal.
    { unfold call_reassemble_video.
      cbn [fs uuids logged tick_read set_uuids set_fs set_temp_audio_original
           set_temp_audio_censored set_final_output_path initial_state modify snd].
      rewrite Hre. reflexivity. }
    cbn [negb].
    eapply bind_normal; [by apply is_set_run|]. cbv beta iota.
    eapply bind_normal; [apply update_status_run|].
    eapply bind_normal; [apply update_progress_run|].
    reflexivity.
  - cbn [events fs temp_audio_original temp_audio_censored success
         final_output_path logged tick_read set_uuids set_fs
         set_temp_audio_original set_temp_audio_censored
         set_final_output_path set_success initial_state modify snd].
    repeat split. by rewrite <-!app_assoc.
Qed.

Lemma run_finally_unstopped st :
  stop_after = None ->
  run_finally st =
    emit (Completion (success st) (final_output_path st))
      (tick_read
         (set_fs (cleanup_temp_files (fs st)
                    [temp_audio_original st; temp_audio_censored st]) st)).
Proof.
  intros Hs. unfold run_finally. by rewrite (is_set_run _ Hs).
Qed.

(** C9: a transcription that fails returns [None], one without text returns
    the empty list. On [None] the run ends after the error message of the
    transcription step, with the completion callback called with [False] and
    [None] and no path for the censored audio allotted. On the empty list the
    run goes on: no word is classified, the censoring step copies the
    extracted audio, and when the reassembler returns [True] the completion
    callback is called with [True] and the output path. *)
Theorem nil_transcription_fails_empty_goes_on
    video_path output_dir fs0 po fs1 n1 :
  stop_after = None ->
  (forall s, fault s = false) ->
  video_path <> "" -> isfile fs0 video_path = true ->
  output_dir <> "" -> isdir fs0 output_dir = true ->
  extract_audio fs0 0 video_path = (Some po, fs1, n1) ->
  (whisper_loaded = false \/ (exists e, whisper_transcribe po = Raise e) ->
   fst (transcribe_audio po) = None) /\
  (forall r, whisper_loaded = true -> whisper_transcribe po = Ok r ->
     strip (text r) = "" -> fst (transcribe_audio po) = Some []) /\
  (fst (transcribe_audio po) = None ->
   let st2 := run video_path output_dir (initial_state fs0) in
   events st2 =
     (said "Step 1/5: Extracting audio..." ++ shown 5 ++
      said "Step 2/5: Transcribing audio (this may take time)..." ++ shown 20 ++
      (snd (transcribe_audio po) ≫= said) ++
      said "Error: Failed to transcribe audio." ++
      [Completion false None])%list /\
   temp_audio_censored st2 = None) /\
  (forall pc n2 f fs3,
     fst (transcribe_audio po) = Some [] ->
     get_temp_filepath n1 "audio_censored.wav" = (Some pc, n2) ->
     fs1 !! po = Some f -> f <> Directory -> po <> pc -> writable fs1 pc ->
     let final :=
       unique_output_path (<[pc := f]> fs1) output_dir (stem video_path) in
     reassemble_video (<[pc := f]> fs1) video_path pc final = (true, fs3) ->
     let st2 := run video_path output_dir (initial_state fs0) in
     censor_audio beep_frequency_hz fs1 po [] pc = (<[pc := f]> fs1, Some pc) /\
     events st2 =
       (said "Step 1/5: Extracting audio..." ++ shown 5 ++
        said "Step 2/5: Transcribing audio (this may take time)..." ++ shown 20 ++
        (snd (transcribe_audio po) ≫= said) ++
        said "Step 3/5: Classifying 0 words..." ++ shown 50 ++
        said "Identified 0 segments to censor." ++ shown 70 ++
        said "Step 4/5: Generating censored audio..." ++ shown 85 ++
        said "Step 5/5: Reassembling video (this may also take time)..." ++
        said ("Processing complete in " +:+ elapsed +:+ " seconds!") ++
        shown 100 ++ [Completion true (Some final)])%list).
Proof.
  intros Hstop Hfault Hv Hvf Hd Hdf Hex. split; [|split; [|split]].
  - unfold transcribe_audio. intros [->|[e ->]]; [done|].
    destruct whisper_loaded; [|done]. by destruct e.
  - intros r Hl Hr Ht. unfold transcribe_audio. rewrite Hl, Hr. cbn [negb].
    by rewrite bool_decide_eq_true_2.
  - intros Hnil st2.
    destruct (run_transcription_nil video_path output_dir fs0 po fs1 n1)
      as (st1 & Htry & Hev & _ & _ & Hc & Hs & Hfin); [done..|].
    subst st2. unfold run, run_before_finally. rewrite Htry.
    rewrite (run_finally_unstopped _ Hstop).
    cbn [events temp_audio_censored emit tick_read set_fs].
    rewrite Hev, Hs, Hfin, Hc. split; [|done]. by rewrite <-!app_assoc.
  - intros pc n2 f fs3 Hempty Htemp Hpo Hf Hne Hw final Hre st2.
    destruct (transcribe_audio po) as [r heard] eqn:Htr. cbn [fst snd] in *.
    subst r.
    destruct (run_transcription_empty video_path output_dir fs0 po fs1 n1
                heard pc n2 f fs3)
      as (st1 & Htry & Hev & _ & _ & _ & Hs & Hfin); [done..|].
    split.
    { unfold censor_audio. by rewrite (copyfile_writable _ _ _ _ Hpo Hf Hne Hw). }
    subst st2. unfold run, run_before_finally. rewrite Htry.
    rewrite (run_finally_unstopped _ Hstop).
    cbn [events emit tick_read set_fs].
    rewrite Hev, Hs, Hfin. by rewrite <-!app_assoc.
Qed.

End Scenario.

Lemma nil_transcription_fails_empty_goes_on_witness :
  let env := demo_env (MuxWritten 7%N) heard_nothing None in
  let po := "/tmp/redactor_temp/tmp_id0_audio_extracted.wav"%string in
  let pc := "/tmp/redactor_temp/tmp_id1_audio_censored.wav"%string in
  let fs1 : gmap string (file Z) := <[po := WavFile demo_audio]> demo_disk in
  (@extract_audio demo_pydub demo_os env demo_disk 0 "/in/clip.mp4" =
     (Some po, fs1, 1%nat) /\
   @transcribe_audio demo_pydub env po =
     (Some [], ["Transcription started..."; "Parsing transcription results..."]%string)) /\
  @censor_audio demo_pydub demo_os 440 fs1 po [] pc =
    (<[pc := WavFile demo_audio]> fs1, Some pc) /\
  last (events (demo_run env)) =
    Some (Completion true (Some "/out/clip_censored.mp4"%string)).
Proof.
  intros env po pc fs1.
  assert (@extract_audio demo_pydub demo_os env demo_disk 0 "/in/clip.mp4" =
            (Some po, fs1, 1%nat)) as Hex by reflexivity.
  assert (@transcribe_audio demo_pydub env po =
            (Some [], ["Transcription started...";
                       "Parsing transcription results..."]%string)) as Htr
    by (by vm_compute).
  split; [by split|].
  destruct (@nil_transcription_fails_empty_goes_on demo_pydub demo_os env
              "/in/clip.mp4" "/out" demo_disk po fs1 1%nat)
    as (_ & _ & _ & Hempty); [done..| |by vm_compute|done| |done|].
  - intros s. by vm_compute.
  - by vm_compute.
  - destruct (Hempty pc 2%nat (WavFile demo_audio)
                (<["/out/clip_censored.mp4"%string := OtherFile 7%N]>
                   (<[pc := WavFile demo_audio]> fs1)))
      as [Hcopy Hevents].
    + by rewrite Htr.
    + by vm_compute.
    + by vm_compute.
    + done.
    + done.
    + split; by vm_compute.
    + reflexivity.
    + split; [exact Hcopy|].
      fold (demo_run env) in Hevents. rewrite Hevents. by vm_compute.
Defined.

(** * Further properties of the code *)

(** ** utils.py *)

(** X1: for every float, [seconds_to_milliseconds] either returns the floor
    of the product with 1000, brought up to 0 (never a negative number, and
    0 for a NaN), or raises OverflowError, which it does exactly when the
    product is infinite; no other exception escapes it. *)
Theorem seconds_to_milliseconds_total seconds :
  (seconds_to_milliseconds seconds = Ok (floor_ms seconds) /\
   0 <= floor_ms seconds /\ converts seconds) \/
  (seconds_to_milliseconds seconds = Raise OverflowError /\
   exists s, Prim2SF (seconds * 1000)%float = S754_infinity s).
Proof.
  unfold seconds_to_milliseconds, floor_ms, converts, py_int, py_floor.
  destruct (Prim2SF (seconds * 1000)) as [s|s| |s m e].
  - left. by repeat split.
  - right. by eauto.
  - left. by repeat split.
  - left. rewrite max0_trunc_floor. repeat split; [lia|done].
Qed.

Local Open Scope string_scope.

Lemma kept_in_suffix_no_space c : kept_in_suffix c = true -> is_space c = false.
Proof. destruct c as [[] [] [] [] [] [] [] []]; by vm_compute. Qed.

Lemma kept_in_suffix_no_sep c : kept_in_suffix c = true -> c <> "/"%char.
Proof. destruct c as [[] [] [] [] [] [] [] []]; by vm_compute. Qed.

Lemma string_filter_Forall f s :
  Forall (fun c => f c = true) (list_ascii_of_string (string_filter f s)).
Proof.
  induction s as [|c s IH]; cbn; [done|].
  destruct (f c) eqn:E; [|done]. cbn. by constructor.
Qed.

Lemma lstrip_id s :
  Forall (fun c => is_space c = false) (list_ascii_of_string s) -> lstrip s = s.
Proof. destruct s as [|c s]; [done|]. cbn. by intros [-> _]%Forall_cons. Qed.

Lemma rstrip_id s :
  Forall (fun c => is_space c = false) (list_ascii_of_string s) -> rstrip s = s.
Proof.
  induction s as [|c s IH]; [done|]. cbn. intros [Hc Hs]%Forall_cons.
  by rewrite IH, Hc, andb_false_r.
Qed.

Lemma strip_id s :
  Forall (fun c => is_space c = false) (list_ascii_of_string s) -> strip s = s.
Proof. intros Hs. unfold strip. by rewrite lstrip_id, rstrip_id. Qed.

Section UtilsFacts.
Context `{Pydub} `{Os} `{!Environment}.

(** X2: for an ASCII suffix, the path [get_temp_filepath] returns is
    tmp_<uuid>_<suffix> in the temporary directory, where the suffix has
    lost every character that is no letter, digit, dot, underscore or hyphen
    and is [file] when nothing is left. The suffix of the name is never
    empty and holds no path separator and no white space, so that the
    [strip()] of the code changes nothing; without a temporary directory
    the result is [None] and no uuid is drawn. *)
Theorem get_temp_filepath_sanitized uuids filename_suffix :
  is_ascii filename_suffix ->
  let kept := string_filter kept_in_suffix filename_suffix in
  let safe_suffix := if bool_decide (kept = "") then "file" else kept in
  get_temp_filepath uuids filename_suffix =
    match temp_dir_path with
    | None => (None, uuids)
    | Some dir =>
        (Some (path_join dir ("tmp_" +:+ uuid4 uuids +:+ "_" +:+ safe_suffix)),
         S uuids)
    end /\
  safe_suffix <> "" /\
  Forall (fun c => kept_in_suffix c = true /\ c <> "/"%char /\ is_space c = false)
    (list_ascii_of_string safe_suffix).
Proof.
  intros _ kept safe_suffix.
  assert (Forall (fun c => kept_in_suffix c = true) (list_ascii_of_string kept))
    as Hkept by apply string_filter_Forall.
  assert (strip kept = kept) as Hstrip.
  { apply strip_id. eapply Forall_impl; [done|]. apply kept_in_suffix_no_space. }
  split; [|split].
  - unfold get_temp_filepath. destruct temp_dir_path; [|done].
    fold kept_in_suffix. fold kept. by rewrite Hstrip.
  - unfold safe_suffix. by case_bool_decide.
  - assert (Forall (fun c => kept_in_suffix c = true)
              (list_ascii_of_string safe_suffix)) as Hsafe.
    { unfold safe_suffix. case_bool_decide; [|done]. by repeat constructor. }
    eapply Forall_impl; [done|]. intros c Hc.
    auto using kept_in_suffix_no_sep, kept_in_suffix_no_space.
Qed.

Lemma cleanup_one_exact (fs : filesystem) arg p :
  cleanup_one fs arg !! p =
    if bool_decide (arg = Some p /\ p <> "") && isfile fs p
       && negb (remove_refused p)
    then None else fs !! p.
Proof.
  destruct (decide (arg = Some p)) as [->|Hne].
  - unfold cleanup_one. case_bool_decide as Hp.
    + rewrite bool_decide_eq_false_2; [done|]. by intros [_ ?].
    + rewrite bool_decide_eq_true_2 by done. cbn [andb].
      destruct (isfile fs p) eqn:Hf; [|done]. cbn [andb].
      unfold remove, isfile in *.
      destruct (fs !! p) as [[]|] eqn:E; try done;
        destruct (remove_refused p); cbn; by rewrite ?lookup_delete_eq.
  - rewrite cleanup_one_other by done.
    rewrite bool_decide_eq_false_2; [done|]. by intros [? _].
Qed.

Lemma cleanup_temp_files_lookup (fs : filesystem) args p :
  cleanup_temp_files fs args !! p =
    if bool_decide (Some p ∈ args /\ p <> "") && isfile fs p
       && negb (remove_refused p)
    then None else fs !! p.
Proof.
  revert fs. induction args as [|arg args IH]; intros fs.
  - cbn. rewrite bool_decide_eq_false_2; [done|]. by intros [?%elem_of_nil _].
  - cbn [cleanup_temp_files foldl]. unfold cleanup_temp_files in IH. rewrite IH.
    assert (isfile (cleanup_one fs arg) p =
            isfile fs p && negb (bool_decide (arg = Some p /\ p <> "")
                                 && isfile fs p && negb (remove_refused p)))
      as ->.
    { unfold isfile at 1. rewrite cleanup_one_exact. unfold isfile.
      destruct (bool_decide (arg = Some p /\ p <> "")),
        (fs !! p) as [[]|], (remove_refused p); done. }
    rewrite cleanup_one_exact.
    destruct (decide (p = "")) as [->|Hp].
    { rewrite !bool_decide_eq_false_2; [done|by intros [_ ?]..]. }
    destruct (decide (arg = Some p)) as [->|Hne].
    + rewrite (bool_decide_eq_true_2 (Some p = Some p /\ _)) by done.
      rewrite (bool_decide_eq_true_2 (Some p ∈ Some p :: args /\ _))
        by (split; [left|done]).
      destruct (bool_decide _), (isfile fs p), (remove_refused p); done.
    + rewrite (bool_decide_eq_false_2 (arg = Some p /\ _)) by (by intros [? _]).
      cbn [andb negb]. rewrite andb_true_r.
      assert (bool_decide (Some p ∈ arg :: args /\ p <> "") =
              bool_decide (Some p ∈ args /\ p <> "")) as ->; [|done].
      apply bool_decide_ext. rewrite elem_of_cons.
      split; [intros [[?|?] ?]|intros [? ?]]; by auto.
Qed.

(** X3: [cleanup_temp_files] removes exactly the regular files among its
    arguments that the system lets it remove. Every other path, and every
    directory, is left as it is; nothing is created; and cleaning up a
    second time changes nothing. *)
Theorem cleanup_temp_files_exact (fs : filesystem) args :
  (forall p,
     cleanup_temp_files fs args !! p =
       if bool_decide (Some p ∈ args /\ p <> "") && isfile fs p
          && negb (remove_refused p)
       then None else fs !! p) /\
  cleanup_temp_files fs args ⊆ fs /\
  cleanup_temp_files (cleanup_temp_files fs args) args =
    cleanup_temp_files fs args.
Proof.
  split; [apply cleanup_temp_files_lookup|]. split.
  - apply map_subseteq_spec. intros p f. rewrite cleanup_temp_files_lookup.
    by destruct (_ && _).
  - apply map_eq. intros p. rewrite !cleanup_temp_files_lookup.
    unfold isfile at 1. rewrite cleanup_temp_files_lookup. unfold isfile.
    by destruct (bool_decide _), (fs !! p) as [[]|], (remove_refused p).
Qed.


(** ** audio_processor.py: extract_audio *)

Lemma remove_partial_absent (fs : filesystem) p :
  fs !! p = None -> remove_partial fs p = fs.
Proof.
  intros Hp. unfold remove_partial, exists_. rewrite Hp.
  rewrite bool_decide_eq_false_2; [done|]. by intros [? ?].
Qed.

Lemma remove_partial_written (fs : filesystem) p f :
  fs !! p = None -> f <> Directory -> remove_refused p = false ->
  remove_partial (<[p := f]> fs) p = fs.
Proof.
  intros Hp Hf Hr. unfold remove_partial, exists_, remove.
  rewrite lookup_insert_eq. rewrite bool_decide_eq_true_2 by eauto.
  rewrite Hr. destruct f; [done|..]; by rewrite delete_insert_id.
Qed.

(** X4: [extract_audio] touches no path but the temporary path it has
    chosen. When it returns a path, it is that path and a file exists there;
    when it returns [None], and the path was free before and the system lets
    it be removed, the file system is as it was before the call. *)
Theorem extract_audio_outcome (fs : filesystem) uuids video_path :
  let temp_audio_path := fst (get_temp_filepath uuids "audio_extracted.wav") in
  let '(r, fs', _) := extract_audio fs uuids video_path in
  (forall q, temp_audio_path <> Some q -> fs' !! q = fs !! q) /\
  match r with
  | Some p => temp_audio_path = Some p /\ exists_ fs' p = true
  | None =>
      forall p, temp_audio_path = Some p ->
        fs !! p = None -> remove_refused p = false -> fs' = fs
  end.
Proof.
  unfold extract_audio.
  destruct (get_temp_filepath uuids "audio_extracted.wav") as [[p|] n];
    cbn [fst]; [|done].
  case_bool_decide as Hp; [by split; [|intros ? [= <-]]|].
  assert (forall (fs1 : filesystem) q,
            Some p <> Some q -> fs1 !! q = fs !! q ->
            remove_partial fs1 p !! q = fs !! q) as Hrem.
  { intros fs1 q Hq <-. apply remove_partial_other. congruence. }
  unfold extract_audio_try.
  destruct (video_clip_audio video_path) as [| |[junk|]|audio|].
  - split; [by auto|]. intros ? [= <-] Hfree _. by apply remove_partial_absent.
  - split; [done|]. by intros ? [= <-].
  - destruct (write_file fs p (OtherFile junk)) as [fs1|] eqn:E.
    + apply write_file_ok in E as ->. split.
      * intros q Hq. apply Hrem; [done|]. rewrite lookup_insert_ne; congruence.
      * intros ? [= <-] Hfree Hr. by apply remove_partial_written.
    + split; [by auto|]. intros ? [= <-] Hfree _. by apply remove_partial_absent.
  - split; [by auto|]. intros ? [= <-] Hfree _. by apply remove_partial_absent.
  - destruct (write_file fs p (WavFile audio)) as [fs1|] eqn:E.
    + apply write_file_ok in E as ->.
      assert (exists_ (<[p := WavFile audio]> fs) p = true) as Hex
        by (apply exists_insert; by left).
      rewrite Hex. split; [|done].
      intros q Hq. rewrite lookup_insert_ne; congruence.
    + split; [by auto|]. intros ? [= <-] Hfree _. by apply remove_partial_absent.
  - destruct (exists_ fs p) eqn:Hex; [done|]. split; [done|]. by intros ? [= <-].
Qed.

End UtilsFacts.

Lemma get_temp_filepath_sanitized_witness :
  is_ascii "a b/../x.wav" /\
  @get_temp_filepath demo_pydub (demo_env MuxRaises heard_nothing None) 0
    "a b/../x.wav" =
    (Some "/tmp/redactor_temp/tmp_id0_ab..x.wav", 1%nat).
Proof.
  assert (is_ascii "a b/../x.wav") as Ha.
  { repeat constructor; by vm_compute. }
  split; [done|].
  destruct (@get_temp_filepath_sanitized demo_pydub
              (demo_env MuxRaises heard_nothing None) 0 "a b/../x.wav" Ha)
    as [-> _].
  by vm_compute.
Defined.

(** ** audio_processor.py: censor_audio *)

Local Close Scope string_scope.

Lemma plan_loop_nothing D segs :
  all_convert segs ->
  Forall (fun seg => D <= floor_ms (fst seg) \/
                     floor_ms (snd seg) <= floor_ms (fst seg)) segs ->
  plan_loop D segs = Ok [].
Proof.
  intros Hc Hs. induction segs as [|[s e] segs IH]; [done|].
  apply Forall_cons in Hc as [[Hcs Hce] Hc]. apply Forall_cons in Hs as [Hse Hs].
  cbn [fst snd] in *. rewrite plan_loop_cons.
  rewrite (seconds_to_milliseconds_converts _ Hcs),
    (seconds_to_milliseconds_converts _ Hce), (IH Hc Hs).
  cbv zeta. unfold clamp_ms. cbn [fst snd].
  destruct (_ <=? 0) eqn:E; [done|]. apply Z.leb_gt in E. lia.
Qed.

(** X5: an interval that begins at or after the end of the audio, or that
    is empty or reversed, is skipped; when every interval is, [censor_audio]
    writes a copy of the source audio to the output path and returns that
    path. *)
Theorem censor_out_of_range_copies `{Pydub} `{Os} freq (fs : filesystem)
    src segs out audio :
  fs !! src = Some (WavFile audio) ->
  src <> out ->
  writable fs out ->
  all_convert segs ->
  Forall (fun seg => len audio <= floor_ms (fst seg) \/
                     floor_ms (snd seg) <= floor_ms (fst seg)) segs ->
  censor_audio freq fs src segs out = (<[out := WavFile audio]> fs, Some out).
Proof.
  intros Hsrc Hne Hw Hc Hs.
  destruct (censor_audio_succeeds freq fs src segs out audio Hsrc Hne Hw Hc)
    as (plan & Hplan & ->).
  unfold censor_plan in Hplan. rewrite plan_loop_nothing in Hplan.
  - by injection Hplan as <-.
  - unfold all_convert. by rewrite (sort_by_start_perm segs).
  - by rewrite (sort_by_start_perm segs).
Qed.

Local Open Scope string_scope.

Lemma censor_out_of_range_copies_witness :
  @censor_audio demo_pydub demo_os 440 demo_fs "in.wav"
    [(0.012, 0.013); (0.005, 0.002)]%float "out.wav" =
    (<["out.wav" := WavFile demo_audio]> demo_fs, Some "out.wav").
Proof.
  apply (@censor_out_of_range_copies demo_pydub demo_os).
  - by vm_compute.
  - done.
  - split; by vm_compute.
  - repeat constructor; intros s; by vm_compute.
  - apply Forall_cons. split; [left; by vm_compute|].
    apply Forall_cons. split; [right; by vm_compute|]. constructor.
Defined.

Local Close Scope string_scope.

(** ** The inside of a censored interval *)

Section InsideFacts.
Context `{P : Pydub} `{!PydubSpec P}.




End InsideFacts.


(** ** stt_processor.py: transcribe_audio *)

Local Open Scope string_scope.

Section SttFacts.
Context `{Pydub} `{!Environment}.

Lemma parse_words_valid words :
  Forall (fun w => word w <> "" /\ (start w <=? end_ w)%float = true)
    (parse_words words).
Proof.
  unfold parse_words. apply Forall_forall. intros w.
  rewrite list_elem_of_omap. intros ([wi|] & _ & Hw); [|done]. cbn in Hw.
  case_bool_decide as Hne; [done|].
  destruct (wi_start wi) as [start_f|]; [|done].
  destruct (wi_end wi) as [end_f|]; [|done]. cbn in Hw.
  destruct (start_f <=? end_f)%float eqn:Hle; [|done].
  by injection Hw as <-.
Qed.

Lemma parse_segments_valid segments bound word_timestamps :
  parse_segments segments bound = Ok word_timestamps ->
  Forall (fun w => word w <> "" /\ (start w <=? end_ w)%float = true)
    word_timestamps.
Proof.
  revert bound word_timestamps.
  induction segments as [|[words|] segments IH]; intros bound ws; cbn.
  - by intros [= <-].
  - destruct (parse_segments segments _) as [rest|e] eqn:Hrest; [|done].
    cbn. intros [= <-]. apply Forall_app. split; [apply parse_words_valid|].
    by eapply IH.
  - destruct bound; [apply IH|done].
Qed.

(** Once [word_info] is bound, the loop over the segments does not raise. *)
Lemma parse_segments_bound segments :
  exists word_timestamps, parse_segments segments true = Ok word_timestamps.
Proof.
  induction segments as [|[words|] segments [rest IH]]; cbn.
  - by eexists.
  - assert ((match words with [] => true | _ => true end) = true) as ->
      by (by destruct words).
    rewrite IH. by eexists.
  - by eexists.
Qed.

(** While it is not, the loop raises exactly when it meets a segment without
    a word list. *)
Lemma parse_segments_unbound segments :
  (exists e, parse_segments segments false = Raise e) <->
  meets_unbound_word_info segments.
Proof.
  induction segments as [|[[|entry words]|] segments IH]; cbn.
  - split; [by intros [e ?]|].
    intros (before & after & Heq & _). by destruct before.
  - destruct (parse_segments segments false) as [rest|e] eqn:Hrest; cbn.
    + split; [by intros [e ?]|].
      intros ([|s before] & after & Heq & Hall); [done|].
      injection Heq as <- ->. apply Forall_cons in Hall as [_ Hall].
      destruct IH as [_ IH]. destruct IH as [e [=]]. by exists before, after.
    + split; [|by eexists].
      intros _. destruct IH as [IH _].
      destruct IH as (before & after & -> & Hall); [by eexists|].
      exists (Some [] :: before), after. split; [done|]. by constructor.
  - destruct (parse_segments_bound segments) as [rest ->]. cbn.
    split; [by intros [e ?]|].
    intros ([|s before] & after & Heq & Hall); [done|].
    injection Heq as <- ->. by apply Forall_cons in Hall as [[=] _].
  - split; [|by eexists]. intros _. by exists [], segments.
Qed.

(** A comparison that holds has no NaN on either side. *)
Lemma leb_not_nan x y :
  (x <=? y)%float = true -> (x =? x)%float = true /\ (y =? y)%float = true.
Proof.
  rewrite FloatAxioms.leb_spec, !FloatAxioms.eqb_spec.
  unfold SFleb, SFeqb, SFcompare.
  destruct (Prim2SF x) as [[]|[]| |[] m e], (Prim2SF y) as [[]|[]| |[] m' e'];
    try done; intros _;
    by rewrite ?Z.compare_refl, ?Pos.compare_cont_refl, ?Pos.compare_refl.
Qed.

(** X7: every word timestamp [transcribe_audio] returns has a word that is
    not empty and a start that is not after its end; neither time is a
    NaN. *)
Theorem transcribed_words_are_valid audio_path :
  match fst (transcribe_audio audio_path) with
  | Some words =>
      Forall (fun w => nonempty (word w) = true /\
                       (start w <=? end_ w)%float = true /\
                       (start w =? start w)%float = true /\
                       (end_ w =? end_ w)%float = true) words
  | None => True
  end.
Proof.
  unfold transcribe_audio. destruct (negb whisper_loaded); [done|].
  destruct (whisper_transcribe audio_path) as [heard|[]]; try done. cbn [fst].
  case_bool_decide; cbn [fst]; [done|].
  destruct (parse_segments (segments heard) false) as [ws|e] eqn:Hws;
    cbn [fst]; [|done].
  eapply Forall_impl; [by eapply parse_segments_valid|].
  intros w [Hw Hle]. split; [|split; [done|]].
  - unfold nonempty. by rewrite bool_decide_eq_false_2.
  - by apply leb_not_nan.
Qed.

(** X8: [transcribe_audio] returns [None] exactly when the model is not
    loaded, when the transcription raises, or when the result has text and
    the loop over its segments meets a segment without a word list before
    any entry of a word list (the warning for that segment formats
    [word_info], which is not bound then). The last message it then passes
    to its callback begins with [Error: ]. When it returns a list, it has
    passed the two progress messages and nothing else. *)
Theorem transcribe_audio_failure audio_path :
  let '(r, messages) := transcribe_audio audio_path in
  (r = None <->
   whisper_loaded = false \/
   (exists e, whisper_transcribe audio_path = Raise e) \/
   (exists heard,
      whisper_transcribe audio_path = Ok heard /\
      strip (text heard) <> "" /\
      meets_unbound_word_info (segments heard))) /\
  match r with
  | None => exists m, last messages = Some ("Error: " +:+ m)
  | Some _ =>
      messages = ["Transcription started..."; "Parsing transcription results..."]
  end.
Proof.
  unfold transcribe_audio. destruct whisper_loaded; cbn [negb].
  - destruct (whisper_transcribe audio_path) as [heard|e] eqn:E.
    + case_bool_decide as Htext.
      { split; [|done]. split; [done|].
        intros [?|[[? ?]|(heard' & [= <-] & ? & _)]]; done. }
      destruct (parse_segments (segments heard) false) as [ws|e] eqn:Hws.
      * split; [|done]. split; [done|].
        intros [?|[[? ?]|(heard' & [= <-] & _ & Hmeets)]]; [done..|].
        apply parse_segments_unbound in Hmeets as [e He]. congruence.
      * split; [|cbn [last app]; by eexists]. split; [|done]. intros _.
        right; right. exists heard. split; [done|]. split; [done|].
        apply parse_segments_unbound. by eexists.
    + destruct e; (split; [split; by eauto|]); cbn [last]; by eexists.
  - split; [split; by auto|]. cbn [last]. by eexists.
Qed.

End SttFacts.

(** ** video_processor.py: reassemble_video *)

Section VideoFacts.
Context `{Pydub} `{Os} `{!Environment}.

(** X9: when one of its two inputs is no file, [reassemble_video] returns
    [False] and leaves the file system as it is. When an exception escapes
    its [try] block, it returns [False] and no file is left at the output
    path, be it a partial output or a file that was there before the call,
    provided the path is no directory and the system lets it be removed. *)
Theorem reassemble_video_failure (fs : filesystem) video audio out :
  (isfile fs video && isfile fs audio = false ->
   reassemble_video fs video audio out = (false, fs)) /\
  (isfile fs video && isfile fs audio = true ->
   forall e fs1,
     reassemble_video_try fs video audio out = (Raise e, fs1) ->
     isdir fs out = false -> remove_refused out = false ->
     fst (reassemble_video fs video audio out) = false /\
     snd (reassemble_video fs video audio out) !! out = None).
Proof.
  unfold reassemble_video. split.
  - intros [->| ->]%andb_false_iff; [done|]. by destruct (isfile fs video).
  - intros [-> ->]%andb_true_iff e fs1 Htry Hd Hr. cbn [negb]. rewrite Htry.
    split; [done|]. cbn [snd]. revert Htry. unfold reassemble_video_try.
    assert (remove_partial fs out !! out = None) as Hfs.
    { unfold remove_partial, exists_, remove, isdir in *.
      destruct (fs !! out) as [[]|] eqn:E; try done.
      all: rewrite bool_decide_eq_true_2 by eauto; rewrite Hr;
        apply lookup_delete_eq. }
    assert (forall f, f <> Directory ->
              remove_partial (<[out := f]> fs) out !! out = None) as Hw.
    { intros f Hf. unfold remove_partial, exists_, remove.
      rewrite lookup_insert_eq, bool_decide_eq_true_2 by eauto. rewrite Hr.
      destruct f; [done|..]; apply lookup_delete_eq. }
    destruct (video_mux _ _ _) as [| |[junk|]|content|]; try done.
    + by intros [= _ <-].
    + destruct (write_file _ _ _) as [fs2|] eqn:E.
      * apply write_file_ok in E as ->. intros [= _ <-]. by apply Hw.
      * by intros [= _ <-].
    + by intros [= _ <-].
    + destruct (write_file _ _ _) as [fs2|] eqn:E; [done|]. by intros [= _ <-].
Qed.

End VideoFacts.

(** ** workflow.py: the edges of a run *)

Section RunEdges.
Context `{Pydub} `{Os} `{!Environment}.

Local Open Scope string_scope.

Lemma run_finally_untouched (st : state) :
  temp_audio_original st = None -> temp_audio_censored st = None ->
  fs (run_finally st) = fs st /\
  events (run_finally st) =
    (events st ++
     (if stop_requested_at (reads st) then said "Processing stopped." else []) ++
     [Completion (if stop_requested_at (reads st) then false else success st)
        (if stop_requested_at (reads st) then None else final_output_path st)])%list.
Proof.
  intros Ho Hc. unfold run_finally, is_set. rewrite Ho, Hc. cbn.
  destruct (stop_requested_at (reads st)); cbn; [|done].
  unfold update_status, modify, said. cbn.
  destruct has_status_callback; cbn; [|done].
  by rewrite <-app_assoc.
Qed.

(** X10: a run whose video path is empty or no file, or whose output
    directory is empty or no directory, changes nothing on disk and draws
    no temporary name; its callbacks receive the error message, the message
    of a stop if one was requested, and the completion with [False] and
    [None]. *)
Theorem invalid_input_touches_nothing video_path output_dir fs0 :
  bool_decide (video_path = "") || negb (isfile fs0 video_path)
  || (bool_decide (output_dir = "") || negb (isdir fs0 output_dir)) = true ->
  let st := run video_path output_dir (initial_state fs0) in
  fs st = fs0 /\ uuids st = 0%nat /\
  exists message,
    (message = "Error: Input video file not found or invalid." \/
     message = "Error: Output directory is invalid.") /\
    events st =
      (said message ++
       (if stop_requested_at 0 then said "Processing stopped." else []) ++
       [Completion false None])%list.
Proof.
  intros Hbad st.
  assert (exists message,
            (message = "Error: Input video file not found or invalid." \/
             message = "Error: Output directory is invalid.") /\
            run_before_finally video_path output_dir (initial_state fs0) =
              logged (said message) (initial_state fs0)) as (message & Hm & Hst).
  { unfold run_before_finally, run_try.
    unfold mbind at 1, M_bind at 1, get. cbn [fs initial_state].
    destruct (bool_decide (video_path = "") || negb (isfile fs0 video_path)).
    - eexists. split; [by left|].
      unfold mbind, M_bind. by rewrite update_status_run.
    - cbn [orb] in Hbad. rewrite Hbad.
      eexists. split; [by right|].
      unfold mbind, M_bind. by rewrite update_status_run. }
  unfold st, run. rewrite Hst.
  destruct (run_finally_untouched (logged (said message) (initial_state fs0)))
    as [Hfs Hev]; [done..|].
  split; [done|]. split.
  { unfold run_finally, is_set. cbn. by destruct (stop_requested_at 0); cbn;
      [unfold update_status, modify; destruct has_status_callback|]. }
  exists message. split; [done|]. rewrite Hev. cbn.
  by destruct (stop_requested_at 0).
Qed.



Lemma checked_stopped {A} (truthy : A -> bool) r message check_none st :
  stop_requested_at (reads st) = true ->
  checked truthy r message check_none st =
    (Returned, logged (said "Processing stopped by user.") (tick_read st)).
Proof.
  intros Hs. unfold checked, check_stop_or_error.
  eapply bind_normal.
  - eapply bind_normal; [reflexivity|]. cbv beta. rewrite Hs.
    eapply bind_normal; [apply update_status_run|done].
  - done.
Qed.

(** X11: without a temporary directory in the configuration, a run on
    valid inputs that is not stopped fails at its first step: the callbacks
    receive the first step's status and progress, the message that the
    extraction has failed and the completion with [False] and [None], and
    nothing on disk has changed. *)
Theorem missing_temp_directory_fails_run video_path output_dir fs0 :
  temp_dir_path = None ->
  stop_after = None -> fault AtExtract = false ->
  video_path <> "" -> isfile fs0 video_path = true ->
  output_dir <> "" -> isdir fs0 output_dir = true ->
  let st := run video_path output_dir (initial_state fs0) in
  fs st = fs0 /\
  events st =
    (said "Step 1/5: Extracting audio..." ++ shown 5 ++
     said "Error: Failed to extract audio." ++ [Completion false None])%list.
Proof.
  intros Hdir Hstop Hf Hv Hvf Hd Hdf st.
  assert (run_before_finally video_path output_dir (initial_state fs0) =
          logged (said "Error: Failed to extract audio.")
            (tick_read
               (set_temp_audio_original None
                  (set_uuids 0 (set_fs fs0
                     (logged (shown 5)
                        (logged (said "Step 1/5: Extracting audio...")
                           (initial_state fs0)))))))) as Hst.
  { unfold run_before_finally.
    assert (run_try video_path output_dir (initial_state fs0) =
            (Returned,
             logged (said "Error: Failed to extract audio.")
               (tick_read
                  (set_temp_audio_original None
                     (set_uuids 0 (set_fs fs0
                        (logged (shown 5)
                           (logged (said "Step 1/5: Extracting audio...")
                              (initial_state fs0))))))))) as ->; [|done].
    unfold run_try. eapply bind_normal; [reflexivity|]. cbv beta.
    cbn [fs initial_state].
    rewrite (bool_decide_eq_false_2 _ Hv), Hvf, (bool_decide_eq_false_2 _ Hd), Hdf.
    cbn [negb orb].
    eapply bind_normal; [apply update_status_run|].
    eapply bind_normal; [apply update_progress_run|].
    rewrite (at_site_run _ _ Hf).
    eapply bind_normal.
    { apply call_extract_audio_run. cbn [fs uuids logged initial_state].
      unfold extract_audio, get_temp_filepath. by rewrite Hdir. }
    eapply bind_normal; [reflexivity|].
    eapply bind_returned. by apply checked_none. }
  unfold st, run. rewrite Hst.
  match goal with |- context [run_finally ?s] =>
    destruct (run_finally_untouched s) as [Hfs Hev]; [done..|] end.
  split; [done|]. rewrite Hev. cbn [reads logged tick_read set_temp_audio_original
    set_uuids set_fs initial_state events success final_output_path].
  rewrite (stop_never _ Hstop). cbn. by rewrite <-!app_assoc.
Qed.

(** X12: a stop that is requested before the run begins is seen after the
    extraction only: the audio is extracted, the callbacks receive the two
    messages of a stop and the completion with [False] and [None], and the
    cleanup of the extracted audio is all that follows on disk. *)
Theorem early_stop_is_seen_after_extraction video_path output_dir fs0 :
  stop_after = Some 0%nat -> fault AtExtract = false ->
  video_path <> "" -> isfile fs0 video_path = true ->
  output_dir <> "" -> isdir fs0 output_dir = true ->
  let st := run video_path output_dir (initial_state fs0) in
  let '(extracted, fs1, _) := extract_audio fs0 0 video_path in
  fs st = cleanup_temp_files fs1 [extracted; None] /\
  events st =
    (said "Step 1/5: Extracting audio..." ++ shown 5 ++
     said "Processing stopped by user." ++ said "Processing stopped." ++
     [Completion false None])%list.
Proof.
  intros Hstop Hf Hv Hvf Hd Hdf st.
  destruct (extract_audio fs0 0 video_path) as [[extracted fs1] n1] eqn:Hex.
  assert (forall k, stop_requested_at k = true) as Hset.
  { intros k. unfold stop_requested_at. rewrite Hstop.
    apply bool_decide_eq_true. lia. }
  assert (run_try video_path output_dir (initial_state fs0) =
          (Returned,
           logged (said "Processing stopped by user.")
             (tick_read
                (set_temp_audio_original extracted
                   (set_uuids n1 (set_fs fs1
                      (logged (shown 5)
                         (logged (said "Step 1/5: Extracting audio...")
                            (initial_state fs0))))))))) as Htry.
  { unfold run_try. eapply bind_normal; [reflexivity|]. cbv beta.
    cbn [fs initial_state].
    rewrite (bool_decide_eq_false_2 _ Hv), Hvf, (bool_decide_eq_false_2 _ Hd), Hdf.
    cbn [negb orb].
    eapply bind_normal; [apply update_status_run|].
    eapply bind_normal; [apply update_progress_run|].
    rewrite (at_site_run _ _ Hf).
    eapply bind_normal; [by apply call_extract_audio_run|].
    eapply bind_normal; [reflexivity|].
    eapply bind_returned. by apply checked_stopped. }
  unfold st, run, run_before_finally. rewrite Htry. split.
  - by rewrite run_finally_fs.
  - unfold run_finally, is_set. rewrite Hset. cbn.
    unfold update_status, modify, said, shown.
    destruct has_status_callback, has_progress_callback; by cbn.
Qed.

End RunEdges.

Local Open Scope string_scope.

Lemma invalid_input_touches_nothing_witness :
  let env := demo_env (MuxWritten 7) heard_nothing None in
  let st := @run demo_pydub demo_os env "" "/out"
              (@initial_state demo_pydub demo_disk) in
  fs st = demo_disk /\ uuids st = 0%nat /\
  exists message,
    (message = "Error: Input video file not found or invalid." \/
     message = "Error: Output directory is invalid.") /\
    events st =
      (@said demo_pydub env message ++
       (if @stop_requested_at demo_pydub env 0
        then @said demo_pydub env "Processing stopped." else []) ++
       [Completion false None])%list.
Proof.
  intros env.
  by apply (@invalid_input_touches_nothing demo_pydub demo_os env "" "/out"
              demo_disk).
Defined.

Lemma missing_temp_directory_fails_run_witness :
  let st := @run demo_pydub demo_os no_temp_env "/in/clip.mp4" "/out"
              (@initial_state demo_pydub demo_disk) in
  fs st = demo_disk /\
  events st =
    [Status "Step 1/5: Extracting audio..."; Progress 0.05;
     Status "Error: Failed to extract audio."; Completion false None].
Proof.
  by apply (@missing_temp_directory_fails_run demo_pydub demo_os no_temp_env
              "/in/clip.mp4" "/out" demo_disk).
Defined.

Lemma early_stop_is_seen_after_extraction_witness :
  let env := demo_env (MuxWritten 7) heard_nothing (Some 0%nat) in
  events (@run demo_pydub demo_os env "/in/clip.mp4" "/out"
            (@initial_state demo_pydub demo_disk)) =
    [Status "Step 1/5: Extracting audio..."; Progress 0.05;
     Status "Processing stopped by user."; Status "Processing stopped.";
     Completion false None].
Proof.
  intros env.
  pose proof (@early_stop_is_seen_after_extraction demo_pydub demo_os env
                "/in/clip.mp4" "/out" demo_disk) as Hstop.
  destruct (@extract_audio demo_pydub demo_os env demo_disk 0 "/in/clip.mp4")
    as [[extracted fs1] n1].
  by apply Hstop.
Defined.

Local Close Scope string_scope.

(** ** The classification loop *)

Section ClassifyLoop.
Context `{Pydub} `{Os} `{!Environment}.

(** One turn of the loop. *)
Lemma classify_loop_turn num_words i item word_timestamps segments_to_censor st :
  classify_loop num_words i (item :: word_timestamps) segments_to_censor st =
  if stop_requested_at (reads st) then (Returned, tick_read st)
  else if nonempty (word item) && fault (AtClassify i)
  then (Raised UnexpectedError, tick_read st)
  else
    classify_loop num_words (S i) word_timestamps
      (if nonempty (word item) && classify_word (word item)
       then segments_to_censor ++ [(start item, end_ item)]
       else segments_to_censor)
      (if bool_decide (i `mod` 50 = 0)%nat || bool_decide (i = num_words - 1)%nat
       then logged (shown (50 + (20 * (Z.of_nat i + 1)) / Z.of_nat num_words))
              (tick_read st)
       else tick_read st).
Proof.
  cbn [classify_loop]. unfold mbind at 1, M_bind at 1, is_set.
  destruct (stop_requested_at (reads st)); [done|].
  unfold mbind at 1, M_bind at 1.
  destruct (nonempty (word item)); cbn [andb].
  - unfold at_site. destruct (fault (AtClassify i)); [done|].
    unfold mbind, M_bind, mret, M_ret. cbv beta iota.
    destruct (_ || _); [|done]. by rewrite update_progress_run.
  - unfold mbind, M_bind, mret, M_ret. cbv beta iota.
    destruct (_ || _); [|done]. by rewrite update_progress_run.
Qed.

Lemma flagged_cons item word_timestamps :
  flagged (item :: word_timestamps) =
  (if nonempty (word item) && classify_word (word item)
   then [(start item, end_ item)] else []) ++ flagged word_timestamps.
Proof.
  unfold flagged. rewrite filter_cons.
  destruct (nonempty (word item) && classify_word (word item)).
  - by rewrite decide_True.
  - by rewrite decide_False.
Qed.

(** X13: when the classification loop comes to its end, the segments it
    has collected are the segments it began with followed by the intervals
    of the words that are not empty and that [classify_word] flags, in the
    order of the words; it has read the stop event once for each word, and
    left the files as they were. Unless a stop is requested or the
    classifier raises, it does come to its end. *)
Theorem classify_loop_collects_flagged num_words i word_timestamps
    segments_to_censor st :
  (forall segments st',
     classify_loop num_words i word_timestamps segments_to_censor st =
       (Normal segments, st') ->
     segments = segments_to_censor ++ flagged word_timestamps /\
     fs st' = fs st /\ reads st' = (reads st + length word_timestamps)%nat) /\
  (stop_after = None ->
   (forall j, fault (AtClassify j) = false) ->
   exists st',
     classify_loop num_words i word_timestamps segments_to_censor st =
       (Normal (segments_to_censor ++ flagged word_timestamps), st')).
Proof.
  revert i segments_to_censor st.
  induction word_timestamps as [|item items IH]; intros i acc st.
  { split.
    - intros segments st' [= <- <-]. rewrite app_nil_r. by rewrite Nat.add_0_r.
    - intros _ _. exists st. cbn. by rewrite app_nil_r. }
  rewrite classify_loop_turn, flagged_cons. split.
  - intros segments st'.
    destruct (stop_requested_at (reads st)); [done|].
    destruct (nonempty (word item) && fault (AtClassify i)); [done|].
    intros Hloop. apply IH in Hloop as (-> & Hfs & Hreads).
    split; [|split].
    + destruct (_ && _); by rewrite <-?app_assoc, ?app_nil_r.
    + rewrite Hfs. by destruct (_ || _).
    + rewrite Hreads. cbn [length]. destruct (_ || _); cbn; lia.
  - intros Hstop Hfault. rewrite (stop_never _ Hstop), Hfault, andb_false_r.
    match goal with |- context [classify_loop _ _ _ ?acc' ?st1] =>
      destruct (IH (S i) acc' st1) as [_ Hex] end.
    destruct (Hex Hstop Hfault) as [st' ->]. exists st'.
    destruct (_ && _); by rewrite <-?app_assoc, ?app_nil_r.
Qed.

End ClassifyLoop.

(** ** workflow.py: the progress values *)

Lemma progress_float_table :
  forallb (fun a =>
    forallb (fun b => implb (a <=? b)
                        (progress_float a <=? progress_float b)%float)
      (Z.of_nat <$> seq 0 101)
    && (0 <=? progress_float a)%float && (progress_float a <=? 1)%float)
    (Z.of_nat <$> seq 0 101) = true.
Proof. by vm_compute. Qed.

Lemma percentage_listed a : 0 <= a <= 100 -> In a (Z.of_nat <$> seq 0 101).
Proof.
  intros Ha. apply list_elem_of_In, list_elem_of_fmap.
  exists (Z.to_nat a). split; [lia|]. apply elem_of_seq. lia.
Qed.

Lemma progress_float_mono a b :
  0 <= a -> a <= b -> b <= 100 ->
  (progress_float a <=? progress_float b)%float = true.
Proof.
  intros Ha Hab Hb. pose proof progress_float_table as Ht.
  rewrite forallb_forall in Ht.
  specialize (Ht a (percentage_listed a ltac:(lia))).
  apply andb_true_iff in Ht as [[Ht _]%andb_true_iff _].
  rewrite forallb_forall in Ht.
  specialize (Ht b (percentage_listed b ltac:(lia))).
  by rewrite (proj2 (Z.leb_le a b) Hab) in Ht.
Qed.

Lemma progress_float_range a :
  0 <= a <= 100 ->
  (0 <=? progress_float a)%float = true /\ (progress_float a <=? 1)%float = true.
Proof.
  intros Ha. pose proof progress_float_table as Ht.
  rewrite forallb_forall in Ht.
  specialize (Ht a (percentage_listed a Ha)).
  by apply andb_true_iff in Ht as [[_ ?]%andb_true_iff ?].
Qed.

Section Progress.
Context `{Pydub} `{Os} `{!Environment}.

Lemma progress_values_app evs1 evs2 :
  progress_values (evs1 ++ evs2) = progress_values evs1 ++ progress_values evs2.
Proof. apply omap_app. Qed.

Lemma np_ret {A} (a : A) : no_progress (mret a).
Proof. done. Qed.

Lemma np_bind {A B} (m : M A) (f : A -> M B) :
  no_progress m -> (forall a, no_progress (f a)) -> no_progress (m ≫= f).
Proof.
  intros Hm Hf st. specialize (Hm st). unfold mbind, M_bind.
  destruct (m st) as [[a| |e] st']; simpl in *; [|done..].
  by rewrite Hf.
Qed.

Lemma np_same {A} (m : M A) :
  (forall st, events (snd (m st)) = events st) -> no_progress m.
Proof. intros Hm st. by rewrite Hm. Qed.

Lemma np_early_return {A} : no_progress (@early_return _ A).
Proof. done. Qed.

Lemma np_raise {A} e : no_progress (@raise _ A e).
Proof. done. Qed.

Lemma np_get : no_progress get.
Proof. done. Qed.

Lemma np_is_set : no_progress is_set.
Proof. done. Qed.

Lemma np_update_status message : no_progress (update_status message).
Proof.
  intros st. unfold update_status, modify. cbn.
  destruct has_status_callback; [|done]. cbn.
  rewrite progress_values_app. cbn. by rewrite app_nil_r.
Qed.

Lemma np_at_site {A} s (m : M A) : no_progress m -> no_progress (at_site s m).
Proof. intros Hm. unfold at_site. by destruct (fault s). Qed.

Lemma np_if {A} (b : bool) (m1 m2 : M A) :
  no_progress m1 -> no_progress m2 -> no_progress (if b then m1 else m2).
Proof. by destruct b. Qed.

Ltac np_step :=
  first
    [ apply np_bind; [|intros ?]
    | apply np_ret
    | apply np_update_status
    | apply np_is_set
    | apply np_get
    | apply np_early_return
    | apply np_raise
    | apply np_at_site
    | apply np_if
    | (apply np_same; intros ?; reflexivity) ].

Lemma np_checked {A} (truthy : A -> bool) result message check_none :
  no_progress (checked truthy result message check_none).
Proof.
  unfold checked, check_stop_or_error.
  apply np_bind; [repeat np_step|].
  intros stop. destruct stop, result; repeat np_step.
Qed.

Lemma np_call_extract_audio video_path : no_progress (call_extract_audio video_path).
Proof.
  apply np_same. intros st. unfold call_extract_audio.
  by destruct (extract_audio _ _ _) as [[r fs'] n].
Qed.

Lemma np_call_transcribe_audio audio_path :
  no_progress (call_transcribe_audio audio_path).
Proof.
  unfold call_transcribe_audio. destruct (transcribe_audio _) as [r said].
  induction said as [|message said IH]; simpl; repeat np_step. done.
Qed.

Lemma np_call_get_temp_filepath suffix : no_progress (call_get_temp_filepath suffix).
Proof.
  apply np_same. intros st. unfold call_get_temp_filepath.
  by destruct (get_temp_filepath _ _) as [r n].
Qed.

Lemma np_call_censor_audio src segs out : no_progress (call_censor_audio src segs out).
Proof.
  apply np_same. intros st. unfold call_censor_audio.
  by destruct (censor_audio _ _ _ _ _) as [fs' r].
Qed.

Lemma np_call_reassemble_video video audio out :
  no_progress (call_reassemble_video video audio out).
Proof.
  apply np_same. intros st. unfold call_reassemble_video.
  by destruct (reassemble_video _ _ _ _) as [ok fs'].
Qed.

Ltac solve_np :=
  solve [repeat first
    [ apply np_checked | apply np_call_extract_audio
    | apply np_call_transcribe_audio | apply np_call_get_temp_filepath
    | apply np_call_censor_audio | apply np_call_reassemble_video
    | np_step ]].

(** *** Stages *)

Lemma staged_same b st st' :
  progress_values (events st') = progress_values (events st) ->
  staged b st -> staged b st'.
Proof. intros E (Hb & vs & Hvs & Hr & Hs). split; [done|]. exists vs. by rewrite E. Qed.

Lemma staged_mono b b' st : b <= b' <= 100 -> staged b st -> staged b' st.
Proof.
  intros Hb (Hb0 & vs & Hvs & Hr & Hs). split; [lia|]. exists vs.
  split; [done|]. split; [|done].
  eapply Forall_impl; [done|]. intros v ?. cbn in *. lia.
Qed.

Lemma staged_progress b v st :
  b <= v <= 100 -> staged b st ->
  staged v (emit (Progress (progress_float v)) st).
Proof.
  intros Hv (Hb & vs & Hvs & Hr & Hs). split; [lia|]. exists (vs ++ [v]).
  split; [|split].
  - cbn. by rewrite progress_values_app, Hvs, fmap_app.
  - apply Forall_app. split; [|constructor; [lia|done]].
    eapply Forall_impl; [done|]. intros ??. cbn in *. lia.
  - intros i j x y Hij Hx Hy.
    destruct (decide (j < length vs)%nat) as [Hj|Hj].
    + rewrite lookup_app_l in Hx, Hy by lia. exact (Hs i j x y Hij Hx Hy).
    + rewrite lookup_app_r in Hy by lia.
      apply list_lookup_singleton_Some in Hy as [_ <-].
      destruct (decide (i < length vs)%nat) as [Hi|Hi].
      * rewrite lookup_app_l in Hx by lia.
        rewrite Forall_lookup in Hr. specialize (Hr _ _ Hx). cbn in Hr. lia.
      * rewrite lookup_app_r in Hx by lia.
        by apply list_lookup_singleton_Some in Hx as [_ <-].
Qed.

Lemma staged_shown b v st :
  b <= v <= 100 -> staged b st -> staged v (logged (shown v) st).
Proof.
  intros Hv Hst. unfold shown. destruct has_progress_callback.
  - by apply (staged_progress b).
  - rewrite logged_nil. by apply (staged_mono b).
Qed.

Lemma adv_bind {A B} b b1 b2 (m : M A) (f : A -> M B) :
  b1 <= b2 <= 100 ->
  advances b b1 m -> (forall a, advances b1 b2 (f a)) ->
  advances b b2 (m ≫= f).
Proof.
  intros Hb Hm Hf st Hst. specialize (Hm st Hst). unfold mbind, M_bind.
  destruct (m st) as [[a| |e] st']; simpl in *;
    [by apply Hf|by apply (staged_mono b1)..].
Qed.

Lemma adv_quiet {A} b b' (m : M A) :
  b <= b' <= 100 -> no_progress m -> advances b b' m.
Proof.
  intros Hb Hm st Hst. apply (staged_mono b); [done|].
  by apply (staged_same b st).
Qed.

Lemma adv_bind_quiet {A B} b b' (m : M A) (f : A -> M B) :
  b <= b' <= 100 ->
  no_progress m -> (forall a, advances b b' (f a)) -> advances b b' (m ≫= f).
Proof.
  intros Hb Hm Hf. apply (adv_bind b b b'); [done| |done].
  intros st Hst. by apply (staged_same b st).
Qed.

Lemma adv_update_progress b v : b <= v <= 100 -> advances b v (update_progress v).
Proof.
  intros Hv st Hst. rewrite update_progress_run. by apply (staged_shown b).
Qed.

Lemma adv_bind_progress {B} b b' v (f : unit -> M B) :
  b <= v -> v <= b' <= 100 ->
  (forall u, advances v b' (f u)) -> advances b b' (update_progress v ≫= f).
Proof.
  intros Hb Hv Hf. apply (adv_bind b v b'); [done| |done].
  apply adv_update_progress. lia.
Qed.

Lemma adv_if {A} (c : bool) b b' (m1 m2 : M A) :
  advances b b' m1 -> advances b b' m2 -> advances b b' (if c then m1 else m2).
Proof. by destruct c. Qed.

(** The loop reports percentages that grow from 50 to 70. *)
Lemma adv_classify_loop num_words i word_timestamps segments_to_censor :
  (i + length word_timestamps = num_words)%nat ->
  advances (50 + (20 * Z.of_nat i) / Z.of_nat num_words) 70
    (classify_loop num_words i word_timestamps segments_to_censor).
Proof.
  revert i segments_to_censor.
  induction word_timestamps as [|item items IH]; intros i acc Hn.
  { apply adv_quiet; [|apply np_ret]. cbn in Hn.
    assert (i = num_words) as -> by lia.
    destruct (decide (num_words = 0%nat)) as [->|]; [done|].
    rewrite Z.div_mul by lia. lia. }
  cbn [length] in Hn.
  assert (0 < Z.of_nat num_words) by lia.
  assert ((20 * Z.of_nat i) / Z.of_nat num_words
          <= (20 * (Z.of_nat i + 1)) / Z.of_nat num_words)
    by (apply Z.div_le_mono; lia).
  assert ((20 * (Z.of_nat i + 1)) / Z.of_nat num_words <= 20)
    by (apply Z.div_le_upper_bound; lia).
  assert (0 <= (20 * Z.of_nat i) / Z.of_nat num_words)
    by (apply Z.div_pos; lia).
  intros st Hst. rewrite classify_loop_turn.
  destruct (stop_requested_at (reads st)).
  { apply (staged_mono (50 + (20 * Z.of_nat i) / Z.of_nat num_words)); [lia|].
    by apply (staged_same _ st). }
  destruct (nonempty (word item) && fault (AtClassify i)).
  { apply (staged_mono (50 + (20 * Z.of_nat i) / Z.of_nat num_words)); [lia|].
    by apply (staged_same _ st). }
  apply (IH (S i)); [lia|].
  replace (Z.of_nat (S i)) with (Z.of_nat i + 1) by lia.
  destruct (_ || _).
  - apply (staged_shown (50 + (20 * Z.of_nat i) / Z.of_nat num_words)); [lia|].
    by apply (staged_same _ st).
  - apply (staged_mono (50 + (20 * Z.of_nat i) / Z.of_nat num_words)); [lia|].
    by apply (staged_same _ st).
Qed.

Ltac adv_step :=
  first
    [ apply adv_bind_progress; [lia|lia|intros ?]
    | apply adv_bind_quiet; [lia|solve_np|intros ?]
    | apply adv_if
    | apply adv_update_progress; lia
    | apply adv_quiet; [lia|solve_np] ].

Lemma adv_run_try video_path output_dir :
  advances 0 100 (run_try video_path output_dir).
Proof.
  unfold run_try. repeat adv_step.
  apply (adv_bind 50 70 100); [lia| |intros ?].
  { apply adv_if; [apply adv_quiet; [lia|apply np_ret]|].
    by apply (adv_classify_loop _ 0). }
  repeat adv_step.
Qed.

Lemma staged_initial fs0 : staged 0 (initial_state fs0).
Proof.
  split; [lia|]. exists []. split; [done|]. split; [done|].
  by intros i j x y _ ?.
Qed.

Lemma staged_run video_path output_dir fs0 :
  staged 100 (run video_path output_dir (initial_state fs0)).
Proof.
  pose proof (adv_run_try video_path output_dir _ (staged_initial fs0)) as Htry.
  assert (staged 100 (run_before_finally video_path output_dir (initial_state fs0)))
    as Hbefore.
  { unfold run_before_finally.
    destruct (run_try _ _ _) as [[[]| |e] st]; cbn [snd] in Htry; [done..|].
    unfold run_except. apply (staged_same 100 st); [|done].
    apply (np_bind _ (fun _ => modify (set_success false))).
    - apply np_update_status.
    - intros _. by apply np_same. }
  unfold run. revert Hbefore.
  generalize (run_before_finally video_path output_dir (initial_state fs0)).
  intros st Hst. apply (staged_same 100 st); [|done].
  unfold run_finally, is_set. cbn.
  destruct (stop_requested_at (reads st)); cbn.
  - unfold update_status, modify. cbn.
    destruct has_status_callback; cbn;
      rewrite !progress_values_app; cbn; by rewrite ?app_nil_r.
  - rewrite progress_values_app. cbn. by rewrite app_nil_r.
Qed.

(** X14: in every run, the values the progress callback receives lie
    between 0.0 and 1.0, and none is smaller than one it has received
    before. *)
Theorem progress_never_decreases video_path output_dir fs0 :
  let values :=
    progress_values (events (run video_path output_dir (initial_state fs0))) in
  Forall (fun value => (0 <=? value)%float = true /\
                       (value <=? 1)%float = true) values /\
  never_decreases values.
Proof.
  intros values.
  destruct (staged_run video_path output_dir fs0) as (_ & vs & Hvs & Hr & Hs).
  fold values in Hvs. rewrite Hvs. split.
  - apply Forall_fmap. eapply Forall_impl; [done|].
    intros v Hv. by apply progress_float_range.
  - intros i j x y Hij.
    rewrite !list_lookup_fmap.
    destruct (vs !! i) as [a|] eqn:Ha; [|done].
    destruct (vs !! j) as [b|] eqn:Hb; [|done].
    intros [= <-] [= <-].
    rewrite Forall_lookup in Hr.
    pose proof (Hr _ _ Ha). pose proof (Hr _ _ Hb). cbn in *.
    apply progress_float_mono; [lia| |lia]. by eapply Hs.
Qed.

End Progress.

(** ** workflow.py: what success means *)

Section SuccessFacts.
Context `{Pydub} `{Os} `{!Environment}.

Lemma ks_reports {A} (m : M A) : reports m -> keeps_success m.
Proof. intros Hm st. by destruct (Hm st) as (_ & _ & _ & _ & ? & _). Qed.

Lemma ks_bind {A B} (m : M A) (f : A -> M B) :
  keeps_success m -> (forall a, keeps_success (f a)) -> keeps_success (m ≫= f).
Proof.
  intros Hm Hf st. specialize (Hm st). unfold mbind, M_bind.
  destruct (m st) as [[a| |e] st']; simpl in *; [|done..].
  by rewrite Hf.
Qed.

Lemma ks_at_site {A} s (m : M A) : keeps_success m -> keeps_success (at_site s m).
Proof. intros Hm. unfold at_site. by destruct (fault s). Qed.

Lemma ks_call_extract_audio video_path : keeps_success (call_extract_audio video_path).
Proof.
  intros st. unfold call_extract_audio.
  by destruct (extract_audio _ _ _) as [[r fs'] n].
Qed.

Lemma ks_call_get_temp_filepath suffix : keeps_success (call_get_temp_filepath suffix).
Proof.
  intros st. unfold call_get_temp_filepath.
  by destruct (get_temp_filepath _ _) as [r n].
Qed.

Lemma ks_call_censor_audio src segs out : keeps_success (call_censor_audio src segs out).
Proof.
  intros st. unfold call_censor_audio.
  by destruct (censor_audio _ _ _ _ _) as [fs' r].
Qed.

Ltac solve_ks :=
  solve
    [ apply ks_at_site;
      first [ apply ks_call_extract_audio | apply ks_call_get_temp_filepath
            | apply ks_call_censor_audio
            | apply ks_reports, reports_call_transcribe_audio ]
    | by intros ?
    | apply ks_reports;
      repeat first
        [ apply reports_checked | apply reports_call_transcribe_audio
        | apply reports_classify_loop
        | apply reports_bind; [|intros ?]
        | apply reports_ret
        | apply reports_update_status
        | apply reports_update_progress
        | apply reports_is_set
        | apply reports_early_return
        | apply reports_raise
        | apply reports_at_site
        | apply reports_if ] ].

Lemma unsuccessful_has_output (st : state) : success st = false -> success_has_output st.
Proof. intros Hs. unfold success_has_output. by rewrite Hs. Qed.

(** Past a step that leaves [success] false. *)
Lemma wp_keeps {A B} (m : M A) (f : A -> M B) (st : state) :
  keeps_success m ->
  success st = false ->
  (forall a st', success st' = false ->
     wp (f a) (fun _ => success_has_output) success_has_output st') ->
  wp (m ≫= f) (fun _ => success_has_output) success_has_output st.
Proof.
  intros Hm Hs Hf. apply wp_bind. unfold wp at 1. specialize (Hm st).
  destruct (m st) as [[a| |e] st']; cbn [snd] in Hm.
  - apply Hf. congruence.
  - apply unsuccessful_has_output. congruence.
  - apply unsuccessful_has_output. congruence.
Qed.

Lemma wp_keeps_end {A} (m : M A) (st : state) :
  keeps_success m ->
  success st = false ->
  wp m (fun _ => success_has_output) success_has_output st.
Proof.
  intros Hm Hs. unfold wp. specialize (Hm st).
  destruct (m st) as [[a| |e] st']; cbn [snd] in Hm;
    apply unsuccessful_has_output; congruence.
Qed.

Lemma next_free_path_nonempty (fs0 : filesystem) output_dir base_name fuel counter path :
  path <> ""%string ->
  next_free_path fs0 output_dir base_name fuel counter path <> ""%string.
Proof.
  revert counter path. induction fuel as [|fuel IH]; intros counter path Hp; [done|].
  cbn. destruct (exists_ fs0 path); [|done].
  apply IH. unfold output_name. apply path_join_nonempty.
  by destruct base_name.
Qed.

Lemma unique_output_path_nonempty (fs0 : filesystem) output_dir base_name :
  unique_output_path fs0 output_dir base_name <> ""%string.
Proof.
  apply next_free_path_nonempty, path_join_nonempty. by destruct base_name.
Qed.

Ltac keep := apply wp_keeps; [solve_ks|done|intros ? ? ?].

Lemma run_try_success_has_output video_path output_dir fs0 :
  wp (run_try video_path output_dir) (fun _ => success_has_output)
    success_has_output (initial_state fs0).
Proof.
  unfold run_try. apply wp_bind, wp_get.
  apply wp_if; intros _; [by apply wp_keeps_end; [solve_ks|]|].
  apply wp_if; intros _; [by apply wp_keeps_end; [solve_ks|]|].
  assert (success (initial_state fs0) = false) as Hs by done.
  revert Hs. generalize (initial_state fs0). intros st Hs.
  do 14 keep.
  apply wp_if; intros _; [by apply wp_keeps_end; [solve_ks|]|].
  do 8 keep.
  apply wp_bind, wp_get. apply wp_bind, wp_modify.
  match goal with |- context [unique_output_path ?fs2 _ _] =>
    set (final := unique_output_path fs2 output_dir (stem video_path)) end.
  apply wp_bind, wp_at_site; intros _; [by apply unsuccessful_has_output|].
  unfold wp at 1, call_reassemble_video. cbn [fs set_final_output_path].
  match goal with |- context [reassemble_video ?fs2 ?v ?a final] =>
    pose proof (reassemble_video_true fs2 v a final) as Hout;
    destruct (reassemble_video fs2 v a final) as [ok fs3] end.
  cbn [fst snd] in Hout.
  apply wp_if; intros Hok; [by apply wp_keeps_end; [solve_ks|]|].
  apply negb_false_iff in Hok. specialize (Hout Hok).
  apply wp_bind, wp_is_set.
  apply wp_if; intros _; [by apply wp_keeps_end; [solve_ks|]|].
  apply wp_bind. unfold wp at 1. rewrite update_status_run.
  apply wp_bind. unfold wp at 1. rewrite update_progress_run.
  apply wp_modify. intros _. exists final. cbn.
  split; [done|]. split; [apply unique_output_path_nonempty|done].
Qed.

Lemma run_finally_last (st : state) :
  last (events (run_finally st)) =
    Some (if stop_requested_at (reads st) then Completion false None
          else Completion (success st) (final_output_path st)).
Proof.
  unfold run_finally, is_set. cbn.
  destruct (stop_requested_at (reads st)); cbn [events emit];
    by rewrite last_snoc.
Qed.

(** X15: when the completion callback receives [True], the path it
    receives with it is not [None] and not empty, and at the end of the run
    there is a file at that path. *)
Theorem reported_success_has_output video_path output_dir fs0 :
  let st := run video_path output_dir (initial_state fs0) in
  forall p, last (events st) = Some (Completion true p) ->
    exists path, p = Some path /\ path <> ""%string /\
                 exists_ (fs st) path = true.
Proof.
  intros st p Hlast.
  pose proof (run_try_success_has_output video_path output_dir fs0) as Htry.
  assert (success_has_output
            (run_before_finally video_path output_dir (initial_state fs0)))
    as Hbefore.
  { unfold run_before_finally. unfold wp in Htry.
    destruct (run_try _ _ _) as [[[]| |e] st1]; [done..|].
    apply unsuccessful_has_output. unfold run_except, update_status, modify.
    cbn. by destruct has_status_callback. }
  pose proof (run_keeps_output video_path output_dir fs0) as Hkept.
  unfold st in *. unfold run in Hlast. rewrite run_finally_last in Hlast.
  destruct (stop_requested_at _); [done|]. injection Hlast as Hs <-.
  destruct (Hbefore Hs) as (path & Hp & Hne & Hex).
  exists path. split; [done|]. split; [done|].
  unfold exists_ in *. by rewrite (Hkept _ Hp).
Qed.

End SuccessFacts.

Local Open Scope string_scope.

Lemma reported_success_has_output_witness :
  let st := demo_run (demo_env (MuxWritten 7) heard_nothing None) in
  last (events st) = Some (Completion true (Some "/out/clip_censored.mp4")) /\
  exists path,
    Some "/out/clip_censored.mp4" = Some path /\ path <> "" /\
    @exists_ demo_pydub (fs st) path = true.
Proof.
  intros st.
  assert (last (events st) = Some (Completion true (Some "/out/clip_censored.mp4")))
    as Hlast by (unfold st; by rewrite demo_run_events).
  split; [done|].
  by apply (@reported_success_has_output demo_pydub demo_os
              (demo_env (MuxWritten 7) heard_nothing None)
              "/in/clip.mp4" "/out" demo_disk).
Defined.

Local Close Scope string_scope.

(** ** classification_processor.py: strings *)

Local Open Scope string_scope.

Lemma append_cons c (p s : string) : String c p +:+ s = String c (p +:+ s).
Proof. done. Qed.

Lemma append_nil (s : string) : "" +:+ s = s.
Proof. done. Qed.

Lemma lstrip_by_app_l f p s :
  (forall c, c ∈ list_ascii_of_string p -> f c = true) ->
  lstrip_by f (p +:+ s) = lstrip_by f s.
Proof.
  induction p as [|c p IH]; intros Hp; [done|].
  rewrite append_cons. cbn. rewrite (Hp c) by (cbn; left). apply IH.
  intros c' Hc'. apply Hp. cbn. by right.
Qed.

Lemma rstrip_by_all f p :
  (forall c, c ∈ list_ascii_of_string p -> f c = true) ->
  rstrip_by f p = "".
Proof.
  induction p as [|c p IH]; intros Hp; [done|].
  cbn. rewrite IH by (intros c' Hc'; apply Hp; cbn; by right).
  rewrite (Hp c) by (cbn; left). done.
Qed.

Lemma lstrip_by_all f p :
  (forall c, c ∈ list_ascii_of_string p -> f c = true) ->
  lstrip_by f p = "".
Proof.
  induction p as [|c p IH]; intros Hp; [done|].
  cbn. rewrite (Hp c) by (cbn; left). apply IH.
  intros c' Hc'. apply Hp. cbn. by right.
Qed.

Lemma rstrip_by_app_r f s p :
  (forall c, c ∈ list_ascii_of_string p -> f c = true) ->
  rstrip_by f (s +:+ p) = rstrip_by f s.
Proof.
  intros Hp. induction s as [|c s IH].
  - by apply rstrip_by_all.
  - rewrite append_cons. cbn. by rewrite IH.
Qed.

Lemma strip_by_app f p1 s p2 :
  (forall c, c ∈ list_ascii_of_string p1 -> f c = true) ->
  (forall c, c ∈ list_ascii_of_string p2 -> f c = true) ->
  rstrip_by f (lstrip_by f (p1 +:+ s +:+ p2)) = rstrip_by f (lstrip_by f s).
Proof.
  intros Hp1 Hp2. rewrite lstrip_by_app_l by done.
  induction s as [|c s IH].
  - rewrite append_nil. by rewrite lstrip_by_all.
  - rewrite append_cons. cbn [lstrip_by]. destruct (f c); [done|].
    apply (rstrip_by_app_r f (String c s) p2 Hp2).
Qed.

Lemma str_lower_empty s : str_lower s = "" <-> s = "".
Proof. by destruct s. Qed.

Lemma str_lower_lstrip_by f s :
  (forall c, f (lower_char c) = f c) ->
  str_lower (lstrip_by f s) = lstrip_by f (str_lower s).
Proof.
  intros Hf. induction s as [|c s IH]; [done|].
  cbn. rewrite Hf. by destruct (f c).
Qed.

Lemma str_lower_rstrip_by f s :
  (forall c, f (lower_char c) = f c) ->
  str_lower (rstrip_by f s) = rstrip_by f (str_lower s).
Proof.
  intros Hf. induction s as [|c s IH]; [done|].
  cbn. rewrite <-IH, Hf.
  destruct (decide (rstrip_by f s = "")) as [E|E].
  - rewrite E. cbn. by destruct (f c).
  - rewrite !bool_decide_eq_false_2; [done| |done].
    by rewrite str_lower_empty.
Qed.

Lemma isspace_lower_char c : isspace (lower_char c) = isspace c.
Proof. by destruct c as [[] [] [] [] [] [] [] []]. Qed.

Lemma punctuation_lower_char c :
  bool_decide (lower_char c ∈ classification_processor.punctuation) =
  bool_decide (c ∈ classification_processor.punctuation).
Proof. by destruct c as [[] [] [] [] [] [] [] []]; vm_compute. Qed.

Lemma lstrip_by_idemp f s : lstrip_by f (lstrip_by f s) = lstrip_by f s.
Proof.
  induction s as [|c s IH]; [done|]. cbn.
  destruct (f c) eqn:E; [done|]. cbn. by rewrite E.
Qed.

Lemma rstrip_by_idemp f s : rstrip_by f (rstrip_by f s) = rstrip_by f s.
Proof.
  induction s as [|c s IH]; [done|]. cbn [rstrip_by].
  destruct (f c) eqn:Ec; rewrite ?andb_true_r, ?andb_false_r.
  - case_bool_decide as E; [done|]. cbn [rstrip_by].
    rewrite IH, Ec, andb_true_r. by rewrite bool_decide_eq_false_2.
  - cbn [rstrip_by]. by rewrite IH, Ec, andb_false_r.
Qed.

(** Stripping on the right keeps what stripping on the left has left. *)
Lemma lstrip_by_rstrip_by f s :
  lstrip_by f (rstrip_by f (lstrip_by f s)) = rstrip_by f (lstrip_by f s).
Proof.
  induction s as [|c s IH]; [done|]. cbn [lstrip_by].
  destruct (f c) eqn:E; [done|].
  cbn. rewrite E, andb_false_r. cbn. by rewrite E.
Qed.

Lemma strip_by_idemp f s :
  rstrip_by f (lstrip_by f (rstrip_by f (lstrip_by f s))) =
  rstrip_by f (lstrip_by f s).
Proof. by rewrite lstrip_by_rstrip_by, rstrip_by_idemp. Qed.

Lemma str_strip_idemp s : str_strip (str_strip s) = str_strip s.
Proof. apply strip_by_idemp. Qed.

Lemma nonempty_true s : nonempty s = true <-> s <> "".
Proof. unfold nonempty. by rewrite negb_true_iff, bool_decide_eq_false. Qed.

Lemma nonempty_str_lower s : nonempty (str_lower s) = nonempty s.
Proof. by destruct s. Qed.

(** ** classification_processor.py: the preprocessing *)

Section ClassifierFacts.
Import classification_processor.
Context `{Transformers}.

Lemma made_of_elem chars s c :
  made_of chars s -> c ∈ list_ascii_of_string s ->
  bool_decide (c ∈ chars) = true.
Proof.
  unfold made_of. rewrite Forall_forall. intros Hs Hc.
  apply bool_decide_eq_true. by apply Hs.
Qed.

Lemma processed_app p1 w p2 :
  made_of punctuation p1 -> made_of punctuation p2 ->
  processed (p1 +:+ w +:+ p2) = processed w.
Proof.
  intros Hp1 Hp2. unfold processed, str_strip_chars.
  rewrite strip_by_app; eauto using made_of_elem.
Qed.

(** The preprocessing sees the word in lower case only. *)
Lemma processed_lower w :
  processed w = str_strip (str_strip_chars punctuation (str_lower w)).
Proof.
  unfold processed, str_strip, str_strip_chars.
  rewrite (str_lower_rstrip_by isspace), (str_lower_lstrip_by isspace)
    by apply isspace_lower_char.
  by rewrite str_lower_rstrip_by, str_lower_lstrip_by
    by (intros c; apply punctuation_lower_char).
Qed.

Lemma keyword_mode_not_model :
  is_string (get "classification_mode" (JString "keyword")) "keyword" = true ->
  is_string (get "classification_mode" (JString "keyword")) "model" = false.
Proof.
  destruct (get _ _); cbn; try done.
  rewrite bool_decide_eq_true. by intros ->.
Qed.

Lemma classify_word_cached keywords w g :
  is_string (get "classification_mode" (JString "keyword")) "keyword" = true ->
  _keyword_list g = Some keywords ->
  classify_word w g = (Ok (keyword_verdict keywords w), g).
Proof.
  intros Hmode Hg. unfold classify_word, keyword_verdict.
  destruct (nonempty w); [|done]. cbn.
  destruct (nonempty (processed w)); [|done]. cbn.
  rewrite (keyword_mode_not_model Hmode), Hmode.
  unfold load_keyword_list. rewrite Hmode, Hg. cbn.
  case_bool_decide as E; [|done].
  rewrite E. by f_equal.
Qed.

Lemma classify_word_first w g :
  is_string (get "classification_mode" (JString "keyword")) "keyword" = true ->
  _keyword_list g = None ->
  exists g',
    classify_word w g = (Ok (keyword_verdict file_keywords w), g') /\
    (_keyword_list g' = None \/ _keyword_list g' = Some file_keywords).
Proof.
  intros Hmode Hg. unfold classify_word, keyword_verdict.
  destruct (nonempty w); cbn; [|exists g; by auto].
  destruct (nonempty (processed w)); cbn; [|exists g; by auto].
  rewrite (keyword_mode_not_model Hmode), Hmode.
  unfold load_keyword_list. rewrite Hmode, Hg. cbn.
  fold file_keywords. eexists. split.
  - case_bool_decide as E; [|done]. rewrite E. by f_equal.
  - by right.
Qed.

Lemma classify_words_cached keywords words g :
  is_string (get "classification_mode" (JString "keyword")) "keyword" = true ->
  _keyword_list g = Some keywords ->
  classify_words words g = (Ok (keyword_verdict keywords <$> words), g).
Proof.
  intros Hmode Hg. induction words as [|w words IH]; [done|].
  cbn. by rewrite (classify_word_cached keywords), IH.
Qed.


Lemma classify_words_first words g :
  is_string (get "classification_mode" (JString "keyword")) "keyword" = true ->
  _keyword_list g = None ->
  fst (classify_words words g) = Ok (keyword_verdict file_keywords <$> words).
Proof.
  intros Hmode. revert g. induction words as [|w words IH]; intros g Hg; [done|].
  cbn. destruct (classify_word_first w g Hmode Hg) as (g' & -> & [Hg'|Hg']).
  - specialize (IH g' Hg'). destruct (classify_words words g') as [[bs|e] g''];
      cbn in *; congruence.
  - by rewrite (classify_words_cached file_keywords).
Qed.

Lemma file_keywords_elem k :
  k ∈ file_keywords <->
  exists content line,
    read_text (get "keyword_file" (JString "keywords.txt")) = Text content /\
    line ∈ readlines content /\
    str_strip line <> "" /\
    String.prefix "#" (str_strip line) = false /\
    k = str_lower (str_strip line).
Proof.
  unfold file_keywords.
  destruct (read_text _) as [| |content].
  1,2: split; [set_solver|by intros (? & ? & ? & _)].
  unfold keywords_from_file.
  rewrite elem_of_list_to_set, list_elem_of_omap. split.
  - intros (line & Hline & Hk). exists content, line.
    destruct (nonempty (str_strip line)) eqn:Hne; [|done].
    destruct (String.prefix "#" (str_strip line)) eqn:Hc; [done|].
    cbn in Hk. injection Hk as <-. by apply nonempty_true in Hne.
  - intros (? & line & [= <-] & Hline & Hne & Hc & ->). exists line.
    split; [done|]. apply nonempty_true in Hne. by rewrite Hne, Hc.
Qed.

Lemma nonempty_app (p1 w p2 : string) :
  nonempty w = true -> nonempty (p1 +:+ w +:+ p2) = true.
Proof.
  intros Hw%nonempty_true. apply nonempty_true.
  intros E. apply (f_equal String.length) in E.
  rewrite !string_length_app in E. destruct w; [done|]. cbn in E. lia.
Qed.

Lemma classify_word_loaded_state w g pipeline :
  is_string (get "classification_mode" (JString "keyword")) "model" = true ->
  _classifier_pipeline g = Some pipeline ->
  snd (classify_word w g) = g.
Proof.
  intros Hmode Hg. unfold classify_word.
  destruct (nonempty w); [|done]. destruct (nonempty (processed w)); [|done].
  cbn [negb]. rewrite Hmode.
  unfold load_classification_model. rewrite Hmode, Hg. cbn.
  destruct (py_float _) as [threshold|[]]; try done;
    destruct (truthy _); cbn; try done; by destruct (pipeline _).
Qed.

(** X16: the punctuation that [classify_word] strips does not count: with
    any of its characters before and after a word, the result and the
    globals are those for the word alone. *)
Theorem classify_word_ignores_punctuation p1 w p2 g :
  made_of punctuation p1 -> made_of punctuation p2 ->
  classify_word (p1 +:+ w +:+ p2) g = classify_word w g.
Proof.
  intros Hp1 Hp2. unfold classify_word. rewrite (processed_app p1 w p2) by done.
  destruct (nonempty w) eqn:Hw.
  - by rewrite nonempty_app.
  - apply negb_false_iff, bool_decide_eq_true in Hw. subst w.
    cbn [negb]. by destruct (nonempty _).
Qed.

(** X17: the case of the letters does not count: two words that are equal
    in lower case are classified alike, with the same effect on the
    globals. *)
Theorem classify_word_ignores_case w1 w2 g :
  str_lower w1 = str_lower w2 -> classify_word w1 g = classify_word w2 g.
Proof.
  intros E. unfold classify_word.
  rewrite (processed_lower w1), (processed_lower w2), E.
  by rewrite <-(nonempty_str_lower w1), <-(nonempty_str_lower w2), E.
Qed.

(** X18: in keyword mode the keyword file is read at the first word that
    needs it, and never again. While the global is [None], the words of a
    list are flagged by the keywords of the file; once it holds a set, that
    set decides, whatever the file holds then, and the globals do not
    change. *)
Theorem keyword_list_is_read_once words g :
  is_string (get "classification_mode" (JString "keyword")) "keyword" = true ->
  (_keyword_list g = None ->
   fst (classify_words words g) = Ok (keyword_verdict file_keywords <$> words)) /\
  (forall keywords, _keyword_list g = Some keywords ->
   classify_words words g = (Ok (keyword_verdict keywords <$> words), g)).
Proof.
  intros Hmode. split.
  - by apply classify_words_first.
  - intros keywords. by apply classify_words_cached.
Qed.

(** X19: a line of the keyword file that is not blank, is no comment and
    has no stripped punctuation at the ends of its text flags the word it
    holds, in any case of its letters and with any stripped punctuation
    around it. *)
Theorem keyword_of_file_is_flagged content line p1 w p2 g :
  is_string (get "classification_mode" (JString "keyword")) "keyword" = true ->
  read_text (get "keyword_file" (JString "keywords.txt")) = Text content ->
  _keyword_list g = None ->
  line ∈ readlines content ->
  str_strip line <> "" ->
  String.prefix "#" (str_strip line) = false ->
  str_strip_chars punctuation (str_strip line) = str_strip line ->
  made_of punctuation p1 -> made_of punctuation p2 ->
  str_lower w = str_lower (str_strip line) ->
  fst (classify_word (p1 +:+ w +:+ p2) g) = Ok true.
Proof.
  intros Hmode Hfile Hg Hline Hne Hc Hclean Hp1 Hp2 Hw.
  destruct (classify_word_first (p1 +:+ w +:+ p2) g Hmode Hg) as (g' & -> & _).
  cbn. f_equal. unfold keyword_verdict.
  assert (processed (p1 +:+ w +:+ p2) = str_lower (str_strip line)) as ->.
  { rewrite processed_app, processed_lower, Hw, <-processed_lower by done.
    unfold processed. by rewrite Hclean, str_strip_idemp. }
  assert (nonempty (str_strip line) = true) as Hne' by by apply nonempty_true.
  rewrite nonempty_app, nonempty_str_lower, Hne'; cbn.
  - apply bool_decide_eq_true, file_keywords_elem. by exists content, line.
  - by rewrite <-nonempty_str_lower, Hw, nonempty_str_lower.
Qed.

(** X20: in keyword mode, when the keyword file is missing or cannot be
    read, or holds blank lines and comments only, no word is flagged. *)
Theorem no_keyword_no_flag words :
  is_string (get "classification_mode" (JString "keyword")) "keyword" = true ->
  match read_text (get "keyword_file" (JString "keywords.txt")) with
  | Text content =>
      Forall (fun line => str_strip line = "" \/
                          String.prefix "#" (str_strip line) = true)
             (readlines content)
  | NoFile | Unreadable => True
  end ->
  fst (classify_words words imported) = Ok (replicate (length words) false).
Proof.
  intros Hmode Hfile. rewrite classify_words_first by done. f_equal.
  assert (file_keywords = ∅) as ->.
  { apply set_eq. intros k. rewrite file_keywords_elem. split; [|set_solver].
    intros (content & line & E & Hline & Hne & Hc & _). rewrite E in Hfile.
    rewrite Forall_forall in Hfile. destruct (Hfile _ Hline); congruence. }
  induction words as [|w words IH]; [done|]. cbn. f_equal; [|done].
  unfold keyword_verdict. by rewrite andb_false_r.
Qed.

(** X21: once a pipeline is loaded, the configured threshold decides as
    follows, for every word that is left after the preprocessing. A number
    is the threshold. A string that is no number gives the threshold 0.75.
    Any other value (null, a list, an object, an int too large for a float)
    makes [classify_word] raise, also when no label is configured. The word
    is flagged when a label is configured, the pipeline predicts that label
    and the score is not below the threshold. *)
Theorem threshold_conversion w g pipeline :
  is_string (get "classification_mode" (JString "keyword")) "model" = true ->
  _classifier_pipeline g = Some pipeline ->
  w <> "" -> processed w <> "" ->
  let verdict threshold :=
    truthy (get "abuse_label" JNull) &&
    match pipeline (processed w) with
    | Predicted predicted_label score =>
        is_string (get "abuse_label" JNull) predicted_label
        && (threshold <=? score)%float
    | InferenceRaises | Malformed => false
    end in
  match py_float (get "abuse_confidence_threshold" (JFloat 0.75)) with
  | Ok threshold => classify_word w g = (Ok (verdict threshold), g)
  | Raise ValueError => classify_word w g = (Ok (verdict 0.75%float), g)
  | Raise e => classify_word w g = (Raise e, g)
  end.
Proof.
  intros Hmode Hg Hw Hp verdict. unfold classify_word.
  apply nonempty_true in Hw, Hp. rewrite Hw, Hp, Hmode. cbn [negb].
  unfold load_classification_model. rewrite Hmode, Hg. cbn.
  unfold verdict.
  destruct (py_float _) as [threshold|[]]; try done;
    destruct (truthy _); cbn; try done; by destruct (pipeline _).
Qed.

(** X22: in model mode, a model that does not load is loaded again for
    every word that is left after the preprocessing, and none of these
    words is flagged; a pipeline that is loaded is kept, and classifying a
    word then changes no global. *)
Theorem failing_model_is_loaded_again words g :
  is_string (get "classification_mode" (JString "keyword")) "model" = true ->
  Forall (fun w => w <> "" /\ processed w <> "") words ->
  (truthy (get "classification_model_name" JNull) = true ->
   (forall n index,
      load_pipeline n (get "classification_model_name" JNull) index = None) ->
   _classifier_pipeline g = None ->
   exists g',
     classify_words words g = (Ok (replicate (length words) false), g') /\
     _classifier_pipeline g' = None /\
     loads g' = (loads g + length words)%nat) /\
  (forall w, w ∈ words -> is_Some (_classifier_pipeline g) ->
     snd (classify_word w g) = g).
Proof.
  intros Hmode Hwords. split.
  - intros Hname Hload. revert g.
    induction Hwords as [|w words [Hw Hp] _ IH]; intros g Hg.
    + exists g. cbn. by rewrite Nat.add_0_r.
    + cbn [classify_words]. unfold classify_word at 1.
      apply nonempty_true in Hw, Hp. rewrite Hw, Hp, Hmode. cbn [negb].
      unfold load_classification_model. rewrite Hmode, Hg, Hname. cbn.
      destruct (_get_classifier_device g) as [d g1] eqn:Ed.
      rewrite Hload.
      assert (_classifier_pipeline g1 = None /\ loads g1 = loads g) as [Hg1 Hl1].
      { revert Ed. unfold _get_classifier_device.
        destruct (_classifier_device g); by intros [= <- <-]. }
      match goal with |- context [classify_words words ?g2] =>
        destruct (IH g2 eq_refl) as (g' & -> & Hg' & Hl') end.
      exists g'. split; [done|]. split; [done|].
      rewrite Hl'. cbn. rewrite Hl1. lia.
  - intros w Hw [pipeline Hg]. rewrite Forall_forall in Hwords.
    destruct (Hwords _ Hw) as [Hne Hp].
    by apply (classify_word_loaded_state w g pipeline).
Qed.

End ClassifierFacts.

Section ClassifierWitnesses.
Import classification_processor.

Example readlines_example :
  readlines demo_keyword_file =
    ["# words" +:+ String "010" ""; "Bad" +:+ String "010" "";
     String "010" ""; "  worse " +:+ String "010" ""].
Proof. by vm_compute. Qed.

Example classify_words_example :
  fst (@classify_words demo_keyword_mode
         ["BAD!"; "(worse)"; "good"; "#"; "words"] imported) =
    Ok [true; true; false; false; false].
Proof. by vm_compute. Qed.

Lemma made_of_punctuation_example :
  made_of punctuation "(" /\ made_of punctuation "!)".
Proof. split; repeat constructor; apply (bool_decide_unpack _); by vm_compute. Qed.

Lemma classify_word_ignores_punctuation_witness :
  made_of punctuation "(" /\ made_of punctuation "!)" /\
  @classify_word demo_keyword_mode ("(" +:+ "Bad" +:+ "!)") imported =
  @classify_word demo_keyword_mode "Bad" imported.
Proof.
  destruct made_of_punctuation_example as [H1 H2].
  split; [done|]. split; [done|].
  by apply (@classify_word_ignores_punctuation demo_keyword_mode).
Defined.

Lemma classify_word_ignores_case_witness :
  str_lower "WoRSe" = str_lower "worse" /\
  @classify_word demo_keyword_mode "WoRSe" imported =
  @classify_word demo_keyword_mode "worse" imported.
Proof.
  split; [by vm_compute|].
  apply (@classify_word_ignores_case demo_keyword_mode). by vm_compute.
Defined.

Lemma keyword_list_is_read_once_witness :
  (fst (@classify_words demo_keyword_mode ["BAD!"; "good"] imported) =
     Ok [true; false]) /\
  @classify_words demo_keyword_mode ["BAD!"; "good"]
    {| _classifier_pipeline := None; _keyword_list := Some {[ "good" ]};
       _classifier_device := None; loads := 0 |} =
  (Ok [false; true],
   {| _classifier_pipeline := None; _keyword_list := Some {[ "good" ]};
      _classifier_device := None; loads := 0 |}).
Proof.
  destruct (@keyword_list_is_read_once demo_keyword_mode ["BAD!"; "good"] imported)
    as [Hfirst _]; [by vm_compute|].
  destruct (@keyword_list_is_read_once demo_keyword_mode ["BAD!"; "good"]
              {| _classifier_pipeline := None; _keyword_list := Some {[ "good" ]};
                 _classifier_device := None; loads := 0 |})
    as [_ Hcached]; [by vm_compute|].
  split.
  - rewrite Hfirst by done. by vm_compute.
  - rewrite (Hcached {[ "good" ]}) by done. by vm_compute.
Defined.

Lemma keyword_of_file_is_flagged_witness :
  "Bad" +:+ String "010" "" ∈ readlines demo_keyword_file /\
  fst (@classify_word demo_keyword_mode ("(" +:+ "bAD" +:+ "!)") imported) =
    Ok true.
Proof.
  destruct made_of_punctuation_example as [H1 H2].
  assert ("Bad" +:+ String "010" "" ∈ readlines demo_keyword_file) as Hline.
  { apply (bool_decide_unpack _). by vm_compute. }
  split; [done|].
  by apply (@keyword_of_file_is_flagged demo_keyword_mode demo_keyword_file
              ("Bad" +:+ String "010" "")).
Defined.

Lemma no_keyword_no_flag_witness :
  fst (@classify_words (demo_transformers (demo_config "keyword" JNull) None NoFile)
         ["bad"; "worse"] imported) = Ok [false; false].
Proof.
  by apply (@no_keyword_no_flag
              (demo_transformers (demo_config "keyword" JNull) None NoFile)
              ["bad"; "worse"]).
Defined.

Lemma threshold_conversion_witness :
  let loaded :=
    {| _classifier_pipeline := Some demo_pipeline; _keyword_list := None;
       _classifier_device := Some Cpu; loads := 1 |} in
  @classify_word (demo_transformers (demo_config "model" JNull) None NoFile)
    "Bad!" loaded = (Raise UnexpectedError, loaded) /\
  @classify_word
    (demo_transformers (demo_config "model" (JString "high")) None NoFile)
    "Bad!" loaded = (Ok true, loaded) /\
  @classify_word
    (demo_transformers (demo_config "model" (JFloat 0.95)) None NoFile)
    "Bad!" loaded = (Ok false, loaded).
Proof.
  intros loaded. split; [|split].
  - by apply (@threshold_conversion
                (demo_transformers (demo_config "model" JNull) None NoFile)
                "Bad!" loaded demo_pipeline).
  - by apply (@threshold_conversion
                (demo_transformers (demo_config "model" (JString "high")) None NoFile)
                "Bad!" loaded demo_pipeline).
  - by apply (@threshold_conversion
                (demo_transformers (demo_config "model" (JFloat 0.95)) None NoFile)
                "Bad!" loaded demo_pipeline).
Defined.

Lemma failing_model_is_loaded_again_witness :
  (exists g',
     @classify_words (demo_transformers (demo_config "model" JNull) None NoFile)
       ["bad"; "worse"; "good"] imported = (Ok [false; false; false], g') /\
     _classifier_pipeline g' = None /\ loads g' = 3%nat) /\
  snd (@classify_word (demo_transformers (demo_config "model" (JFloat 0.5)) None NoFile)
         "bad"
         {| _classifier_pipeline := Some demo_pipeline; _keyword_list := None;
            _classifier_device := Some Cpu; loads := 1 |}) =
    {| _classifier_pipeline := Some demo_pipeline; _keyword_list := None;
       _classifier_device := Some Cpu; loads := 1 |}.
Proof.
  split.
  - destruct (@failing_model_is_loaded_again
                (demo_transformers (demo_config "model" JNull) None NoFile)
                ["bad"; "worse"; "good"] imported) as [Hfail _].
    + by vm_compute.
    + repeat constructor; by vm_compute.
    + apply Hfail; by vm_compute.
  - destruct (@failing_model_is_loaded_again
                (demo_transformers (demo_config "model" (JFloat 0.5)) None NoFile)
                ["bad"]
                {| _classifier_pipeline := Some demo_pipeline; _keyword_list := None;
                   _classifier_device := Some Cpu; loads := 1 |}) as [_ Hkept].
    + by vm_compute.
    + repeat constructor; by vm_compute.
    + apply Hkept; [by left|by eexists].
Defined.

End ClassifierWitnesses.

Local Close Scope string_scope.
